(** * mcp-rampensau: the tool registry of [rampensau-mcp-spec.js]

    A shallow embedding of the MCP adapter around the RampenSau colour
    library: the zod parameter schemas, the six tool handlers and the
    response envelope, with the theorems that settle the specification's
    claims about them.

    - JavaScript numbers are IEEE-754 binary64 values: Rocq's primitive
      [float], whose operations the kernel evaluates and [FloatAxioms]
      specifies by [SpecFloat].
    - JavaScript strings are sequences of code units; the embedding keeps
      the code units below 256, one [ascii] each.
    - Plain objects are association lists in insertion order (the order
      [JSON.stringify] prints).
    - The RampenSau engine is external: a handler is a program that issues
      engine calls and continues with the engine's answers. *)

From Stdlib Require Import ZArith Lia Bool List String Ascii Floats DecimalString.
Import ListNotations.

Local Open Scope list_scope.
Local Open Scope string_scope.

#[local] Set Warnings "-register-all".

(** * Numbers *)

Module Number.

Local Open Scope Z_scope.

Definition isNaN (x : float) : bool := PrimFloat.is_nan x.

Definition isFinite (x : float) : bool :=
  match Prim2SF x with
  | S754_zero _ | S754_finite _ _ _ => true
  | S754_infinity _ | S754_nan => false
  end.

(** [Number.isInteger]: finite, with no fractional part. *)
Definition isInteger (x : float) : bool :=
  match Prim2SF x with
  | S754_zero _ => true
  | S754_finite _ m e =>
      if 0 <=? e then true else Z.pos m mod 2 ^ (- e) =? 0
  | S754_infinity _ | S754_nan => false
  end.

(** The mantissas of 1 and of 100: [1 = 2 ^ 52 * 2 ^ -52] and
    [100 = 7036874417766400 * 2 ^ -46]. *)
Definition m_one : positive := 4503599627370496.
Definition m_hundred : positive := 7036874417766400.

(** ** [Number::toString], radix 10

    For a finite positive [x = m * 2 ^ e] the digits are the shortest
    decimal [s * 10 ^ (n - k)] (with [k] digits in [s]) that rounds to
    [x], the closest to [x] among those of that length.  All quantities
    below are integers: values are counted in units of [1 / scale]. *)

Section Shortest.
Variables (m : positive) (e : Z).

Definition scale : Z := if 0 <=? e then 4 else 4 * 2 ^ (- e).
Definition ulp : Z := if 0 <=? e then 4 * 2 ^ e else 4.
Definition exact : Z := Z.pos m * ulp.
(** Below a power of two the neighbour is half as far. *)
Definition at_binade : bool := (Z.pos m =? 2 ^ 52) && (-1074 <? e).
Definition lower : Z := exact - (if at_binade then ulp / 4 else ulp / 2).
Definition upper : Z := exact + ulp / 2.

(** [s * 10 ^ p] as the fraction [cand_num s p / cand_den p] of units. *)
Definition cand_num (s p : Z) : Z := s * scale * 10 ^ Z.max p 0.
Definition cand_den (p : Z) : Z := 10 ^ Z.max (- p) 0.

(** Ties round to the even mantissa, so the interval is closed exactly
    when [m] is even. *)
Definition rounds_here (s p : Z) : bool :=
  let a := cand_num s p in
  let d := cand_den p in
  if Z.even (Z.pos m)
  then (lower * d <=? a) && (a <=? upper * d)
  else (lower * d <? a) && (a <? upper * d).

(** The least [n] with [x < 10 ^ n], searched upwards from a power of
    ten that is at most [x]: [2 ^ b <= x] for [b] below, and
    [0.30102 < log10 2 < 0.30103]. *)
Definition magnitude_start : Z :=
  let b := Z.log2 (Z.pos m) + e in
  if 0 <=? b then b * 30102 / 100000 else b * 30103 / 100000.

Fixpoint magnitude (fuel : nat) (n : Z) : Z :=
  match fuel with
  | O => n
  | S fuel' =>
      if exact * 10 ^ Z.max (- n) 0 <? scale * 10 ^ Z.max n 0
      then n
      else magnitude fuel' (n + 1)
  end.

Definition pick (n k : Z) : option Z :=
  let p := n - k in
  let d := cand_den p in
  let lo := (exact * d) / (scale * 10 ^ Z.max p 0) in
  let hi := lo + 1 in
  match rounds_here lo p, rounds_here hi p with
  | false, false => None
  | true, false => Some lo
  | false, true => Some hi
  | true, true =>
      let below := exact * d - cand_num lo p in
      let above := cand_num hi p - exact * d in
      match below ?= above with
      | Lt => Some lo
      | Gt => Some hi
      | Eq => if Z.even lo then Some lo else Some hi
      end
  end.

(** [(s, k, n)]: the digits, their count and the decimal exponent. *)
Fixpoint shortest_from (fuel : nat) (n k : Z) : Z * Z * Z :=
  match fuel with
  | O => (0, k, n)
  | S fuel' =>
      match pick n k with
      | Some s => if s =? 10 ^ k then (1, 1, n + 1) else (s, k, n)
      | None => shortest_from fuel' n (k + 1)
      end
  end.

Definition shortest : Z * Z * Z :=
  shortest_from 17 (magnitude 8 magnitude_start) 1.
End Shortest.

Definition decimal (z : Z) : string :=
  NilZero.string_of_uint (N.to_uint (Z.to_N z)).

Fixpoint zeros (n : nat) : string :=
  match n with
  | O => ""
  | S n' => String "0" (zeros n')
  end.

Definition take (n : Z) (s : string) : string := substring 0 (Z.to_nat n) s.
Definition drop (n : Z) (s : string) : string :=
  substring (Z.to_nat n) (String.length s - Z.to_nat n) s.

Definition layout (s k n : Z) : string :=
  let ds := decimal s in
  if (k <=? n) && (n <=? 21) then (ds ++ zeros (Z.to_nat (n - k)))%string
  else if (0 <? n) && (n <=? 21) then (take n ds ++ "." ++ drop n ds)%string
  else if (-6 <? n) && (n <=? 0) then ("0." ++ zeros (Z.to_nat (- n)) ++ ds)%string
  else
    let sign := if 0 <? n - 1 then "+" else "-" in
    let ex := (sign ++ decimal (Z.abs (n - 1)))%string in
    if k =? 1 then (ds ++ "e" ++ ex)%string
    else (take 1 ds ++ "." ++ drop 1 ds ++ "e" ++ ex)%string.

Definition toString (x : float) : string :=
  match Prim2SF x with
  | S754_nan => "NaN"
  | S754_zero _ => "0"
  | S754_infinity s => if s then "-Infinity" else "Infinity"
  | S754_finite sg m e =>
      let '(s, k, n) := shortest m e in
      ((if sg then "-" else "") ++ layout s k n)%string
  end.

End Number.

(** * JavaScript values *)

(** [JFun] is a function value: an opaque handle to code of the engine or
    of the runtime. *)
Inductive jsval : Type :=
| JUndefined
| JNull
| JBool (b : bool)
| JNum (x : float)
| JStr (s : string)
| JArr (items : list jsval)
| JObj (fields : list (string * jsval))
| JFun (id : string).

Definition typeof (v : jsval) : string :=
  match v with
  | JUndefined => "undefined"
  | JNull => "object"
  | JBool _ => "boolean"
  | JNum _ => "number"
  | JStr _ => "string"
  | JArr _ | JObj _ => "object"
  | JFun _ => "function"
  end.

(** [ToBoolean]. *)
Definition truthy (v : jsval) : bool :=
  match v with
  | JUndefined | JNull => false
  | JBool b => b
  | JNum x => negb (Number.isNaN x || PrimFloat.eqb x 0)
  | JStr s => negb (s =? "")
  | JArr _ | JObj _ | JFun _ => true
  end.

(** [v === 'lit'] for a string literal. *)
Definition is_string (lit : string) (v : jsval) : bool :=
  match v with
  | JStr s => s =? lit
  | _ => false
  end.

Definition is_undefined (v : jsval) : bool :=
  match v with
  | JUndefined => true
  | _ => false
  end.

(** ** Own properties of plain objects *)

Module Obj.

Definition t : Type := list (string * jsval).

Fixpoint lookup (k : string) (o : t) : option jsval :=
  match o with
  | [] => None
  | (k', v) :: rest => if k' =? k then Some v else lookup k rest
  end.

Definition has (k : string) (o : t) : bool :=
  match lookup k o with
  | Some _ => true
  | None => false
  end.

(** [{ k, ...rest } = o] leaves in [rest] the properties other than [k]. *)
Definition remove (k : string) (o : t) : t :=
  filter (fun kv => negb (fst kv =? k)) o.

(** [o[k] = v]: an existing key keeps its place, a new one goes last. *)
Fixpoint set (k : string) (v : jsval) (o : t) : t :=
  match o with
  | [] => [(k, v)]
  | (k', v') :: rest =>
      if k' =? k then (k, v) :: rest else (k', v') :: set k v rest
  end.

End Obj.

(** [o.k] for the data properties the handlers read: own properties of a
    plain object; any other value has none of them. *)
Definition get (o : jsval) (k : string) : jsval :=
  match o with
  | JObj fields =>
      match Obj.lookup k fields with
      | Some v => v
      | None => JUndefined
      end
  | _ => JUndefined
  end.

(** * [JSON.stringify] *)

Module JSON.

Definition dquote : ascii := "034"%char.
Definition backslash : ascii := "092"%char.

Definition hex_digit (n : nat) : ascii :=
  nth n (list_ascii_of_string "0123456789abcdef") "0"%char.

(** One code unit of a quoted string. *)
Definition quote_unit (c : ascii) : string :=
  let n := nat_of_ascii c in
  if Nat.eqb n 34 then String backslash (String dquote "")
  else if Nat.eqb n 92 then String backslash (String backslash "")
  else if Nat.eqb n 8 then String backslash "b"
  else if Nat.eqb n 9 then String backslash "t"
  else if Nat.eqb n 10 then String backslash "n"
  else if Nat.eqb n 12 then String backslash "f"
  else if Nat.eqb n 13 then String backslash "r"
  else if Nat.ltb n 32
    then String backslash
           ("u00" ++ String (hex_digit (n / 16)) (String (hex_digit (n mod 16)) ""))
  else String c "".

Fixpoint quote_units (s : string) : string :=
  match s with
  | EmptyString => ""
  | String c rest => quote_unit c ++ quote_units rest
  end.

Definition QuoteJSONString (s : string) : string :=
  String dquote (quote_units s ++ String dquote "").

Definition newline : string := String "010"%char "".

Fixpoint spaces (n : nat) : string :=
  match n with
  | O => ""
  | S n' => String " " (spaces n')
  end.

(** The brackets around the already serialized members. *)
Definition wrap (open close gap stepback indent : string)
    (partial : list string) : string :=
  match partial with
  | [] => open ++ close
  | _ =>
      if gap =? ""
      then open ++ concat "," partial ++ close
      else open ++ newline ++ indent
             ++ concat ("," ++ newline ++ indent) partial
             ++ newline ++ stepback ++ close
  end.

(** [SerializeJSONProperty]: [None] is JavaScript's [undefined], which
    an array prints as [null] and an object leaves out. *)
Fixpoint SerializeJSONProperty (gap indent : string) (v : jsval)
    : option string :=
  match v with
  | JUndefined | JFun _ => None
  | JNull => Some "null"
  | JBool b => Some (if b then "true" else "false")
  | JNum x => Some (if Number.isFinite x then Number.toString x else "null")
  | JStr s => Some (QuoteJSONString s)
  | JArr items =>
      let inner := indent ++ gap in
      let partial :=
        map (fun item =>
               match SerializeJSONProperty gap inner item with
               | Some s => s
               | None => "null"
               end) items in
      Some (wrap "[" "]" gap indent inner partial)
  | JObj fields =>
      let inner := indent ++ gap in
      let colon := if gap =? "" then ":" else ": " in
      let partial :=
        flat_map (fun kv =>
                    match SerializeJSONProperty gap inner (snd kv) with
                    | Some s => [QuoteJSONString (fst kv) ++ colon ++ s]
                    | None => []
                    end) fields in
      Some (wrap "{" "}" gap indent inner partial)
  end.

(** [JSON.stringify(value, null, space)] for a numeric [space]. *)
Definition stringify (value : jsval) (space : nat) : jsval :=
  match SerializeJSONProperty (spaces (Nat.min space 10)) "" value with
  | Some s => JStr s
  | None => JUndefined
  end.

End JSON.

(** * Zod: schemas and their parsers

    The schema builders the source uses, with zod 3's parsing rules.  A
    builder chain [z.number().min(1).default(1).optional()] is written
    [z_number |> min 1 |> default (JNum 1) |> optional]: the wrapper applied
    last is outermost, and is the first to see the input. *)

Module Zod.

Inductive key : Type :=
| Field (name : string)
| Index (i : nat).

Inductive issue_code : Type :=
| invalid_type
| too_small
| too_big
| invalid_enum_value
| invalid_union
| custom.

(** [message] is the text the source passes to [refine]; zod's own
    wordings are left out. *)
Record issue : Type :=
  { code : issue_code; path : list key; message : option string }.

Inductive number_check : Type :=
| Int
| Min (bound : float)
| Max (bound : float).

Inductive schema : Type :=
| number (checks : list number_check)
| enum (values : list string)
| any
| array (element : schema) (exactLength : option nat)
| tuple (items : list schema)
| union (options : list schema)
| object (shape : list (string * schema))
| optional_ (inner : schema)
| default_ (inner : schema) (value : jsval)
| refine_ (inner : schema) (check : jsval -> bool) (msg : string)
| transform_ (inner : schema) (fn : jsval -> jsval)
| describe_ (inner : schema) (text : string).

(** ** The builder methods, schema last so that they chain *)

Definition z_number : schema := number [].

Definition add_check (c : number_check) (s : schema) : schema :=
  match s with
  | number checks => number (checks ++ [c])%list
  | _ => s
  end.

Definition int : schema -> schema := add_check Int.
Definition min (bound : float) : schema -> schema := add_check (Min bound).
Definition max (bound : float) : schema -> schema := add_check (Max bound).

Definition z_array (element : schema) : schema := array element None.

Definition length (n : nat) (s : schema) : schema :=
  match s with
  | array element _ => array element (Some n)
  | _ => s
  end.

Definition optional (s : schema) : schema := optional_ s.
Definition default (value : jsval) (s : schema) : schema := default_ s value.
Definition refine (check : jsval -> bool) (msg : string) (s : schema) : schema :=
  refine_ s check msg.
Definition transform (fn : jsval -> jsval) (s : schema) : schema :=
  transform_ s fn.
Definition describe (text : string) (s : schema) : schema := describe_ s text.

(** ** Parsing *)

(** zod's three parse statuses: [dirty] carries a value together with
    issues, [aborted] carries none. *)
Inductive status : Type := valid | dirty | aborted.

Record outcome : Type :=
  { st : status; value : jsval; issues : list issue }.

Definition OK (v : jsval) : outcome :=
  {| st := valid; value := v; issues := [] |}.

Definition INVALID (errs : list issue) : outcome :=
  {| st := aborted; value := JUndefined; issues := errs |}.

Definition flagged (v : jsval) (errs : list issue) : outcome :=
  {| st := match errs with [] => valid | _ => dirty end;
     value := v; issues := errs |}.

Definition fail (c : issue_code) (p : list key) : issue :=
  {| code := c; path := p; message := None |}.

Definition worst (a b : status) : status :=
  match a, b with
  | aborted, _ | _, aborted => aborted
  | dirty, _ | _, dirty => dirty
  | valid, valid => valid
  end.

Definition check_number (p : list key) (x : float) (c : number_check)
    : list issue :=
  match c with
  | Int => if Number.isInteger x then [] else [fail invalid_type p]
  | Min bound => if PrimFloat.ltb x bound then [fail too_small p] else []
  | Max bound => if PrimFloat.ltb bound x then [fail too_big p] else []
  end.

(** [ParseStatus.mergeArray]: the values in order, the worst status. *)
Definition mergeArray (own : list issue) (results : list outcome) : outcome :=
  let errs := (own ++ flat_map issues results)%list in
  let s := fold_left worst (map st results)
             match own with [] => valid | _ => dirty end in
  match s with
  | aborted => INVALID errs
  | _ => {| st := s; value := JArr (map value results); issues := errs |}
  end.

(** [ParseStatus.mergeObjectSync]: a key is set when its value is defined
    or the input had the key. *)
Definition mergeObject (pairs : list (string * bool * outcome)) : outcome :=
  let results := map snd pairs in
  let errs := flat_map issues results in
  let s := fold_left worst (map st results) valid in
  match s with
  | aborted => INVALID errs
  | _ =>
      {| st := s;
         value :=
           JObj (flat_map
                   (fun '(k, alwaysSet, r) =>
                      if negb (is_undefined (value r)) || alwaysSet
                      then [(k, value r)] else [])
                   pairs);
         issues := errs |}
  end.

Fixpoint _parse (s : schema) (p : list key) (data : jsval) {struct s}
    : outcome :=
  match s with
  | number checks =>
      match data with
      | JNum x =>
          if Number.isNaN x then INVALID [fail invalid_type p]
          else flagged data (flat_map (check_number p x) checks)
      | _ => INVALID [fail invalid_type p]
      end
  | enum values =>
      match data with
      | JStr v =>
          if existsb (String.eqb v) values then OK data
          else INVALID [fail invalid_enum_value p]
      | _ => INVALID [fail invalid_type p]
      end
  | any => OK data
  | array element exactLength =>
      match data with
      | JArr items =>
          let own :=
            match exactLength with
            | None => []
            | Some n =>
                if Nat.ltb n (List.length items) then [fail too_big p]
                else if Nat.ltb (List.length items) n then [fail too_small p]
                else []
            end in
          mergeArray own
            (map (fun '(i, item) => _parse element (p ++ [Index i])%list item)
                 (combine (seq 0 (List.length items)) items))
      | _ => INVALID [fail invalid_type p]
      end
  | tuple schemas =>
      match data with
      | JArr items =>
          if Nat.ltb (List.length items) (List.length schemas)
          then INVALID [fail too_small p]
          else
            let own :=
              if Nat.ltb (List.length schemas) (List.length items)
              then [fail too_big p] else [] in
            mergeArray own
              ((fix each (ss : list schema) (ds : list jsval) (i : nat)
                  : list outcome :=
                  match ss, ds with
                  | s' :: ss', d :: ds' =>
                      _parse s' (p ++ [Index i])%list d :: each ss' ds' (S i)
                  | _, _ => []
                  end) schemas items 0)
      | _ => INVALID [fail invalid_type p]
      end
  | union options =>
      (fix first (os : list schema) (firstDirty : option outcome) : outcome :=
         match os with
         | [] =>
             match firstDirty with
             | Some r => r
             | None => INVALID [fail invalid_union p]
             end
         | o :: os' =>
             let r := _parse o p data in
             match st r with
             | valid => r
             | dirty =>
                 first os' (match firstDirty with
                            | None => Some r
                            | Some _ => firstDirty
                            end)
             | aborted => first os' firstDirty
             end
         end) options None
  | object shape =>
      match data with
      | JObj fields =>
          mergeObject
            (map (fun ks =>
                    (fst ks, Obj.has (fst ks) fields,
                     _parse (snd ks) (p ++ [Field (fst ks)])%list
                       (get data (fst ks))))
                 shape)
      | _ => INVALID [fail invalid_type p]
      end
  | optional_ inner =>
      match data with
      | JUndefined => OK JUndefined
      | _ => _parse inner p data
      end
  | default_ inner dflt =>
      match data with
      | JUndefined => _parse inner p dflt
      | _ => _parse inner p data
      end
  | refine_ inner check msg =>
      let r := _parse inner p data in
      match st r with
      | aborted => INVALID (issues r)
      | _ =>
          if check (value r) then r
          else {| st := dirty; value := value r;
                  issues := (issues r
                               ++ [{| code := custom; path := p;
                                      message := Some msg |}])%list |}
      end
  | transform_ inner fn =>
      let r := _parse inner p data in
      match st r with
      | valid => {| st := valid; value := fn (value r); issues := issues r |}
      | _ => INVALID (issues r)
      end
  | describe_ inner _ => _parse inner p data
  end.

Inductive result : Type :=
| Ok (v : jsval)
| Err (errs : list issue).

(** [schema.parse(data)]: the parsed value, or the [ZodError]'s issues. *)
Definition parse (s : schema) (data : jsval) : result :=
  let r := _parse s [] data in
  match st r with
  | valid => Ok (value r)
  | _ => Err (issues r)
  end.

(** [z.object(shape)]: unknown keys are stripped (zod's default; the
    source never asks for [strict] or [passthrough]). *)
Definition z_object (shape : list (string * schema)) : schema := object shape.

End Zod.

Notation "x |> f" := (f x) (at level 50, left associativity, only parsing).

(** * Conversions and operators of the language *)

Definition join (sep : string) (parts : list string) : string := concat sep parts.

(** [ToString].  A function prints as its source text, for which its
    handle stands. *)
Fixpoint ToString (v : jsval) : string :=
  match v with
  | JUndefined => "undefined"
  | JNull => "null"
  | JBool b => if b then "true" else "false"
  | JNum x => Number.toString x
  | JStr s => s
  | JArr items =>
      join "," (map (fun item =>
                       match item with
                       | JUndefined | JNull => ""
                       | _ => ToString item
                       end) items)
  | JObj _ => "[object Object]"
  | JFun id => id
  end.

(** [...v] in an argument list: arrays and strings are iterable, the other
    values of the embedding are not. *)
Definition spread (v : jsval) : option (list jsval) :=
  match v with
  | JArr items => Some items
  | JStr s => Some (map (fun c => JStr (String c "")) (list_ascii_of_string s))
  | _ => None
  end.

(** [v.slice(2)] of an array or a string. *)
Definition slice2 (v : jsval) : option jsval :=
  match v with
  | JArr items => Some (JArr (skipn 2 items))
  | JStr s => Some (JStr (substring 2 (String.length s - 2) s))
  | _ => None
  end.

(** [v[0]]; reading a property of [undefined] or [null] throws ([None]). *)
Definition index0 (v : jsval) : option jsval :=
  match v with
  | JUndefined | JNull => None
  | JArr items => Some (nth 0 items JUndefined)
  | JStr s =>
      Some (match s with
            | EmptyString => JUndefined
            | String c _ => JStr (String c "")
            end)
  | JObj fields =>
      Some (match Obj.lookup "0" fields with
            | Some x => x
            | None => JUndefined
            end)
  | JBool _ | JNum _ | JFun _ => Some JUndefined
  end.

(** [Array.isArray(v)]. *)
Definition isArray (v : jsval) : bool :=
  match v with
  | JArr _ => true
  | _ => false
  end.

(** * The RampenSau engine and the handlers' programs *)

(** What a handler asks of the engine.  The five utilities take their
    arguments positionally, as a list; [colorHarmonies method] reads the
    member [colorHarmonies[method]] of the engine's table of harmonies;
    [apply f args] calls a function the engine returned earlier. *)
Inductive call : Type :=
| generateColorRamp (opts : jsval)
| generateColorRampWithCurve (opts : jsval)
| colorToCSS (color mode : jsval)
| harveyHue (h : jsval)
| colorHarmonies (method : jsval)
| uniqueRandomHues (opts : jsval)
| shuffleArray (args : list jsval)
| lerp (args : list jsval)
| scaleSpreadArray (args : list jsval)
| pointOnCurve (args : list jsval)
| makeCurveEasings (args : list jsval)
| apply (f : jsval) (args : list jsval).

Inductive error : Type :=
| TypeError
| Error (msg : string)
| ZodError (errs : list Zod.issue)
| ToolNotFound (toolName : string).

(** A handler's body: it returns, throws, or calls the engine and goes on
    with the answer. *)
Inductive prog (A : Type) : Type :=
| Ret (a : A)
| Throw (e : error)
| Call (c : call) (k : jsval -> prog A).

Arguments Ret {A} a.
Arguments Throw {A} e.
Arguments Call {A} c k.

Fixpoint bind {A B : Type} (p : prog A) (f : A -> prog B) : prog B :=
  match p with
  | Ret a => f a
  | Throw e => Throw e
  | Call c k => Call c (fun answer => bind (k answer) f)
  end.

Notation "x <- p ;; q" := (bind p (fun x => q))
  (at level 61, p at next level, right associativity).

Definition ask (c : call) : prog jsval := Call c Ret.

Fixpoint mapM {A B : Type} (f : A -> prog B) (l : list A) : prog (list B) :=
  match l with
  | [] => Ret []
  | x :: rest => y <- f x ;; ys <- mapM f rest ;; Ret (y :: ys)
  end.

(** [arr.map(f)]: only an array has the method. *)
Definition Array_map (f : jsval -> prog jsval) (arr : jsval) : prog jsval :=
  match arr with
  | JArr items => out <- mapM f items ;; Ret (JArr out)
  | _ => Throw TypeError
  end.

(** [f(...args)] for a value [f] the engine returned. *)
Definition invoke (f : jsval) (args : list jsval) : prog jsval :=
  match f with
  | JFun _ => ask (apply f args)
  | _ => Throw TypeError
  end.

(** [schema.parse(raw)] inside a handler. *)
Definition zparse (s : Zod.schema) (raw : jsval) : prog jsval :=
  match Zod.parse s raw with
  | Zod.Ok v => Ret v
  | Zod.Err errs => Throw (ZodError errs)
  end.

(** A parameter pattern [{ a, b }] cannot destructure [undefined] or [null]. *)
Definition destructure {A : Type} (raw : jsval) (body : prog A) : prog A :=
  match raw with
  | JUndefined | JNull => Throw TypeError
  | _ => body
  end.

(** ** Running a program against an engine

    An engine answers every call, and its answer is a function of the
    call. *)

Definition engine : Type := call -> jsval.

Inductive completion (A : Type) : Type :=
| Returned (a : A)
| Thrown (e : error).

Arguments Returned {A} a.
Arguments Thrown {A} e.

Fixpoint run {A : Type} (eng : engine) (p : prog A) : completion A :=
  match p with
  | Ret a => Returned a
  | Throw e => Thrown e
  | Call c k => run eng (k (eng c))
  end.

(** The engine calls of a run, in order. *)
Fixpoint calls {A : Type} (eng : engine) (p : prog A) : list call :=
  match p with
  | Ret _ | Throw _ => []
  | Call c k => c :: calls eng (k (eng c))
  end.

(** * Members inherited from [Object.prototype]

    An object literal inherits these names, so [o[name]] finds a value (a
    truthy one) for each of them even when [o] has no such own property. *)

Module ObjectPrototype.

Definition names : list string :=
  [ "constructor"; "toString"; "toLocaleString"; "valueOf";
    "hasOwnProperty"; "isPrototypeOf"; "propertyIsEnumerable";
    "__proto__"; "__defineGetter__"; "__defineSetter__";
    "__lookupGetter__"; "__lookupSetter__" ].

Definition has (name : string) : bool := existsb (String.eqb name) names.

(** [o[name]()] for an inherited [name], on a plain object [o] and with
    no arguments. *)
Definition call0 (name : string) (o : jsval) : prog jsval :=
  if name =? "constructor" then Ret (JObj [])
  else if (name =? "toString") || (name =? "toLocaleString")
    then Ret (JStr "[object Object]")
  else if name =? "valueOf" then Ret o
  else if (name =? "hasOwnProperty") || (name =? "isPrototypeOf")
          || (name =? "propertyIsEnumerable")
    then Ret (JBool false)
  else if (name =? "__lookupGetter__") || (name =? "__lookupSetter__")
    then Ret JUndefined
  else Throw TypeError.

End ObjectPrototype.

(** * The response envelope *)

Record ContentItem : Type := { type : string; text : jsval }.
Record ResponseEnvelope : Type := { content : list ContentItem }.

(** A tool descriptor.  [examples] are documentation; nothing runs them. *)
Record Tool : Type :=
  { name : string;
    description : string;
    parameters : list (string * Zod.schema);
    examples : list jsval;
    execute : jsval -> prog ResponseEnvelope }.

(** Refinements and transforms written over numbers (or strings) act on
    values their inner schema has already validated as such. *)
Definition on_number (test : float -> bool) (v : jsval) : bool :=
  match v with
  | JNum x => test x
  | _ => false
  end.

Definition map_number (f : float -> float) (v : jsval) : jsval :=
  match v with
  | JNum x => JNum (f x)
  | _ => v
  end.

Definition map_string (f : string -> string) (v : jsval) : jsval :=
  match v with
  | JStr s => JStr (f s)
  | _ => v
  end.

(** ['lamé']: the last code unit is U+00E9. *)
Definition lame : string := "lam" ++ String "233"%char "".

(** * [rampensau-mcp-spec.js] *)

Module Rampensau.

Import Zod.

(** ** helpers *)

Definition asResult (data : jsval) : ResponseEnvelope :=
  {| content :=
       [ {| type := "text";
            text := if typeof data =? "string"
                    then data
                    else JSON.stringify data 2 |} ] |}.

(** 0-1 or 0-100 to 0-1 *)
Definition norm01 : schema :=
  z_number
  |> refine (on_number (fun v => (0 <=? v)%float && (v <=? 100)%float))
            "must be between 0 and 100"
  |> transform (map_number (fun v => if (1 <? v)%float then (v / 100)%float else v)).

Definition RangeTuple : schema :=
  tuple [norm01; norm01] |> describe "min/max (0–1 or 0–100)".

(** ** shared option shapes *)

Definition RampBase : list (string * schema) :=
  [ ("total",
     z_number |> int |> min 3
     |> describe "How many swatches." |> default (JNum 10));
    ("hStart",
     z_number |> min 0 |> max 360
     |> describe "Starting hue (°)." |> optional);
    ("hStartCenter",
     norm01 |> describe "Randomise first hue by ± this fraction of 360°"
     |> optional);
    ("hCycles",
     z_number |> min 1
     |> describe "Number of hue wraps." |> default (JNum 1) |> optional);
    ("hueList",
     z_array (z_number |> min 0 |> max 360)
     |> describe "Explicit list of hues. Overrides hStart / cycles."
     |> optional);
    ("sRange",
     RangeTuple |> optional
     |> describe "Saturation range. Ex: [0.7,1] or [70,100]");
    ("lRange",
     RangeTuple |> optional
     |> describe "Lightness range. Ex: [0.2,0.4] or [20,40]") ]%list.

Definition CurveExtra : list (string * schema) :=
  [ ("curveMethod",
     enum [lame; "sine"; "power"; "linear"]
     |> describe "Curve algorithm for easing." |> optional);
    ("curveAccent",
     z_number |> min 0 |> max 5
     |> describe "Accent strength for curveMethod." |> optional) ]%list.

(** Accept array / css-hsl / css-oklch / css (alias of css-hsl) *)
Definition Format : schema :=
  enum ["array"; "css-hsl"; "css-oklch"; "css"]
  |> default (JStr "array")
  |> transform (map_string (fun f => if f =? "css" then "css-hsl" else f))
  |> describe "Output format: raw array, css-hsl, css-oklch (css = css-hsl)".

Definition FormatOpt : list (string * schema) :=
  [ ("format", Format |> optional) ]%list.

(** ** 1 · generate palette *)

Definition generate_parameters : list (string * schema) :=
  (RampBase ++ CurveExtra ++ FormatOpt)%list.

(** [const { format = 'array', curveMethod, ...opts } = parsed] *)
Definition format_of (parsed : jsval) : jsval :=
  match get parsed "format" with
  | JUndefined => JStr "array"
  | f => f
  end.

Definition opts_of (parsed : jsval) : Obj.t :=
  match parsed with
  | JObj fields => Obj.remove "curveMethod" (Obj.remove "format" fields)
  | _ => []
  end.

Definition generate_execute (parameters : list (string * schema))
    (raw : jsval) : prog ResponseEnvelope :=
  parsed <- zparse (z_object parameters) raw ;;
  let format := format_of parsed in
  let curveMethod := get parsed "curveMethod" in
  let opts := opts_of parsed in
  ramp <- (if truthy curveMethod
           then ask (generateColorRampWithCurve
                       (JObj (Obj.set "curveMethod" curveMethod opts)))
           else ask (generateColorRamp (JObj opts))) ;;
  out <- (if is_string "array" format
          then Ret ramp
          else Array_map
                 (fun c =>
                    ask (colorToCSS c
                           (JStr (if is_string "css-hsl" format
                                  then "hsl" else "oklch"))))
                 ramp) ;;
  Ret (asResult out).

Definition generate : Tool :=
  {| name := "generate";
     description := "Generate a colour ramp / palette.";
     parameters := generate_parameters;
     examples :=
       [ JObj [("total", JNum 8); ("hStart", JNum 220);
               ("sRange", JArr [JNum 70; JNum 100]);
               ("lRange", JArr [JNum 20; JNum 40])];
         JObj [("total", JNum 5); ("hCycles", JNum 2);
               ("curveMethod", JStr "sine"); ("format", JStr "css-hsl")];
         JObj [("total", JNum 5);
               ("hueList", JArr [JNum 120; JNum 140; JNum 160; JNum 180; JNum 200]);
               ("format", JStr "css")] ]%list;
     execute := generate_execute generate_parameters |}.

(** ** 2 · uniqueRandomHues *)

Definition uniqueRandomHues_parameters : list (string * schema) :=
  [ ("startHue",
     z_number |> min 0 |> max 360 |> describe "Central hue." |> optional);
    ("total",
     z_number |> int |> min 1
     |> describe "Quantity." |> default (JNum 5) |> optional);
    ("minHueDiffAngle",
     z_number |> min 0 |> max 360
     |> describe "Min separation (°)." |> optional) ]%list.

Definition uniqueRandomHues_execute (parameters : list (string * schema))
    (args : jsval) : prog ResponseEnvelope :=
  opts <- zparse (z_object parameters) args ;;
  hues <- ask (uniqueRandomHues opts) ;;
  Ret (asResult hues).

Definition uniqueRandomHuesTool : Tool :=
  {| name := "uniqueRandomHues";
     description := "Generate unique random hues.";
     parameters := uniqueRandomHues_parameters;
     examples := [];
     execute := uniqueRandomHues_execute uniqueRandomHues_parameters |}.

(** ** 3 · colorHarmony *)

Definition harmony_methods : list string :=
  [ "complementary"; "splitComplementary"; "triadic";
    "tetradic"; "monochromatic"; "doubleComplementary";
    "compound"; "analogous" ]%list.

Definition colorHarmony_parameters : list (string * schema) :=
  [ ("method", enum harmony_methods |> describe "Harmony type.");
    ("baseHue",
     z_number |> min 0 |> max 360 |> describe "Base hue (°).") ]%list.

(** [colorHarmonies[method](baseHue)]: the member is the engine's to
    answer, a function or [undefined]; calling it is the handler's. *)
Definition colorHarmony_execute (raw : jsval) : prog ResponseEnvelope :=
  destructure raw
    (let method := get raw "method" in
     let baseHue := get raw "baseHue" in
     harmony <- ask (colorHarmonies method) ;;
     hues <- invoke harmony [baseHue]%list ;;
     Ret (asResult hues)).

Definition colorHarmony : Tool :=
  {| name := "colorHarmony";
     description := "Return harmony hues.";
     parameters := colorHarmony_parameters;
     examples := [];
     execute := colorHarmony_execute |}.

(** ** 4 · toCSS *)

Definition toCSS_mode : schema :=
  enum [ "hsl"; "hsv"; "lch"; "oklch";
         "css"; "css-hsl"; "css-hsv"; "css-lch"; "css-oklch" ]
  |> default (JStr "oklch")
  |> transform
       (map_string
          (fun m =>
             if (m =? "css") || (m =? "css-hsl") then "hsl"
             else if m =? "css-hsv" then "hsv"
             else if m =? "css-lch" then "lch"
             else if m =? "css-oklch" then "oklch"
             else m))
  |> describe "Output space (aliases allowed)."
  |> optional.

Definition toCSS_parameters : list (string * schema) :=
  [ ("color",
     z_array z_number |> length 3 |> describe "[h, s, l] from RampenSau");
    ("mode", toCSS_mode) ]%list.

Definition toCSS_execute (raw : jsval) : prog ResponseEnvelope :=
  destructure raw
    (let color := get raw "color" in
     let mode := get raw "mode" in
     css <- ask (colorToCSS color mode) ;;
     Ret (asResult css)).

Definition toCSS : Tool :=
  {| name := "toCSS";
     description := "Convert [h,s,l] → CSS string.";
     parameters := toCSS_parameters;
     examples := [];
     execute := toCSS_execute |}.

(** ** 5 · harveyHue *)

Definition harveyHue_parameters : list (string * schema) :=
  [ ("h", z_number |> min 0 |> max 360 |> describe "Hue (°).") ]%list.

Definition harveyHue_execute (raw : jsval) : prog ResponseEnvelope :=
  destructure raw
    (let h := get raw "h" in
     hue <- ask (harveyHue h) ;;
     Ret (asResult hue)).

Definition harveyHueTool : Tool :=
  {| name := "harveyHue";
     description := "Perceptually even hue warp.";
     parameters := harveyHue_parameters;
     examples := [];
     execute := harveyHue_execute |}.

(** ** 6 · utils *)

Definition utils_names : list string :=
  [ "shuffle"; "lerp"; "scaleSpread"; "curvePoint"; "curveEasings" ]%list.

Definition utils_parameters : list (string * schema) :=
  [ ("fn", enum utils_names |> describe "Utility name.");
    ("args", z_array any |> optional |> describe "Arguments for fn.") ]%list.

(** [f(...args)] for an engine utility [f]. *)
Definition spread_into (f : list jsval -> call) (args : jsval) : prog jsval :=
  match spread args with
  | Some items => ask (f items)
  | None => Throw TypeError
  end.

(** [pointOnCurve(...args)(...args.slice(2))] *)
Definition curvePoint (args : jsval) : prog jsval :=
  curve <- spread_into pointOnCurve args ;;
  match slice2 args with
  | Some rest =>
      match spread rest with
      | Some items => invoke curve items
      | None => Throw TypeError
      end
  | None => Throw TypeError
  end.

(** [const map = { shuffle: () => ..., ... }]: the thunks, by own key. *)
Definition utils_map (args : jsval) : list (string * prog jsval) :=
  [ ("shuffle", spread_into shuffleArray args);
    ("lerp", spread_into lerp args);
    ("scaleSpread", spread_into scaleSpreadArray args);
    ("curvePoint", curvePoint args);
    ("curveEasings", spread_into makeCurveEasings args) ]%list.

Fixpoint own {A : Type} (k : string) (table : list (string * A)) : option A :=
  match table with
  | [] => None
  | (k', a) :: rest => if k' =? k then Some a else own k rest
  end.

Definition unknown_fn (fn : jsval) : error :=
  Error ("utils: unknown fn " ++ String JSON.dquote (ToString fn)
           ++ String JSON.dquote "").

(** [if (!map[fn]) throw ...; return asResult(map[fn]())]: [map[fn]] is an
    own thunk, or a member [map] inherits, or [undefined]. *)
Definition utils_execute (raw : jsval) : prog ResponseEnvelope :=
  destructure raw
    (let fn := get raw "fn" in
     let args := match get raw "args" with
                 | JUndefined => JArr []
                 | given => given
                 end in
     let map_ := utils_map args in
     let key := ToString fn in
     match own key map_ with
     | Some thunk => r <- thunk ;; Ret (asResult r)
     | None =>
         if ObjectPrototype.has key
         then r <- ObjectPrototype.call0 key
                     (JObj (map (fun m => (fst m, JFun (fst m))) map_)) ;;
              Ret (asResult r)
         else Throw (unknown_fn fn)
     end).

Definition utils : Tool :=
  {| name := "utils";
     description := "Expose RampenSau utility helpers.";
     parameters := utils_parameters;
     examples := [];
     execute := utils_execute |}.

(** ** spec object *)

Definition tools : list Tool :=
  [ generate; uniqueRandomHuesTool; colorHarmony; toCSS; harveyHueTool; utils ]%list.

End Rampensau.

(** * The palette-aware variant of the module

    Another file of the repository declares the same tools with two
    differences the specification describes: [toCSS] takes one colour or a
    list of colours, and the curve is chosen by an accent name with
    aliases. *)

Module PaletteVariant.

Import Zod.

Definition asResult : jsval -> ResponseEnvelope := Rampensau.asResult.

(** real RampenSau accents + user-friendly aliases *)
Definition ACCENT_ALIASES : list (string * string) :=
  [ (lame, lame); ("lame", lame);
    ("arc", "arc"); ("linear", "arc"); ("sine", "arc"); ("easeInOut", "arc");
    ("pow", "pow"); ("power", "pow");
    ("powx", "powX"); ("powX", "powX");
    ("powy", "powY"); ("powY", "powY") ]%list.

Definition CurveOpts : list (string * schema) :=
  [ ("curveAccent",
     enum (map fst ACCENT_ALIASES)
     |> describe "Curve accent (aliases allowed)" |> optional) ]%list.

Definition generate_parameters : list (string * schema) :=
  (Rampensau.RampBase ++ CurveOpts ++ Rampensau.FormatOpt)%list.

Definition opts_of (parsed : jsval) : Obj.t :=
  match parsed with
  | JObj fields => Obj.remove "curveAccent" (Obj.remove "format" fields)
  | _ => []
  end.

(** [ACCENT_ALIASES[curveAccent]], for the own keys of the table. *)
Definition alias_of (curveAccent : jsval) : jsval :=
  match Rampensau.own (ToString curveAccent) ACCENT_ALIASES with
  | Some canonical => JStr canonical
  | None => JUndefined
  end.

Definition generate_execute (parameters : list (string * schema))
    (raw : jsval) : prog ResponseEnvelope :=
  parsed <- zparse (z_object parameters) raw ;;
  let format := Rampensau.format_of parsed in
  let curveAccent := get parsed "curveAccent" in
  let opts := opts_of parsed in
  let accent := if truthy curveAccent then alias_of curveAccent else JUndefined in
  ramp <- (if truthy accent
           then ask (generateColorRampWithCurve
                       (JObj (Obj.set "curveAccent" accent opts)))
           else ask (generateColorRamp (JObj opts))) ;;
  out <- (if is_string "array" format
          then Ret ramp
          else Array_map
                 (fun c =>
                    ask (colorToCSS c
                           (JStr (if is_string "css-hsl" format
                                  then "hsl" else "oklch"))))
                 ramp) ;;
  Ret (asResult out).

(** colour schema (single or list) *)
Definition Color3 : schema := z_array z_number |> length 3.
Definition Palette : schema := union [Color3; z_array Color3].

Definition mode_aliases : list (string * string) :=
  [ ("css", "hsl"); ("css-hsl", "hsl"); ("css-hsv", "hsv");
    ("css-lch", "lch"); ("css-oklch", "oklch") ]%list.

Definition toCSS_parameters : list (string * schema) :=
  [ ("color", Palette |> describe "[h,s,l] or palette");
    ("mode",
     enum [ "hsl"; "hsv"; "lch"; "oklch";
            "css"; "css-hsl"; "css-hsv"; "css-lch"; "css-oklch" ]
     |> default (JStr "oklch")
     |> transform
          (map_string
             (fun m => match Rampensau.own m mode_aliases with
                       | Some space => space
                       | None => m
                       end))
     |> describe "Output space (aliases ok)") ]%list.

(** [Array.isArray(color[0]) ? color.map(toCss) : toCss(color)] *)
Definition toCSS_execute (raw : jsval) : prog ResponseEnvelope :=
  destructure raw
    (let color := get raw "color" in
     let mode := get raw "mode" in
     let toCss := fun c => ask (colorToCSS c mode) in
     match index0 color with
     | None => Throw TypeError
     | Some first =>
         res <- (if isArray first then Array_map toCss color else toCss color) ;;
         Ret (asResult res)
     end).

Definition generate : Tool :=
  {| name := "generate";
     description := "Create a colour ramp / palette.";
     parameters := generate_parameters;
     examples :=
       [ JObj [("total", JNum 5); ("hStart", JNum 210);
               ("sRange", JArr [JNum 60; JNum 100]);
               ("lRange", JArr [JNum 40; JNum 80]);
               ("curveAccent", JStr "easeInOut"); ("format", JStr "css")];
         JObj [("hueList", JArr [JNum 120; JNum 160; JNum 200]);
               ("format", JStr "array")] ]%list;
     execute := generate_execute generate_parameters |}.

Definition toCSS : Tool :=
  {| name := "toCSS";
     description := "Convert colour(s) to CSS.";
     parameters := toCSS_parameters;
     examples := [];
     execute := toCSS_execute |}.

End PaletteVariant.

(** * The dispatcher *)

Fixpoint find_tool (toolName : string) (tools : list Tool) : option Tool :=
  match tools with
  | [] => None
  | t :: rest => if name t =? toolName then Some t else find_tool toolName rest
  end.

(** Modelled from the spec: the host that receives a tool name and raw
    arguments ([generic-spec-server.js], which the entry script imports, is
    not among the sources).  As the specification's dispatch contract has
    it: look the tool up by name, failing with [ToolNotFound]; validate the
    raw arguments against the descriptor's parameters and apply their
    transforms; invoke the handler on the canonical arguments, whose
    result is already wrapped in the envelope.  Validation is the source's
    own [z.object(parameters).parse]. *)
Definition dispatch (tools : list Tool) (toolName : string) (rawArgs : jsval)
    : prog ResponseEnvelope :=
  match find_tool toolName tools with
  | None => Throw (ToolNotFound toolName)
  | Some t =>
      args <- zparse (Zod.z_object (parameters t)) rawArgs ;;
      execute t args
  end.

(** * A double for the engine

    The proofs below hold for every engine; where a statement is tried on
    a concrete input, this one answers. *)

Definition echo_engine : engine :=
  fun c =>
    match c with
    | generateColorRamp _ | generateColorRampWithCurve _ =>
        JArr [JArr [JNum 200; JNum 0.5; JNum 0.5]; JArr [JNum 240; JNum 0.5; JNum 0.25]]
    | colorToCSS color mode => JStr (ToString mode ++ "(" ++ ToString color ++ ")")
    | pointOnCurve (a :: b :: _) => JFun ("curve " ++ ToString a ++ " " ++ ToString b)
    | pointOnCurve _ => JFun "curve"
    | apply f args => JArr (f :: args)
    | harveyHue h => h
    | colorHarmonies method => JFun (ToString method)
    | uniqueRandomHues _ => JArr []
    | shuffleArray args | lerp args | scaleSpreadArray args => JArr args
    | makeCurveEasings _ => JObj [("sEasing", JFun "sEasing"); ("lEasing", JFun "lEasing")]
    end.

(** * The vocabulary of the statements *)

(** ** Validation *)

(** The issue [norm01]'s refinement raises. *)
Definition out_of_range : Zod.issue :=
  {| Zod.code := Zod.custom; Zod.path := [];
     Zod.message := Some "must be between 0 and 100" |}.

(** The fields an object schema reads of its input. *)
Definition read_fields (shape : list (string * Zod.schema)) (p : list Zod.key)
    (fields : Obj.t) : list (string * bool * Zod.outcome) :=
  map (fun ks =>
         (fst ks, Obj.has (fst ks) fields,
          Zod._parse (snd ks) (p ++ [Zod.Field (fst ks)])%list (get (JObj fields) (fst ks))))
      shape.

(** The properties [mergeObject] sets. *)
Definition set_fields (pairs : list (string * bool * Zod.outcome)) : Obj.t :=
  flat_map (fun '(k, alwaysSet, r) =>
              if negb (is_undefined (Zod.value r)) || alwaysSet
              then [(k, Zod.value r)]%list else []%list) pairs.


(** ** Programs *)

(** Every value the program can return satisfies [P], whatever the engine
    answers. *)
Inductive returns_only {A : Type} (P : A -> Prop) : prog A -> Prop :=
| ro_ret (a : A) : P a -> returns_only P (Ret a)
| ro_throw (e : error) : returns_only P (Throw e)
| ro_call (c : call) (k : jsval -> prog A) :
    (forall answer, returns_only P (k answer)) -> returns_only P (Call c k).

(** The shape [asResult] gives a response around the payload [data]. *)
Definition wraps (data : jsval) (env : ResponseEnvelope) : Prop :=
  exists item : ContentItem,
    content env = [item] /\
    type item = "text" /\
    text item = match data with
                | JStr s => JStr s
                | _ => JSON.stringify data 2
                end.

Definition wrapped (env : ResponseEnvelope) : Prop :=
  exists data, env = Rampensau.asResult data /\ wraps data env.

(** ** The tools' arguments *)

Definition utils_arguments (fn : string) (args : list jsval) : jsval :=
  JObj [("fn", JStr fn); ("args", JArr args)].

(** The engine's [pointOnCurve] declares two parameters; arguments passed
    beyond them are not read. *)
Definition reads_two_arguments (eng : engine) : Prop :=
  forall (a b : jsval) (rest : list jsval),
    eng (pointOnCurve (a :: b :: rest)) = eng (pointOnCurve [a; b]).

(** A tuple of three numbers. *)
Definition is_color3 (c : jsval) : bool :=
  match c with
  | JArr [JNum _; JNum _; JNum _] => true
  | _ => false
  end.

Definition toCSS_arguments (color mode : jsval) : jsval :=
  JObj [("color", color); ("mode", mode)].

(** The specification's reading of a [toCSS] handler: one tuple gives the
    engine's conversion of it, and a sequence of tuples gives the sequence
    of their conversions. *)
Definition mirrors_input (exec : jsval -> prog ResponseEnvelope) : Prop :=
  (forall (color mode : jsval) (eng : engine),
     is_color3 color = true ->
     run eng (exec (toCSS_arguments color mode)) =
     Returned (Rampensau.asResult (eng (colorToCSS color mode)))) /\
  (forall (tuples : list jsval) (mode : jsval) (eng : engine),
     forallb is_color3 tuples = true ->
     run eng (exec (toCSS_arguments (JArr tuples) mode)) =
     Returned (Rampensau.asResult (JArr (map (fun c => eng (colorToCSS c mode)) tuples)))).

(** ** Tactics *)

(** The keys of a parameter shape are distinct. *)
Ltac distinct_keys :=
  cbn; repeat (constructor; [cbn; intuition discriminate |]); constructor.

(** ** Canonical arguments *)

(** A number of the closed interval from [lo] to [hi]. *)
Definition between (lo hi : float) (v : jsval) : bool :=
  on_number (fun x => (lo <=? x)%float && (x <=? hi)%float) v.

(** A number other than NaN: what [z.number()] accepts. *)
Definition is_number (v : jsval) : bool :=
  on_number (fun x => negb (Number.isNaN x)) v.

(** Three numbers: what [z.array(z.number()).length(3)] accepts. *)
Definition is_colour (v : jsval) : bool :=
  match v with
  | JArr [h; s; l] => is_number h && is_number s && is_number l
  | _ => false
  end.

(** A value that is neither an object nor a function: it has no method
    [map], its own or inherited. *)
Definition primitive (v : jsval) : bool :=
  match v with
  | JArr _ | JObj _ | JFun _ => false
  | _ => true
  end.

(** [typeof v === 'function']: a value that can be called. *)
Definition is_function (v : jsval) : bool :=
  match v with
  | JFun _ => true
  | _ => false
  end.

(** The four colour spaces [colorToCSS] knows. *)
Definition colour_spaces : list jsval :=
  [JStr "hsl"; JStr "hsv"; JStr "lch"; JStr "oklch"].

(** The accents of the engine, to which [ACCENT_ALIASES] resolves. *)
Definition accents : list jsval :=
  [JStr lame; JStr "arc"; JStr "pow"; JStr "powX"; JStr "powY"].

(** ** The handlers' engine calls *)

(** The generator [generate] calls:
    [curveMethod ? generateColorRampWithCurve({ ...opts, curveMethod })
                 : generateColorRamp(opts)]. *)
Definition ramp_call (parsed : jsval) : call :=
  let curveMethod := get parsed "curveMethod" in
  let opts := Rampensau.opts_of parsed in
  if truthy curveMethod
  then generateColorRampWithCurve (JObj (Obj.set "curveMethod" curveMethod opts))
  else generateColorRamp (JObj opts).

(** The options a generator call carries. *)
Definition options (c : call) : jsval :=
  match c with
  | generateColorRamp opts | generateColorRampWithCurve opts => opts
  | _ => JUndefined
  end.

(** ** Schemas *)

(** A schema that returns what it accepts. *)
Definition passes_through (s : Zod.schema) : Prop :=
  forall (p : list Zod.key) (d : jsval),
    Zod.st (Zod._parse s p d) = Zod.valid -> Zod.value (Zod._parse s p d) = d.

(** A schema that accepts what it returns, and returns it again. *)
Definition stable (s : Zod.schema) : Prop :=
  forall (p : list Zod.key) (d : jsval),
    Zod.st (Zod._parse s p d) = Zod.valid ->
    Zod.st (Zod._parse s p (Zod.value (Zod._parse s p d))) = Zod.valid /\
    Zod.value (Zod._parse s p (Zod.value (Zod._parse s p d))) =
    Zod.value (Zod._parse s p d).

(** The elements of an array, each parsed at its index. *)
Definition elements (element : Zod.schema) (p : list Zod.key) (start : nat)
    (items : list jsval) : list Zod.outcome :=
  map (fun '(i, item) => Zod._parse element (p ++ [Zod.Index i])%list item)
      (combine (seq start (List.length items)) items).

(** The issues an array's own length raises. *)
Definition length_issues (exactLength : option nat) (p : list Zod.key)
    (items : list jsval) : list Zod.issue :=
  match exactLength with
  | None => []
  | Some n =>
      if Nat.ltb n (List.length items) then [Zod.fail Zod.too_big p]
      else if Nat.ltb (List.length items) n then [Zod.fail Zod.too_small p]
      else []
  end.

(** A schema that never returns [undefined]. *)
Definition defined (s : Zod.schema) : Prop :=
  forall (p : list Zod.key) (d : jsval),
    Zod.st (Zod._parse s p d) = Zod.valid ->
    Zod.value (Zod._parse s p d) <> JUndefined.

(** * Facts about binary64 comparison and division *)

Module FloatFacts.

Local Open Scope Z_scope.

Lemma digits2_pos_bounds (p : positive) :
  2 ^ (Z.pos (digits2_pos p) - 1) <= Z.pos p < 2 ^ Z.pos (digits2_pos p).
Proof.
  induction p as [p IH | p IH |]; cbn [digits2_pos].
  - rewrite Pos2Z.inj_succ.
    replace (Z.succ (Z.pos (digits2_pos p)) - 1) with (Z.succ (Z.pos (digits2_pos p) - 1)) by lia.
    rewrite !Z.pow_succ_r by lia. lia.
  - rewrite Pos2Z.inj_succ.
    replace (Z.succ (Z.pos (digits2_pos p)) - 1) with (Z.succ (Z.pos (digits2_pos p) - 1)) by lia.
    rewrite !Z.pow_succ_r by lia. lia.
  - cbn. lia.
Qed.

Lemma digits2_pos_unique (p : positive) (k : Z) :
  2 ^ (k - 1) <= Z.pos p < 2 ^ k -> Z.pos (digits2_pos p) = k.
Proof.
  intros [Hlo Hhi].
  pose proof (digits2_pos_bounds p) as [Dlo Dhi].
  set (d := Z.pos (digits2_pos p)) in *.
  assert (0 < k).
  { destruct (Z_lt_le_dec 0 k) as [|Hk]; [assumption|].
    exfalso. destruct (Z.eq_dec k 0) as [->|]; [cbn in Hhi; lia|].
    rewrite Z.pow_neg_r in Hhi by lia. lia. }
  destruct (Z.lt_trichotomy d k) as [Hlt | [Heq | Hgt]]; [exfalso | assumption | exfalso].
  - assert (2 ^ d <= 2 ^ (k - 1)) by (apply Z.pow_le_mono_r; lia). lia.
  - assert (2 ^ k <= 2 ^ (d - 1)) by (apply Z.pow_le_mono_r; lia). lia.
Qed.

Lemma fexp64 (x : Z) : fexp 53 1024 x = Z.max (x - 53) (-1074).
Proof. reflexivity. Qed.

Lemma shr_fexp_53 (p : positive) (ex : Z) (l : location) :
  Z.pos (digits2_pos p) = 53 -> -1074 <= ex ->
  shr_fexp 53 1024 (Z.pos p) ex l = (shr_record_of_loc (Z.pos p) l, ex).
Proof.
  intros Hd Hex. unfold shr_fexp. cbn [Zdigits2]. rewrite Hd, fexp64.
  replace (Z.max (53 + ex - 53) (-1074) - ex) with 0 by lia. reflexivity.
Qed.

Lemma shr_fexp_54 (p : positive) (ex : Z) (l : location) :
  Z.pos (digits2_pos p) = 54 -> -1075 <= ex ->
  shr_fexp 53 1024 (Z.pos p) ex l = (shr_1 (shr_record_of_loc (Z.pos p) l), ex + 1).
Proof.
  intros Hd Hex. unfold shr_fexp. cbn [Zdigits2]. rewrite Hd, fexp64.
  replace (Z.max (54 + ex - 53) (-1074) - ex) with 1 by lia. reflexivity.
Qed.

Lemma round_nearest_even_range (mx : Z) (l : location) :
  round_nearest_even mx l = mx \/ (round_nearest_even mx l = mx + 1 /\ l <> loc_Exact).
Proof.
  destruct l as [|[]]; cbn; auto.
  - destruct (Z.even mx); [auto | right; split; [reflexivity | discriminate]].
  - right; split; [reflexivity | discriminate].
Qed.

Lemma shr_1_m (p : positive) (l : location) :
  shr_m (shr_1 (shr_record_of_loc (Z.pos p) l)) = Z.pos p / 2.
Proof.
  assert (forall r s, shr_m (shr_1 {| shr_m := Z.pos p; shr_r := r; shr_s := s |}) = Z.pos p / 2) as H.
  { intros r s. destruct p as [p | p |]; cbn [shr_1 shr_m].
    - rewrite Pos2Z.inj_xI. apply Z.div_unique with (r := 1); lia.
    - rewrite Pos2Z.inj_xO. apply Z.div_unique with (r := 0); lia.
    - reflexivity. }
  destruct l as [|[]]; apply H.
Qed.

Lemma shr_1_exact_even (p : positive) :
  Z.even (Z.pos p) = true ->
  loc_of_shr_record (shr_1 (shr_record_of_loc (Z.pos p) loc_Exact)) = loc_Exact.
Proof. destruct p; cbn; congruence. Qed.

(** The rounding step of a positive quotient of 53 or 54 bits. *)
Lemma binary_round_aux_53 (p : positive) (ex : Z) (l : location) :
  2 ^ 52 <= Z.pos p < 2 ^ 53 -> -1074 <= ex <= 960 ->
  exists m' e', binary_round_aux 53 1024 false (Z.pos p) ex l = S754_finite false m' e' /\
    ((e' = ex /\ Z.pos m' < 2 ^ 53) \/ (e' = ex + 1 /\ Z.pos m' = 2 ^ 52)).
Proof.
  intros Hp Hex. unfold binary_round_aux.
  rewrite shr_fexp_53 by (try apply digits2_pos_unique; lia).
  assert (shr_m (shr_record_of_loc (Z.pos p) l) = Z.pos p) as -> by (destruct l as [|[]]; reflexivity).
  assert (loc_of_shr_record (shr_record_of_loc (Z.pos p) l) = l) as -> by (destruct l as [|[]]; reflexivity).
  destruct (round_nearest_even_range (Z.pos p) l) as [-> | [-> _]].
  - rewrite shr_fexp_53 by (try apply digits2_pos_unique; lia). cbn [shr_record_of_loc shr_m].
    replace (ex <=? 1024 - 53) with true by (symmetry; apply Z.leb_le; lia).
    exists p, ex. split; [reflexivity | left; lia].
  - destruct (Z.eq_dec (Z.pos p + 1) (2 ^ 53)) as [E | NE].
    + rewrite E. change (2 ^ 53) with (Z.pos 9007199254740992).
      rewrite shr_fexp_54 by (try reflexivity; lia). cbn [shr_record_of_loc shr_1 shr_m].
      replace (ex + 1 <=? 1024 - 53) with true by (symmetry; apply Z.leb_le; lia).
      eexists _, _. split; [reflexivity | right; split; reflexivity].
    + replace (Z.pos p + 1) with (Z.pos (p + 1)) by lia.
      rewrite shr_fexp_53 by (try apply digits2_pos_unique; lia). cbn [shr_record_of_loc shr_m].
      replace (ex <=? 1024 - 53) with true by (symmetry; apply Z.leb_le; lia).
      exists (p + 1)%positive, ex. split; [reflexivity | left; lia].
Qed.

Lemma binary_round_aux_54 (p : positive) (ex : Z) (l : location) :
  2 ^ 53 <= Z.pos p < 2 ^ 53 + 2 ^ 52 -> -1075 <= ex <= 960 ->
  exists m' e', binary_round_aux 53 1024 false (Z.pos p) ex l = S754_finite false m' e' /\
    e' = ex + 1 /\ Z.pos m' < 2 ^ 53 /\
    (Z.even (Z.pos p) = true -> l = loc_Exact -> Z.pos m' = Z.pos p / 2).
Proof.
  intros Hp Hex. unfold binary_round_aux.
  rewrite shr_fexp_54 by (try apply digits2_pos_unique; lia).
  rewrite shr_1_m.
  assert (2 ^ 52 <= Z.pos p / 2 < 2 ^ 52 + 2 ^ 51) as Hh.
  { split; [apply Z.div_le_lower_bound; lia | apply Z.div_lt_upper_bound; lia]. }
  set (l' := loc_of_shr_record _).
  assert (Z.even (Z.pos p) = true -> l = loc_Exact -> l' = loc_Exact) as Hl'.
  { intros Hev ->. apply shr_1_exact_even, Hev. }
  destruct (Z.pos p / 2) as [| h | h] eqn:Eh; try lia.
  assert (forall k : positive, Z.pos k < 2 ^ 53 -> 2 ^ 52 <= Z.pos k ->
     exists m' e', (let '(mrs'', e'') := shr_fexp 53 1024 (Z.pos k) (ex + 1) loc_Exact in
        match shr_m mrs'' with
        | 0 => S754_zero false
        | Z.pos m => if e'' <=? 1024 - 53 then S754_finite false m e'' else S754_infinity false
        | Z.neg _ => S754_nan
        end) = S754_finite false m' e' /\ e' = ex + 1 /\ Z.pos m' = Z.pos k) as Fin.
  { intros k Hk1 Hk2. rewrite shr_fexp_53 by (try apply digits2_pos_unique; lia).
    cbn [shr_record_of_loc shr_m].
    replace (ex + 1 <=? 1024 - 53) with true by (symmetry; apply Z.leb_le; lia).
    exists k, (ex + 1). auto. }
  destruct (round_nearest_even_range (Z.pos h) l') as [-> | [-> Hne]].
  - destruct (Fin h) as (m' & e' & -> & He' & Hm'); try lia.
    exists m', e'. repeat split; try lia.
  - replace (Z.pos h + 1) with (Z.pos (h + 1)) by lia.
    destruct (Fin (h + 1)%positive) as (m' & e' & -> & He' & Hm'); try lia.
    exists m', e'. repeat split; try lia.
    intros Hev Hl. elim Hne. auto.
Qed.

Lemma SFcompare_antisym (x y : spec_float) :
  SFcompare y x = option_map CompOpp (SFcompare x y).
Proof.
  destruct x as [sx | sx | | sx mx ex], y as [sy | sy | | sy my ey];
    try destruct sx; try destruct sy; try reflexivity; cbn [SFcompare option_map];
    rewrite (Z.compare_antisym ex ey);
    pose proof (Pos.compare_cont_antisym mx my Eq) as H; cbn [CompOpp] in H;
    rewrite <- H; destruct (ex ?= ey); cbn [CompOpp];
    rewrite ?CompOpp_involutive; reflexivity.
Qed.

Lemma SFcompare_refl (x : spec_float) :
  x <> S754_nan -> SFcompare x x = Some Eq.
Proof.
  destruct x as [s | s | | s m e]; try destruct s; intros H; try reflexivity; try congruence;
    cbn [SFcompare]; rewrite Z.compare_refl;
    change (Pos.compare_cont Eq m m) with (Pos.compare m m); rewrite Pos.compare_refl; reflexivity.
Qed.

Lemma SFcompare_nan (x y : spec_float) :
  SFcompare x y = None <-> x = S754_nan \/ y = S754_nan.
Proof.
  destruct x as [sx | sx | | sx mx ex], y as [sy | sy | | sy my ey]; cbn [SFcompare];
    split; intros H; try discriminate; auto; try (destruct H; discriminate).
Qed.

Lemma SFleb_finite_pos (m1 m2 : positive) (e1 e2 : Z) :
  SFleb (S754_finite false m1 e1) (S754_finite false m2 e2) = true <->
  e1 < e2 \/ (e1 = e2 /\ Z.pos m1 <= Z.pos m2).
Proof.
  unfold SFleb, SFcompare. change (Pos.compare_cont Eq m1 m2) with (Pos.compare m1 m2).
  destruct (Z.compare_spec e1 e2) as [E | L | G];
    [destruct (Pos.compare_spec m1 m2) as [E' | L' | G'] | |];
    (split; [intros H; try discriminate; lia | intros H; try reflexivity; lia]).
Qed.

Lemma SFltb_finite_pos (m1 m2 : positive) (e1 e2 : Z) :
  SFltb (S754_finite false m1 e1) (S754_finite false m2 e2) = true <->
  e1 < e2 \/ (e1 = e2 /\ Z.pos m1 < Z.pos m2).
Proof.
  unfold SFltb, SFcompare. change (Pos.compare_cont Eq m1 m2) with (Pos.compare m1 m2).
  destruct (Z.compare_spec e1 e2) as [E | L | G];
    [destruct (Pos.compare_spec m1 m2) as [E' | L' | G'] | |];
    (split; [intros H; try discriminate; lia | intros H; try reflexivity; lia]).
Qed.

Lemma div_eucl_div_mod (a b : Z) : Z.div_eucl a b = (a / b, a mod b).
Proof. unfold Z.div, Z.modulo. destruct (Z.div_eucl a b); reflexivity. Qed.

Lemma SFdiv_core_100 (m : positive) (e : Z) :
  Z.pos (digits2_pos m) = 53 -> -52 <= e <= -46 ->
  SFdiv_core_binary 53 1024 (Z.pos m) e (Z.pos Number.m_hundred) (-46) =
  (Z.pos m * 2 ^ 53 / Z.pos Number.m_hundred, e - 7,
   new_location (Z.pos Number.m_hundred) ((Z.pos m * 2 ^ 53) mod Z.pos Number.m_hundred)).
Proof.
  intros Hd He. unfold SFdiv_core_binary. cbn [Zdigits2]. rewrite Hd.
  replace (Z.pos (digits2_pos Number.m_hundred)) with 53 by reflexivity.
  rewrite fexp64.
  replace (Z.min (Z.max (53 + e - (53 + -46) - 53) (-1074)) (e - -46)) with (e - 7) by lia.
  replace (e - -46 - (e - 7)) with 53 by lia.
  rewrite Z.shiftl_mul_pow2 by lia.
  rewrite div_eucl_div_mod. reflexivity.
Qed.

Lemma SF64div_hundred (m : positive) (e : Z) :
  bounded 53 1024 m e = true ->
  SFltb (S754_finite false Number.m_one (-52)) (S754_finite false m e) = true ->
  SFleb (S754_finite false m e) (S754_finite false Number.m_hundred (-46)) = true ->
  exists m' e',
    SF64div (S754_finite false m e) (S754_finite false Number.m_hundred (-46)) = S754_finite false m' e' /\
    SFleb (S754_finite false m' e') (S754_finite false Number.m_one (-52)) = true.
Proof.
  intros Hb Hlt Hle.
  apply SFltb_finite_pos in Hlt. apply SFleb_finite_pos in Hle.
  unfold bounded, canonical_mantissa in Hb. apply andb_true_iff in Hb as [Hc _].
  apply Z.eqb_eq in Hc. rewrite fexp64 in Hc.
  assert (-52 <= e <= -46) as He by lia.
  assert (Z.pos (digits2_pos m) = 53) as Hd by lia.
  pose proof (digits2_pos_bounds m) as Hm. rewrite Hd in Hm.
  change (2 ^ (53 - 1)) with 4503599627370496 in Hm.
  change (2 ^ 53) with 9007199254740992 in Hm.
  unfold SF64div, SFdiv. change prec with 53. change emax with 1024. rewrite SFdiv_core_100 by assumption.
  cbn [xorb].
  set (q := Z.pos m * 2 ^ 53 / Z.pos Number.m_hundred).
  set (r := (Z.pos m * 2 ^ 53) mod Z.pos Number.m_hundred).
  pose proof (Z.div_mod (Z.pos m * 2 ^ 53) (Z.pos Number.m_hundred) ltac:(discriminate)) as Hqr.
  pose proof (Z.mod_pos_bound (Z.pos m * 2 ^ 53) (Z.pos Number.m_hundred) ltac:(reflexivity)) as Hr.
  fold q r in Hqr, Hr.
  change (2 ^ 53) with 9007199254740992 in Hqr.
  unfold Number.m_hundred in Hqr, Hr. unfold Number.m_one, Number.m_hundred in Hlt, Hle.
  assert (4503599627370496 <= q < 9007199254740992 + 4503599627370496) as Hq by lia.
  destruct q as [| p | p] eqn:Eq; try lia.
  destruct (Z_lt_le_dec (Z.pos p) 9007199254740992) as [Hsmall | Hbig].
  - destruct (binary_round_aux_53 p (e - 7) (new_location (Z.pos Number.m_hundred) r))
      as (m' & e' & -> & Hres).
    + change (2 ^ 52) with 4503599627370496. change (2 ^ 53) with 9007199254740992. lia.
    + lia.
    + exists m', e'. split; [reflexivity |]. apply SFleb_finite_pos.
      change (2 ^ 52) with 4503599627370496 in Hres. unfold Number.m_one. lia.
  - destruct (binary_round_aux_54 p (e - 7) (new_location (Z.pos Number.m_hundred) r))
      as (m' & e' & -> & He' & Hm' & Hexact).
    + change (2 ^ 52) with 4503599627370496. change (2 ^ 53) with 9007199254740992. lia.
    + lia.
    + exists m', e'. split; [reflexivity |]. apply SFleb_finite_pos. unfold Number.m_one.
      destruct (Z.eq_dec e (-46)) as [E46 | NE46]; [right | left; lia].
      split; [lia |].
      assert (Z.pos p = 9007199254740992 /\ r = 0) as [Hp0 Hr0] by lia.
      rewrite Hexact.
      * rewrite Hp0. reflexivity.
      * rewrite Hp0. reflexivity.
      * rewrite Hr0. reflexivity.
Qed.

Local Open Scope float_scope.

Lemma is_nan_Prim2SF (x : float) : is_nan x = true <-> Prim2SF x = S754_nan.
Proof.
  unfold is_nan. rewrite eqb_spec. unfold SFeqb. split.
  - intros H. destruct (Prim2SF x) eqn:E; try reflexivity;
      rewrite SFcompare_refl in H by discriminate; discriminate.
  - intros ->. reflexivity.
Qed.

Lemma leb_not_nan (a b : float) : (a <=? b) = true -> is_nan a = false /\ is_nan b = false.
Proof.
  rewrite leb_spec. unfold SFleb. intros H.
  split; apply not_true_is_false; rewrite is_nan_Prim2SF; intros E; rewrite E in H;
    [| destruct (Prim2SF a)]; discriminate.
Qed.

Lemma ltb_not_nan (a b : float) : (a <? b) = true -> is_nan a = false /\ is_nan b = false.
Proof.
  rewrite ltb_spec. unfold SFltb. intros H.
  split; apply not_true_is_false; rewrite is_nan_Prim2SF; intros E; rewrite E in H;
    [| destruct (Prim2SF a)]; discriminate.
Qed.

Lemma ltb_leb_antisym (a b : float) : (a <? b) = true -> (b <=? a) = false.
Proof.
  rewrite ltb_spec, leb_spec. unfold SFltb, SFleb.
  rewrite (SFcompare_antisym (Prim2SF a) (Prim2SF b)).
  destruct (SFcompare (Prim2SF a) (Prim2SF b)) as [[]|]; cbn; congruence.
Qed.

Lemma leb_ltb_antisym (a b : float) : (a <=? b) = true -> (b <? a) = false.
Proof.
  rewrite ltb_spec, leb_spec. unfold SFltb, SFleb.
  rewrite (SFcompare_antisym (Prim2SF a) (Prim2SF b)).
  destruct (SFcompare (Prim2SF a) (Prim2SF b)) as [[]|]; cbn; congruence.
Qed.

Lemma not_ltb_leb (a b : float) :
  is_nan a = false -> is_nan b = false -> (a <? b) = false -> (b <=? a) = true.
Proof.
  intros Ha Hb. rewrite ltb_spec, leb_spec. unfold SFltb, SFleb.
  rewrite (SFcompare_antisym (Prim2SF a) (Prim2SF b)).
  destruct (SFcompare (Prim2SF a) (Prim2SF b)) as [[]|] eqn:E; cbn; try congruence.
  apply SFcompare_nan in E. rewrite <- !is_nan_Prim2SF in E. destruct E; congruence.
Qed.

Lemma Prim2SF_one : Prim2SF 1 = S754_finite false Number.m_one (-52).
Proof. reflexivity. Qed.

Lemma Prim2SF_hundred : Prim2SF 100 = S754_finite false Number.m_hundred (-46).
Proof. reflexivity. Qed.

(** A binary64 value in (1, 100] divided by 100 lands in [0, 1]. *)
Lemma div_hundred_bounds (v : float) :
  (1 <? v) = true -> (v <=? 100) = true ->
  (0 <=? v / 100) = true /\ (v / 100 <=? 1) = true.
Proof.
  intros Hlt Hle.
  rewrite ltb_spec, Prim2SF_one in Hlt. rewrite leb_spec, Prim2SF_hundred in Hle.
  pose proof (Prim2SF_valid v) as Hv.
  rewrite !leb_spec, div_spec, Prim2SF_one, Prim2SF_hundred.
  destruct (Prim2SF v) as [s | s | | s m e]; try destruct s; try discriminate.
  destruct (SF64div_hundred m e Hv Hlt Hle) as (m' & e' & -> & Hres).
  split; [reflexivity | exact Hres].
Qed.

End FloatFacts.

(** * The printers on examples *)

Example toString_fraction : Number.toString 0.5 = "0.5".
Proof. reflexivity. Qed.

Example toString_integer : Number.toString 360 = "360".
Proof. reflexivity. Qed.

Example toString_negative : Number.toString (-12.5) = "-12.5".
Proof. reflexivity. Qed.

Example toString_large : Number.toString 1e21 = "1e+21".
Proof. reflexivity. Qed.

Example toString_smallest : Number.toString 0x1p-1074 = "5e-324".
Proof. vm_compute. reflexivity. Qed.

Example toString_tenth : Number.toString 0x1.999999999999ap-4 = "0.1".
Proof. vm_compute. reflexivity. Qed.

Example stringify_indents_by_two :
  JSON.stringify (JArr [JArr [JNum 200; JNum 0.5]; JNull; JObj [("x", JBool true)]]) 2 =
  JStr (concat JSON.newline
          [ "[";
            "  [";
            "    200,";
            "    0.5";
            "  ],";
            "  null,";
            "  {";
            ("    " ++ JSON.QuoteJSONString "x" ++ ": true")%string;
            "  }";
            "]" ]%list).
Proof. reflexivity. Qed.

Example stringify_function_is_undefined : JSON.stringify (JFun "f") 2 = JUndefined.
Proof. reflexivity. Qed.

(** * The value normalizer *)

Lemma parse_norm01 (v : float) :
  Zod.parse Rampensau.norm01 (JNum v) =
  if Number.isNaN v then Zod.Err [Zod.fail Zod.invalid_type []]
  else if ((0 <=? v) && (v <=? 100))%float
       then Zod.Ok (JNum (if (1 <? v)%float then (v / 100)%float else v))
       else Zod.Err [out_of_range].
Proof.
  unfold Zod.parse, Rampensau.norm01, Zod.transform, Zod.refine, Zod.z_number.
  cbn [Zod._parse].
  destruct (Number.isNaN v); [reflexivity |].
  cbn [Zod.flagged flat_map Zod.st Zod.value Zod.issues on_number].
  destruct ((0 <=? v) && (v <=? 100))%float; reflexivity.
Qed.

(** C4.  [norm01] accepts every number of [0, 100] and returns a value of
    [0, 1]: the number itself when it is at most 1, its hundredth when it
    is above 1.  A number below 0 or above 100 is refused with the
    refinement's issue, and no value is returned. *)
Theorem norm01_normalizes (v : float) :
  ((0 <=? v)%float = true -> (v <=? 100)%float = true ->
   exists r : float,
     Zod.parse Rampensau.norm01 (JNum v) = Zod.Ok (JNum r) /\
     (0 <=? r)%float = true /\ (r <=? 1)%float = true /\
     ((v <=? 1)%float = true -> r = v) /\
     ((1 <? v)%float = true -> r = (v / 100)%float)) /\
  ((v <? 0)%float = true \/ (100 <? v)%float = true ->
   Zod.parse Rampensau.norm01 (JNum v) = Zod.Err [out_of_range]).
Proof.
  rewrite parse_norm01. split.
  - intros H0 H100.
    destruct (FloatFacts.leb_not_nan _ _ H0) as [_ Hnan].
    unfold Number.isNaN. rewrite Hnan, H0, H100. cbn [andb].
    destruct (1 <? v)%float eqn:H1.
    + destruct (FloatFacts.div_hundred_bounds v H1 H100) as [Hlo Hhi].
      exists (v / 100)%float. repeat split; try assumption.
      intros Hle. rewrite (FloatFacts.leb_ltb_antisym _ _ Hle) in H1. discriminate.
    + exists v. repeat split; try assumption; try discriminate.
      apply FloatFacts.not_ltb_leb; [reflexivity | assumption | assumption].
  - intros [Hneg | Hbig].
    + destruct (FloatFacts.ltb_not_nan _ _ Hneg) as [Hnan _].
      unfold Number.isNaN. rewrite Hnan, (FloatFacts.ltb_leb_antisym _ _ Hneg). reflexivity.
    + destruct (FloatFacts.ltb_not_nan _ _ Hbig) as [_ Hnan].
      unfold Number.isNaN. rewrite Hnan, (FloatFacts.ltb_leb_antisym _ _ Hbig), andb_false_r.
      reflexivity.
Qed.

(** The theorem at 50 (a percentage), 0.5 (a fraction), -1 and 101. *)
Lemma norm01_normalizes_witness :
  Zod.parse Rampensau.norm01 (JNum 50) = Zod.Ok (JNum 0.5) /\
  Zod.parse Rampensau.norm01 (JNum 0.5) = Zod.Ok (JNum 0.5) /\
  Zod.parse Rampensau.norm01 (JNum (-1)) = Zod.Err [out_of_range] /\
  Zod.parse Rampensau.norm01 (JNum 101) = Zod.Err [out_of_range].
Proof.
  split; [| split; [| split]].
  - destruct (proj1 (norm01_normalizes 50) eq_refl eq_refl) as (r & -> & _ & _ & _ & Hr).
    rewrite (Hr eq_refl). reflexivity.
  - destruct (proj1 (norm01_normalizes 0.5) eq_refl eq_refl) as (r & -> & _ & _ & Hr & _).
    rewrite (Hr eq_refl). reflexivity.
  - apply (proj2 (norm01_normalizes (-1))). left. reflexivity.
  - apply (proj2 (norm01_normalizes 101)). right. reflexivity.
Defined.

(** * Facts about object schemas *)

Module ZodFacts.

Import Zod.

Lemma parse_object (shape : list (string * schema)) (p : list key) (fields : Obj.t) :
  _parse (object shape) p (JObj fields) = mergeObject (read_fields shape p fields).
Proof. reflexivity. Qed.


Lemma fold_worst_valid (l : list status) (s0 : status) :
  fold_left worst l s0 = valid -> s0 = valid /\ Forall (fun s => s = valid) l.
Proof.
  revert s0. induction l as [| s l IH]; intros s0 H; cbn in H.
  - split; [assumption | constructor].
  - destruct (IH _ H) as [Hw Hl].
    destruct s0, s; try discriminate. split; [reflexivity | constructor; auto].
Qed.

Lemma mergeObject_valid (pairs : list (string * bool * outcome)) :
  st (mergeObject pairs) = valid ->
  Forall (fun x => st (snd x) = valid) pairs /\
  value (mergeObject pairs) = JObj (set_fields pairs).
Proof.
  unfold mergeObject.
  destruct (fold_left worst (map st (map snd pairs)) valid) eqn:E;
    cbn [st value INVALID]; try discriminate.
  intros _. split; [| reflexivity].
  apply fold_worst_valid in E as [_ E].
  rewrite map_map in E. rewrite Forall_map in E. exact E.
Qed.

Lemma lookup_set_fields_other (k : string) (pairs : list (string * bool * outcome)) :
  ~ In k (map (fun x => fst (fst x)) pairs) ->
  Obj.lookup k (set_fields pairs) = None.
Proof.
  induction pairs as [| [[k' a] r] rest IH]; intros H; [reflexivity |].
  cbn in H. cbn [set_fields flat_map]. fold (set_fields rest).
  assert (k' <> k) as Hne by tauto.
  assert (Obj.lookup k (set_fields rest) = None) as Hrest by (apply IH; tauto).
  destruct (negb (is_undefined (value r)) || a); cbn [app Obj.lookup]; [| exact Hrest].
  rewrite (proj2 (String.eqb_neq k' k) Hne). exact Hrest.
Qed.

(** A declared field of the parsed object holds its schema's value. *)
Lemma get_set_fields (k : string) (a : bool) (r : outcome)
    (pairs : list (string * bool * outcome)) :
  NoDup (map (fun x => fst (fst x)) pairs) -> In (k, a, r) pairs ->
  get (JObj (set_fields pairs)) k = value r.
Proof.
  unfold get.
  induction pairs as [| [[k' a'] r'] rest IH]; intros Hnd Hin; [contradiction |].
  cbn in Hnd. inversion Hnd as [| ? ? Hnotin Hnd']; subst.
  cbn [set_fields flat_map]. fold (set_fields rest).
  destruct Hin as [Heq | Hin].
  - injection Heq as -> -> ->.
    destruct (negb (is_undefined (value r)) || a) eqn:E; cbn [app Obj.lookup].
    + rewrite String.eqb_refl. reflexivity.
    + rewrite (lookup_set_fields_other k rest Hnotin).
      apply orb_false_iff in E as [E _]. destruct (value r); try discriminate. reflexivity.
  - assert (k' <> k) as Hne.
    { intros ->. apply Hnotin.
      apply in_map_iff. exists (k, a, r). split; [reflexivity | exact Hin]. }
    destruct (negb (is_undefined (value r')) || a'); cbn [app Obj.lookup];
      rewrite ?(proj2 (String.eqb_neq k' k) Hne); apply IH; assumption.
Qed.

(** When an object schema accepts, every declared field was accepted by
    its own schema, and the parsed object holds that schema's value. *)
Lemma parse_object_field (shape : list (string * schema)) (raw parsed : jsval)
    (k : string) (s : schema) :
  NoDup (map fst shape) -> In (k, s) shape ->
  parse (z_object shape) raw = Ok parsed ->
  st (_parse s [Field k] (get raw k)) = valid /\
  get parsed k = value (_parse s [Field k] (get raw k)).
Proof.
  intros Hnd Hin. unfold parse, z_object.
  destruct raw as [| | | | | | fields |]; try discriminate.
  rewrite parse_object.
  destruct (st (mergeObject (read_fields shape [] fields))) eqn:E; try discriminate.
  intros [= <-].
  apply mergeObject_valid in E as [Hall ->].
  set (r := _parse s [Field k] (get (JObj fields) k)).
  assert (In (k, Obj.has k fields, r) (read_fields shape [] fields)) as Hin'.
  { unfold read_fields. apply in_map_iff. exists (k, s). split; [reflexivity | assumption]. }
  split.
  - rewrite Forall_forall in Hall. apply (Hall _ Hin').
  - apply get_set_fields with (a := Obj.has k fields); [| assumption].
    unfold read_fields. rewrite map_map. cbn [fst]. exact Hnd.
Qed.

Lemma parsed_is_object (shape : list (string * schema)) (raw parsed : jsval) :
  parse (z_object shape) raw = Ok parsed ->
  exists fields out, raw = JObj fields /\ parsed = JObj out /\
    out = set_fields (read_fields shape [] fields).
Proof.
  unfold parse, z_object.
  destruct raw as [| | | | | | fields |]; try discriminate.
  rewrite parse_object.
  destruct (st (mergeObject (read_fields shape [] fields))) eqn:E; try discriminate.
  intros [= <-]. apply mergeObject_valid in E as [_ ->].
  exists fields, (set_fields (read_fields shape [] fields)). auto.
Qed.

End ZodFacts.

(** * Validation of the tools' arguments *)




(** C6, at the empty argument object: [total] receives its default, and
    [hCycles] does not (its [optional] wrapper answers [undefined] before
    the default is consulted). *)
Theorem generate_defaults_on_empty_arguments :
  Zod.parse (Zod.z_object (parameters Rampensau.generate)) (JObj []) =
  Zod.Ok (JObj [("total", JNum 10)]) /\
  get (JObj [("total", JNum 10)]) "total" = JNum 10 /\
  get (JObj [("total", JNum 10)]) "hCycles" = JUndefined.
Proof. repeat split. Qed.

Lemma NoDup_generate_parameters : NoDup (map fst (parameters Rampensau.generate)).
Proof. distinct_keys. Qed.

(** An omitted [total] is always filled in with 10. *)
Lemma generate_total_default (raw parsed : jsval) :
  get raw "total" = JUndefined ->
  Zod.parse (Zod.z_object (parameters Rampensau.generate)) raw = Zod.Ok parsed ->
  get parsed "total" = JNum 10.
Proof.
  intros Hraw Hp.
  destruct (ZodFacts.parse_object_field _ raw parsed "total" _
              NoDup_generate_parameters (or_introl eq_refl) Hp) as [_ ->].
  rewrite Hraw. reflexivity.
Qed.

(** An omitted [hCycles] is never filled in. *)
Lemma generate_hCycles_stays_undefined (raw parsed : jsval) :
  get raw "hCycles" = JUndefined ->
  Zod.parse (Zod.z_object (parameters Rampensau.generate)) raw = Zod.Ok parsed ->
  get parsed "hCycles" = JUndefined.
Proof.
  intros Hraw Hp.
  destruct (ZodFacts.parse_object_field _ raw parsed "hCycles" _
              NoDup_generate_parameters
              (or_intror (or_intror (or_intror (or_introl eq_refl)))) Hp) as [_ ->].
  rewrite Hraw. reflexivity.
Qed.

(** * [toCSS]: the mode and its aliases *)

Lemma NoDup_toCSS_parameters : NoDup (map fst (parameters Rampensau.toCSS)).
Proof. distinct_keys. Qed.

(** C10.  When the arguments have no [mode], the declared schema parses
    [mode] to [undefined], not to the default ["oklch"]: [optional] is the
    outermost wrapper and answers before the default and the transform are
    reached.  The handler then asks the engine for [colorToCSS(color,
    undefined)]. *)
Theorem toCSS_mode_omitted (raw parsed : jsval) :
  get raw "mode" = JUndefined ->
  Zod.parse (Zod.z_object (parameters Rampensau.toCSS)) raw = Zod.Ok parsed ->
  get parsed "mode" = JUndefined /\
  get parsed "mode" <> JStr "oklch" /\
  execute Rampensau.toCSS parsed =
    (css <- ask (colorToCSS (get parsed "color") JUndefined) ;;
     Ret (Rampensau.asResult css)).
Proof.
  intros Hraw Hp.
  assert (get parsed "mode" = JUndefined) as Hmode.
  { destruct (ZodFacts.parse_object_field _ raw parsed "mode" _
                NoDup_toCSS_parameters (or_intror (or_introl eq_refl)) Hp) as [_ ->].
    rewrite Hraw. reflexivity. }
  split; [exact Hmode | split; [rewrite Hmode; discriminate |]].
  destruct (ZodFacts.parsed_is_object _ _ _ Hp) as (fs & out & _ & -> & _).
  cbn [execute Rampensau.toCSS Rampensau.toCSS_execute destructure].
  rewrite Hmode. reflexivity.
Qed.

(** The theorem at the specification's colour, [200, 50, 50]. *)
Lemma toCSS_mode_omitted_witness :
  get (JObj [("color", JArr [JNum 200; JNum 50; JNum 50])]) "mode" = JUndefined /\
  execute Rampensau.toCSS (JObj [("color", JArr [JNum 200; JNum 50; JNum 50])]) =
    (css <- ask (colorToCSS (JArr [JNum 200; JNum 50; JNum 50]) JUndefined) ;;
     Ret (Rampensau.asResult css)).
Proof.
  destruct (toCSS_mode_omitted
              (JObj [("color", JArr [JNum 200; JNum 50; JNum 50])])
              (JObj [("color", JArr [JNum 200; JNum 50; JNum 50])])
              eq_refl eq_refl) as (Hmode & _ & Hexec).
  split; [exact Hmode | exact Hexec].
Defined.

(** C9.  [toCSS] with mode ["css"] and with mode ["hsl"] are the same
    computation, for every colour: validation resolves both to ["hsl"]
    before the handler runs.  On a tuple of three numbers the engine is
    asked for [colorToCSS(color, "hsl")] and its answer is the payload. *)
Theorem toCSS_css_is_hsl (color : jsval) :
  Zod.parse Rampensau.toCSS_mode (JStr "css") = Zod.Ok (JStr "hsl") /\
  Zod.parse Rampensau.toCSS_mode (JStr "hsl") = Zod.Ok (JStr "hsl") /\
  dispatch Rampensau.tools "toCSS" (JObj [("color", color); ("mode", JStr "css")]) =
  dispatch Rampensau.tools "toCSS" (JObj [("color", color); ("mode", JStr "hsl")]) /\
  (forall h s l : float,
     color = JArr [JNum h; JNum s; JNum l] ->
     Number.isNaN h = false -> Number.isNaN s = false -> Number.isNaN l = false ->
     dispatch Rampensau.tools "toCSS" (JObj [("color", color); ("mode", JStr "css")]) =
       (css <- ask (colorToCSS color (JStr "hsl")) ;;
        Ret (Rampensau.asResult css))).
Proof.
  split; [reflexivity | split; [reflexivity | split]].
  - reflexivity.
  - intros h s l -> Hh Hs Hl.
    unfold dispatch. cbn [find_tool Rampensau.tools name Rampensau.generate
      Rampensau.uniqueRandomHuesTool Rampensau.colorHarmony Rampensau.toCSS].
    cbn [String.eqb Ascii.eqb Bool.eqb].
    unfold zparse, Zod.parse, Zod.z_object. rewrite ZodFacts.parse_object.
    cbn. rewrite Hh, Hs, Hl. reflexivity.
Qed.

(** The theorem at the specification's colour, [200, 50, 50]. *)
Lemma toCSS_css_is_hsl_witness :
  dispatch Rampensau.tools "toCSS"
    (JObj [("color", JArr [JNum 200; JNum 50; JNum 50]); ("mode", JStr "css")]) =
  (css <- ask (colorToCSS (JArr [JNum 200; JNum 50; JNum 50]) (JStr "hsl")) ;;
   Ret (Rampensau.asResult css)).
Proof.
  destruct (toCSS_css_is_hsl (JArr [JNum 200; JNum 50; JNum 50])) as (_ & _ & _ & H).
  apply (H 200%float 50%float 50%float); reflexivity.
Defined.

(** * Programs: what they return and what they ask *)

Lemma returns_only_bind {A B : Type} (P : B -> Prop) (p : prog A) (f : A -> prog B) :
  (forall a, returns_only P (f a)) -> returns_only P (bind p f).
Proof.
  intros Hf. induction p as [a | e | c k IH]; cbn [bind].
  - apply Hf.
  - constructor.
  - constructor. intros answer. apply IH.
Qed.

Lemma returns_only_run {A : Type} (P : A -> Prop) (p : prog A) (eng : engine) (a : A) :
  returns_only P p -> run eng p = Returned a -> P a.
Proof.
  intros H. induction H as [a' Ha | e | c k _ IH]; cbn [run]; intros E.
  - injection E as <-. exact Ha.
  - discriminate.
  - apply (IH _ E).
Qed.

Lemma run_bind {A B : Type} (eng : engine) (p : prog A) (f : A -> prog B) :
  run eng (bind p f) =
  match run eng p with
  | Returned a => run eng (f a)
  | Thrown e => Thrown e
  end.
Proof.
  induction p as [a | e | c k IH]; cbn [bind run]; [reflexivity | reflexivity | apply IH].
Qed.

Lemma calls_bind {A B : Type} (eng : engine) (p : prog A) (f : A -> prog B) :
  calls eng (bind p f) =
  (calls eng p ++ match run eng p with
                  | Returned a => calls eng (f a)
                  | Thrown _ => []
                  end)%list.
Proof.
  induction p as [a | e | c k IH]; cbn [bind run calls app]; [reflexivity | reflexivity |].
  f_equal. apply IH.
Qed.

Lemma run_mapM_ask (eng : engine) (f : jsval -> call) (items : list jsval) :
  run eng (mapM (fun c => ask (f c)) items) = Returned (map (fun c => eng (f c)) items).
Proof.
  induction items as [| x rest IH]; [reflexivity |].
  cbn [mapM map]. unfold ask at 1. cbn [bind run].
  rewrite run_bind, IH. reflexivity.
Qed.

Lemma calls_mapM_ask (eng : engine) (f : jsval -> call) (items : list jsval) :
  calls eng (mapM (fun c => ask (f c)) items) = map f items.
Proof.
  induction items as [| x rest IH]; [reflexivity |].
  cbn [mapM map]. unfold ask at 1. cbn [bind calls]. f_equal.
  rewrite calls_bind, IH, run_mapM_ask. cbn [calls]. apply app_nil_r.
Qed.

(** * The envelope *)

Lemma asResult_wraps (data : jsval) : wraps data (Rampensau.asResult data).
Proof.
  eexists. split; [reflexivity | split; [reflexivity |]].
  destruct data; reflexivity.
Qed.

Lemma returns_only_wrapped (p : prog jsval) :
  returns_only wrapped (data <- p ;; Ret (Rampensau.asResult data)).
Proof.
  apply returns_only_bind. intros data. constructor.
  exists data. split; [reflexivity | apply asResult_wraps].
Qed.

Lemma tools_return_envelopes (t : Tool) (raw : jsval) :
  In t Rampensau.tools -> returns_only wrapped (execute t raw).
Proof.
  intros Hin. cbn in Hin.
  destruct Hin as [<- | [<- | [<- | [<- | [<- | [<- | []]]]]]]; cbn [execute
    Rampensau.generate Rampensau.uniqueRandomHuesTool Rampensau.colorHarmony
    Rampensau.toCSS Rampensau.harveyHueTool Rampensau.utils].
  - unfold Rampensau.generate_execute.
    apply returns_only_bind. intros parsed.
    apply returns_only_bind. intros ramp. apply returns_only_wrapped.
  - unfold Rampensau.uniqueRandomHues_execute.
    apply returns_only_bind. intros opts. apply returns_only_wrapped.
  - unfold Rampensau.colorHarmony_execute, destructure.
    destruct raw; try (constructor; fail);
      (apply returns_only_bind; intros harmony; apply returns_only_wrapped).
  - unfold Rampensau.toCSS_execute, destructure.
    destruct raw; first [apply returns_only_wrapped | constructor].
  - unfold Rampensau.harveyHue_execute, destructure.
    destruct raw; first [apply returns_only_wrapped | constructor].
  - unfold Rampensau.utils_execute, destructure.
    destruct raw; try (constructor; fail);
      (destruct (Rampensau.own _ _);
       [apply returns_only_wrapped
       | destruct (ObjectPrototype.has _); [apply returns_only_wrapped | constructor]]).
Qed.

(** C1.  [asResult] puts every value [data] into an envelope whose content
    is exactly one item, of type ["text"], whose text is [data] itself
    when [data] is a string and [JSON.stringify(data, null, 2)] otherwise;
    and whatever a tool of the registry returns is [asResult] of its
    handler's result. *)
Theorem every_tool_wraps_its_result :
  (forall data : jsval,
     exists item : ContentItem,
       content (Rampensau.asResult data) = [item] /\
       type item = "text" /\
       text item = match data with
                   | JStr s => JStr s
                   | _ => JSON.stringify data 2
                   end) /\
  (forall (t : Tool) (raw : jsval) (eng : engine) (env : ResponseEnvelope),
     In t Rampensau.tools ->
     run eng (execute t raw) = Returned env ->
     exists data : jsval, env = Rampensau.asResult data).
Proof.
  split.
  - exact asResult_wraps.
  - intros t raw eng env Hin Hrun.
    destruct (returns_only_run wrapped _ eng env (tools_return_envelopes t raw Hin) Hrun)
      as (data & Henv & _).
    exists data. exact Henv.
Qed.

(** The theorem at [harveyHue] with [h = 120], against the engine double:
    the payload is the number 120, and the text is its serialization. *)
Lemma every_tool_wraps_its_result_witness :
  (exists data : jsval,
     {| content := [{| type := "text"; text := JStr "120" |}] |} =
     Rampensau.asResult data) /\
  (exists item : ContentItem,
     content (Rampensau.asResult (JNum 120)) = [item] /\
     type item = "text" /\
     text item = JSON.stringify (JNum 120) 2).
Proof.
  split.
  - apply (proj2 every_tool_wraps_its_result Rampensau.harveyHueTool
             (JObj [("h", JNum 120)]) echo_engine).
    + cbn. tauto.
    + reflexivity.
  - apply (proj1 every_tool_wraps_its_result (JNum 120)).
Defined.

(** * [utils] *)

(** C7.  [curvePoint] is a two-stage application: [pointOnCurve] is called
    first, on the positional arguments, of which it reads the first two,
    and the function it returns is then called on exactly the arguments
    from index 2 onwards.  Nothing else is asked of the engine. *)
Theorem curvePoint_is_two_stage (a b : jsval) (rest : list jsval) :
  execute Rampensau.utils (utils_arguments "curvePoint" (a :: b :: rest)) =
    (curve <- ask (pointOnCurve (a :: b :: rest)) ;;
     point <- invoke curve rest ;;
     Ret (Rampensau.asResult point)) /\
  forall (eng : engine) (id : string),
    reads_two_arguments eng ->
    eng (pointOnCurve [a; b]) = JFun id ->
    run eng (execute Rampensau.utils (utils_arguments "curvePoint" (a :: b :: rest))) =
      Returned (Rampensau.asResult (eng (apply (eng (pointOnCurve [a; b])) rest))) /\
    calls eng (execute Rampensau.utils (utils_arguments "curvePoint" (a :: b :: rest))) =
      [pointOnCurve (a :: b :: rest); apply (eng (pointOnCurve [a; b])) rest].
Proof.
  split; [reflexivity |].
  intros eng id Htwo Hfun.
  cbn [execute Rampensau.utils Rampensau.utils_execute utils_arguments destructure].
  change (run eng (Call (pointOnCurve (a :: b :: rest))
                     (fun curve => point <- invoke curve rest ;; Ret (Rampensau.asResult point))) =
          Returned (Rampensau.asResult (eng (apply (eng (pointOnCurve [a; b])) rest))) /\
          calls eng (Call (pointOnCurve (a :: b :: rest))
                     (fun curve => point <- invoke curve rest ;; Ret (Rampensau.asResult point))) =
          [pointOnCurve (a :: b :: rest); apply (eng (pointOnCurve [a; b])) rest]).
  cbn [run calls]. rewrite (Htwo a b rest), Hfun. split; reflexivity.
Qed.

(** The theorem on a curve built from ["sine"] and 1 and sampled at 0.5,
    against the engine double. *)
Lemma curvePoint_is_two_stage_witness :
  calls echo_engine
    (execute Rampensau.utils (utils_arguments "curvePoint" [JStr "sine"; JNum 1; JNum 0.5])) =
  [pointOnCurve [JStr "sine"; JNum 1; JNum 0.5]; apply (JFun "curve sine 1") [JNum 0.5]].
Proof.
  apply (proj2 (curvePoint_is_two_stage (JStr "sine") (JNum 1) [JNum 0.5])
           echo_engine "curve sine 1").
  - intros a b rest. reflexivity.
  - reflexivity.
Defined.

(** C8, at [fn = "toString"]: the name is none of the five, yet [map[fn]]
    finds the function every object literal inherits, the guard passes,
    and its result is returned in an envelope.  No error is thrown. *)
Theorem utils_inherited_name_is_not_refused :
  ~ In "toString" Rampensau.utils_names /\
  execute Rampensau.utils (JObj [("fn", JStr "toString")]) =
  Ret (Rampensau.asResult (JStr "[object Object]")).
Proof.
  split; [cbn; intuition discriminate | reflexivity].
Qed.

Lemma own_utils_map_None (fn : string) (args : jsval) :
  ~ In fn Rampensau.utils_names -> Rampensau.own fn (Rampensau.utils_map args) = None.
Proof.
  intros H. cbn in H. cbn [Rampensau.utils_map Rampensau.own].
  repeat match goal with
         | |- context [String.eqb ?k fn] =>
             destruct (String.eqb_spec k fn); [exfalso; tauto |]
         end.
  reflexivity.
Qed.

(** A name that is neither one of the five nor inherited is refused, and
    the engine is not called. *)
Lemma utils_unknown_name_is_refused (fn : string) (args : jsval) :
  ~ In fn Rampensau.utils_names -> ObjectPrototype.has fn = false ->
  execute Rampensau.utils (JObj [("fn", JStr fn); ("args", args)]) =
  Throw (Rampensau.unknown_fn (JStr fn)).
Proof.
  intros Hfive Hproto.
  cbn [execute Rampensau.utils Rampensau.utils_execute destructure get Obj.lookup
       String.eqb Ascii.eqb Bool.eqb ToString].
  rewrite own_utils_map_None by assumption. rewrite Hproto. reflexivity.
Qed.

(** Each of the five names calls its own engine utility on the spread
    arguments. *)
Lemma utils_known_names (args : list jsval) :
  execute Rampensau.utils (utils_arguments "shuffle" args) =
    (r <- ask (shuffleArray args) ;; Ret (Rampensau.asResult r)) /\
  execute Rampensau.utils (utils_arguments "lerp" args) =
    (r <- ask (lerp args) ;; Ret (Rampensau.asResult r)) /\
  execute Rampensau.utils (utils_arguments "scaleSpread" args) =
    (r <- ask (scaleSpreadArray args) ;; Ret (Rampensau.asResult r)) /\
  execute Rampensau.utils (utils_arguments "curvePoint" args) =
    (curve <- ask (pointOnCurve args) ;;
     point <- invoke curve (skipn 2 args) ;;
     Ret (Rampensau.asResult point)) /\
  execute Rampensau.utils (utils_arguments "curveEasings" args) =
    (r <- ask (makeCurveEasings args) ;; Ret (Rampensau.asResult r)).
Proof. repeat split. Qed.

(** * [generate]: the curve selector and the format *)

Lemma enum_member_nonempty (v : string) (values : list string) :
  existsb (String.eqb v) values = true -> ~ In "" values -> (v =? "") = false.
Proof.
  intros H Hne. apply existsb_exists in H as (x & Hin & Heq).
  apply String.eqb_eq in Heq. subst x.
  destruct (String.eqb_spec v ""); [subst; contradiction | reflexivity].
Qed.

(** An accepted [curveMethod] is [undefined] or one of the four names, so
    it is truthy exactly when it is present. *)
Lemma curveMethod_truthy (raw parsed : jsval) :
  Zod.parse (Zod.z_object Rampensau.generate_parameters) raw = Zod.Ok parsed ->
  truthy (get parsed "curveMethod") = negb (is_undefined (get parsed "curveMethod")).
Proof.
  intros Hp.
  destruct (ZodFacts.parse_object_field _ raw parsed "curveMethod" _
              NoDup_generate_parameters
              ltac:(cbn; do 7 right; left; reflexivity) Hp) as [Hst ->].
  revert Hst. generalize (get raw "curveMethod"). intros x.
  destruct x; cbn -[existsb]; try discriminate; try reflexivity.
  destruct (existsb _ _) eqn:E; cbn; [intros _ | discriminate].
  rewrite (enum_member_nonempty _ _ E); [reflexivity |].
  cbn. intuition discriminate.
Qed.

(** The resolved format is one of the three canonical names. *)
Lemma format_resolved (raw parsed : jsval) :
  Zod.parse (Zod.z_object Rampensau.generate_parameters) raw = Zod.Ok parsed ->
  Rampensau.format_of parsed = JStr "array" \/
  Rampensau.format_of parsed = JStr "css-hsl" \/
  Rampensau.format_of parsed = JStr "css-oklch".
Proof.
  intros Hp. unfold Rampensau.format_of.
  destruct (ZodFacts.parse_object_field _ raw parsed "format" _
              NoDup_generate_parameters
              ltac:(cbn; do 9 right; left; reflexivity) Hp) as [Hst ->].
  revert Hst. generalize (get raw "format"). intros x.
  destruct x; cbn -[existsb]; try discriminate; auto.
  destruct (existsb _ _) eqn:E; cbn; [intros _ | discriminate].
  apply existsb_exists in E as (v & Hin & Heq). apply String.eqb_eq in Heq. subst v.
  cbn in Hin. destruct Hin as [<- | [<- | [<- | [<- | []]]]]; cbn; auto.
Qed.

(** The delegation in the palette-aware file, whose curve selector is
    [curveAccent]: an accepted accent is one of the table's keys, and the
    curve-aware generator receives its canonical name. *)
Lemma NoDup_variant_generate_parameters :
  NoDup (map fst (parameters PaletteVariant.generate)).
Proof. distinct_keys. Qed.

Lemma curveAccent_truthy (raw parsed : jsval) :
  Zod.parse (Zod.z_object PaletteVariant.generate_parameters) raw = Zod.Ok parsed ->
  truthy (if truthy (get parsed "curveAccent")
          then PaletteVariant.alias_of (get parsed "curveAccent")
          else JUndefined) =
  negb (is_undefined (get parsed "curveAccent")).
Proof.
  intros Hp.
  destruct (ZodFacts.parse_object_field _ raw parsed "curveAccent" _
              NoDup_variant_generate_parameters
              ltac:(cbn; do 7 right; left; reflexivity) Hp) as [Hst ->].
  revert Hst. generalize (get raw "curveAccent"). intros x.
  destruct x; cbn -[existsb]; try discriminate; try reflexivity.
  destruct (existsb _ _) eqn:E; cbn -[PaletteVariant.alias_of]; [intros _ | discriminate].
  apply existsb_exists in E as (v & Hin & Heq). apply String.eqb_eq in Heq. subst v.
  cbn in Hin.
  repeat (destruct Hin as [<- | Hin]; [reflexivity |]). contradiction.
Qed.

Lemma generate_variant_delegates (raw parsed : jsval) (eng : engine) :
  Zod.parse (Zod.z_object (parameters PaletteVariant.generate)) raw = Zod.Ok parsed ->
  let curveAccent := get parsed "curveAccent" in
  let format := Rampensau.format_of parsed in
  let opts := PaletteVariant.opts_of parsed in
  let generator :=
    if is_undefined curveAccent
    then generateColorRamp (JObj opts)
    else generateColorRampWithCurve
           (JObj (Obj.set "curveAccent" (PaletteVariant.alias_of curveAccent) opts)) in
  let space := JStr (if is_string "css-hsl" format then "hsl" else "oklch") in
  execute PaletteVariant.generate raw =
    (ramp <- ask generator ;;
     out <- (if is_string "array" format
             then Ret ramp
             else Array_map (fun c => ask (colorToCSS c space)) ramp) ;;
     Ret (Rampensau.asResult out)).
Proof.
  change (parameters PaletteVariant.generate) with PaletteVariant.generate_parameters.
  intros Hp curveAccent format opts generator space.
  pose proof (curveAccent_truthy raw parsed Hp) as Htruthy.
  fold curveAccent in Htruthy.
  cbn [execute PaletteVariant.generate].
  unfold PaletteVariant.generate_execute, zparse.
  rewrite Hp. cbn [bind]. fold curveAccent format opts.
  rewrite Htruthy. unfold generator.
  destruct (is_undefined curveAccent) eqn:E; cbn [negb]; [reflexivity |].
  destruct (truthy curveAccent); [reflexivity | discriminate Htruthy].
Qed.

(** * [toCSS]: one colour or a palette *)

(** C3, as stated, fails twice.  The tool of [rampensau-mcp-spec.js]
    declares [color] as one tuple: a sequence of tuples does not validate,
    and the handler would pass it to the engine as one colour.  The
    palette-aware handler looks at [color[0]] to tell the two shapes apart,
    so the empty sequence, which its schema accepts, is converted as if it
    were one colour. *)
Lemma toCSS_does_not_mirror_every_input :
  (exists errs,
     Zod.parse (Zod.z_object (parameters Rampensau.toCSS))
       (toCSS_arguments (JArr [JArr [JNum 200; JNum 50; JNum 50]]) (JStr "hsl")) =
     Zod.Err errs) /\
  ~ mirrors_input (execute Rampensau.toCSS) /\
  Zod.parse PaletteVariant.Palette (JArr []) = Zod.Ok (JArr []) /\
  ~ mirrors_input (execute PaletteVariant.toCSS).
Proof.
  split; [eexists; reflexivity |]. split; [| split; [reflexivity |]].
  - intros [_ H].
    specialize (H [JArr [JNum 200; JNum 50; JNum 50]] (JStr "hsl") echo_engine eq_refl).
    vm_compute in H. discriminate H.
  - intros [_ H].
    specialize (H [] (JStr "hsl") echo_engine eq_refl).
    vm_compute in H. discriminate H.
Qed.

(** C3, amended.  Given one tuple of three numbers, both handlers return
    the engine's conversion of it.  Given a sequence of such tuples that
    is not empty, the palette-aware handler returns the conversions of the
    tuples, one engine call each, in the same order and number. *)
Theorem toCSS_mirrors_nonempty_input :
  (forall (color mode : jsval) (eng : engine),
     is_color3 color = true ->
     run eng (execute Rampensau.toCSS (toCSS_arguments color mode)) =
       Returned (Rampensau.asResult (eng (colorToCSS color mode))) /\
     run eng (execute PaletteVariant.toCSS (toCSS_arguments color mode)) =
       Returned (Rampensau.asResult (eng (colorToCSS color mode)))) /\
  (forall (tuples : list jsval) (mode : jsval) (eng : engine),
     tuples <> [] ->
     forallb is_color3 tuples = true ->
     run eng (execute PaletteVariant.toCSS (toCSS_arguments (JArr tuples) mode)) =
       Returned (Rampensau.asResult
                   (JArr (map (fun c => eng (colorToCSS c mode)) tuples))) /\
     calls eng (execute PaletteVariant.toCSS (toCSS_arguments (JArr tuples) mode)) =
       map (fun c => colorToCSS c mode) tuples).
Proof.
  split.
  - intros color mode eng Hc.
    destruct color as [| | | | | [| [| | | h | | | |] [| [| | | s | | | |] [| [| | | l | | | |] [|]]]] | |];
      try discriminate Hc.
    split; reflexivity.
  - intros tuples mode eng Hne Hall.
    destruct tuples as [| first rest]; [contradiction |].
    assert (isArray first = true) as Hfirst.
    { cbn [forallb] in Hall. apply andb_true_iff in Hall as [H _].
      destruct first; try discriminate H. reflexivity. }
    cbn [execute PaletteVariant.toCSS PaletteVariant.toCSS_execute toCSS_arguments
         destructure get Obj.lookup String.eqb Ascii.eqb Bool.eqb index0 nth].
    rewrite Hfirst. unfold Array_map, PaletteVariant.asResult.
    rewrite !calls_bind, !run_bind, !run_mapM_ask, !calls_mapM_ask.
    cbn [run calls bind]. rewrite !app_nil_r. split; reflexivity.
Qed.

(** The theorem on a palette of two colours, against the engine double. *)
Lemma toCSS_mirrors_nonempty_input_witness :
  calls echo_engine
    (execute PaletteVariant.toCSS
       (toCSS_arguments (JArr [JArr [JNum 200; JNum 50; JNum 50];
                               JArr [JNum 240; JNum 50; JNum 25]]) (JStr "hsl"))) =
  [ colorToCSS (JArr [JNum 200; JNum 50; JNum 50]) (JStr "hsl");
    colorToCSS (JArr [JNum 240; JNum 50; JNum 25]) (JStr "hsl") ]%list.
Proof.
  apply (proj2 toCSS_mirrors_nonempty_input
           [JArr [JNum 200; JNum 50; JNum 50]; JArr [JNum 240; JNum 50; JNum 25]]
           (JStr "hsl") echo_engine).
  - discriminate.
  - reflexivity.
Defined.

(** * Own properties: reading after writing *)

Module ObjFacts.

Lemma lookup_set_same (k : string) (v : jsval) (o : Obj.t) :
  Obj.lookup k (Obj.set k v o) = Some v.
Proof.
  induction o as [| [k' v'] rest IH]; cbn [Obj.set Obj.lookup].
  - rewrite String.eqb_refl. reflexivity.
  - destruct (String.eqb_spec k' k) as [-> | Hne]; cbn [Obj.lookup].
    + rewrite String.eqb_refl. reflexivity.
    + rewrite (proj2 (String.eqb_neq k' k) Hne). exact IH.
Qed.

Lemma lookup_set_other (k k' : string) (v : jsval) (o : Obj.t) :
  k <> k' -> Obj.lookup k' (Obj.set k v o) = Obj.lookup k' o.
Proof.
  intros Hne. induction o as [| [k0 v0] rest IH]; cbn [Obj.set Obj.lookup].
  - rewrite (proj2 (String.eqb_neq k k') Hne). reflexivity.
  - destruct (String.eqb_spec k0 k) as [-> | Hne0]; cbn [Obj.lookup].
    + rewrite (proj2 (String.eqb_neq k k') Hne). reflexivity.
    + rewrite IH. reflexivity.
Qed.

Lemma lookup_remove_same (k : string) (o : Obj.t) :
  Obj.lookup k (Obj.remove k o) = None.
Proof.
  unfold Obj.remove.
  induction o as [| [k' v'] rest IH]; cbn [filter Obj.lookup fst]; [reflexivity |].
  destruct (String.eqb_spec k' k) as [-> | Hne]; cbn [negb Obj.lookup]; [exact IH |].
  rewrite (proj2 (String.eqb_neq k' k) Hne). exact IH.
Qed.

Lemma lookup_remove_other (k k' : string) (o : Obj.t) :
  k <> k' -> Obj.lookup k' (Obj.remove k o) = Obj.lookup k' o.
Proof.
  intros Hne. unfold Obj.remove.
  induction o as [| [k0 v0] rest IH]; cbn [filter Obj.lookup fst]; [reflexivity |].
  destruct (String.eqb_spec k0 k) as [-> | Hne0]; cbn [negb Obj.lookup].
  - rewrite (proj2 (String.eqb_neq k k') Hne). exact IH.
  - rewrite IH. reflexivity.
Qed.

End ObjFacts.

(** * What the schemas accept *)

Module SchemaFacts.

Import Zod.

Lemma number_valid (checks : list number_check) (p : list key) (d : jsval) :
  st (_parse (number checks) p d) = valid ->
  exists x, d = JNum x /\ Number.isNaN x = false /\
            flat_map (check_number p x) checks = [] /\
            value (_parse (number checks) p d) = d.
Proof.
  destruct d as [| | | x | | | |]; cbn [_parse INVALID st]; try discriminate.
  destruct (Number.isNaN x) eqn:Hnan; cbn [INVALID st]; [discriminate |].
  unfold flagged. cbn [st value].
  destruct (flat_map (check_number p x) checks) eqn:Hchecks; [| discriminate].
  intros _. exists x. repeat split; auto.
Qed.

Lemma number_accepts (checks : list number_check) (p : list key) (x : float) :
  Number.isNaN x = false -> flat_map (check_number p x) checks = [] ->
  _parse (number checks) p (JNum x) = OK (JNum x).
Proof.
  intros Hnan Hchecks. cbn [_parse]. rewrite Hnan, Hchecks. reflexivity.
Qed.

(** A number schema with a lower and an upper bound accepts the numbers
    between the bounds. *)
Lemma bounded_valid (lo hi : float) (p : list key) (d : jsval) :
  PrimFloat.is_nan lo = false -> PrimFloat.is_nan hi = false ->
  st (_parse (number [Min lo; Max hi]) p d) = valid ->
  between lo hi d = true /\ value (_parse (number [Min lo; Max hi]) p d) = d.
Proof.
  intros Hlo Hhi H.
  destruct (number_valid _ _ _ H) as (x & -> & Hnan & Hchecks & Hval).
  split; [| exact Hval].
  cbn [flat_map check_number] in Hchecks. rewrite app_nil_r in Hchecks.
  destruct (PrimFloat.ltb x lo) eqn:E1; [discriminate |].
  destruct (PrimFloat.ltb hi x) eqn:E2; [discriminate |].
  cbn [between on_number]. apply andb_true_iff. split.
  - apply FloatFacts.not_ltb_leb; assumption.
  - apply FloatFacts.not_ltb_leb; assumption.
Qed.

Lemma at_least_valid (lo : float) (p : list key) (d : jsval) :
  PrimFloat.is_nan lo = false ->
  st (_parse (number [Min lo]) p d) = valid ->
  exists x, d = JNum x /\ (lo <=? x)%float = true /\
            value (_parse (number [Min lo]) p d) = d.
Proof.
  intros Hlo H.
  destruct (number_valid _ _ _ H) as (x & -> & Hnan & Hchecks & Hval).
  exists x. split; [reflexivity |]. split; [| exact Hval].
  cbn [flat_map check_number] in Hchecks.
  destruct (PrimFloat.ltb x lo) eqn:E1; [discriminate |].
  apply FloatFacts.not_ltb_leb; assumption.
Qed.

Lemma integer_at_least_valid (lo : float) (p : list key) (d : jsval) :
  PrimFloat.is_nan lo = false ->
  st (_parse (number [Int; Min lo]) p d) = valid ->
  exists x, d = JNum x /\ Number.isInteger x = true /\ (lo <=? x)%float = true /\
            value (_parse (number [Int; Min lo]) p d) = d.
Proof.
  intros Hlo H.
  destruct (number_valid _ _ _ H) as (x & -> & Hnan & Hchecks & Hval).
  exists x. split; [reflexivity |].
  cbn [flat_map check_number] in Hchecks.
  destruct (Number.isInteger x); [| discriminate].
  destruct (PrimFloat.ltb x lo) eqn:E1; [discriminate |].
  split; [reflexivity |]. split; [| exact Hval].
  apply FloatFacts.not_ltb_leb; assumption.
Qed.

Lemma enum_valid (values : list string) (p : list key) (d : jsval) :
  st (_parse (enum values) p d) = valid ->
  exists v, d = JStr v /\ In v values /\ value (_parse (enum values) p d) = d.
Proof.
  destruct d as [| | | | v | | |]; cbn [_parse INVALID st]; try discriminate.
  destruct (existsb (String.eqb v) values) eqn:E; cbn [INVALID OK st]; [| discriminate].
  intros _. exists v. split; [reflexivity |]. split; [| reflexivity].
  apply existsb_exists in E as (x & Hin & Heq).
  apply String.eqb_eq in Heq. subst x. exact Hin.
Qed.

(** The wrappers that only pass the input on. *)
Lemma parse_describe (text : string) (s : schema) (p : list key) (d : jsval) :
  _parse (describe text s) p d = _parse s p d.
Proof. reflexivity. Qed.

Lemma parse_optional (s : schema) (p : list key) (d : jsval) :
  _parse (optional s) p d =
  match d with
  | JUndefined => OK JUndefined
  | _ => _parse s p d
  end.
Proof. reflexivity. Qed.

Lemma parse_default (dflt : jsval) (s : schema) (p : list key) (d : jsval) :
  _parse (default dflt s) p d =
  match d with
  | JUndefined => _parse s p dflt
  | _ => _parse s p d
  end.
Proof. reflexivity. Qed.

(** ** Sequences *)

Lemma fold_worst_not_valid (l : list status) (s0 : status) :
  s0 <> valid -> fold_left worst l s0 <> valid.
Proof.
  intros H0 H. apply ZodFacts.fold_worst_valid in H as [H _]. contradiction.
Qed.

Lemma fold_worst_all_valid (l : list status) :
  Forall (fun s => s = valid) l -> fold_left worst l valid = valid.
Proof.
  induction 1 as [| s l -> _ IH]; [reflexivity | exact IH].
Qed.

Lemma mergeArray_valid (own : list issue) (results : list outcome) :
  st (mergeArray own results) = valid ->
  own = [] /\ Forall (fun r => st r = valid) results /\
  value (mergeArray own results) = JArr (map value results).
Proof.
  unfold mergeArray.
  destruct (fold_left worst (map st results) match own with [] => valid | _ => dirty end)
    eqn:E; cbn [st value INVALID]; try discriminate.
  intros _. apply ZodFacts.fold_worst_valid in E as [E0 E].
  split; [destruct own; [reflexivity | discriminate] |].
  split; [| reflexivity].
  rewrite Forall_map in E. exact E.
Qed.

Lemma mergeArray_all_valid (results : list outcome) :
  Forall (fun r => st r = valid) results ->
  st (mergeArray [] results) = valid /\
  value (mergeArray [] results) = JArr (map value results).
Proof.
  intros H. unfold mergeArray.
  rewrite fold_worst_all_valid by (rewrite Forall_map; exact H).
  split; reflexivity.
Qed.

Lemma parse_array (element : schema) (p : list key) (items : list jsval) :
  _parse (array element None) p (JArr items) =
  mergeArray [] (elements element p 0 items).
Proof. reflexivity. Qed.

Lemma elements_cons (element : schema) (p : list key) (start : nat)
    (item : jsval) (items : list jsval) :
  elements element p start (item :: items) =
  _parse element (p ++ [Index start])%list item :: elements element p (S start) items.
Proof. reflexivity. Qed.

Section Elements.
Variables (element : schema) (accepts : jsval -> bool).
Hypothesis element_valid :
  forall p d, st (_parse element p d) = valid <-> accepts d = true.
Hypothesis element_passes : passes_through element.

Lemma elements_valid (p : list key) (items : list jsval) (start : nat) :
  Forall (fun r => st r = valid) (elements element p start items) <->
  forallb accepts items = true.
Proof.
  revert start. induction items as [| item rest IH]; intros start.
  - split; [reflexivity | constructor].
  - rewrite elements_cons. cbn [forallb]. rewrite andb_true_iff, <- (IH (S start)).
    rewrite <- (element_valid (p ++ [Index start])%list item).
    split.
    + intros H. inversion H; subst. auto.
    + intros [H1 H2]. constructor; assumption.
Qed.

Lemma elements_pass (p : list key) (items : list jsval) (start : nat) :
  Forall (fun r => st r = valid) (elements element p start items) ->
  map value (elements element p start items) = items.
Proof.
  revert start. induction items as [| item rest IH]; intros start H.
  - reflexivity.
  - rewrite elements_cons in *. inversion H; subst. cbn [map].
    rewrite element_passes by assumption. rewrite IH by assumption. reflexivity.
Qed.

(** An array schema accepts the arrays whose elements its element schema
    accepts, and returns them as they are. *)
Lemma array_valid (p : list key) (d : jsval) :
  st (_parse (array element None) p d) = valid <->
  exists items, d = JArr items /\ forallb accepts items = true.
Proof.
  split.
  - destruct d as [| | | | | items | |]; cbn [_parse INVALID st]; try discriminate.
    fold (elements element p 0 items). intros H.
    apply mergeArray_valid in H as (_ & H & _).
    exists items. split; [reflexivity |]. apply (elements_valid p items 0), H.
  - intros (items & -> & H). rewrite parse_array.
    apply mergeArray_all_valid, (elements_valid p items 0), H.
Qed.

Lemma array_passes : passes_through (array element None).
Proof.
  intros p d H.
  destruct d as [| | | | | items | |]; cbn [_parse INVALID st] in H; try discriminate.
  rewrite parse_array.
  change (st (mergeArray [] (elements element p 0 items)) = valid) in H.
  apply mergeArray_valid in H as (_ & Hall & ->).
  rewrite elements_pass by assumption. reflexivity.
Qed.

End Elements.

End SchemaFacts.

(** * The envelope on every payload *)

(** X1.  [asResult]: the text of the envelope is a string for every payload
    except [undefined] and a function, for which [JSON.stringify] answers
    [undefined] and the envelope's item has no text. *)
Theorem asResult_text_is_missing_for_undefined (data : jsval) :
  match data with
  | JUndefined | JFun _ =>
      Rampensau.asResult data =
      {| content := [{| type := "text"; text := JUndefined |}] |}
  | _ =>
      exists s : string,
        Rampensau.asResult data =
        {| content := [{| type := "text"; text := JStr s |}] |}
  end.
Proof.
  destruct data as [| | b | x | s | items | fields | id];
    try reflexivity; eexists; reflexivity.
Qed.

(** * [norm01] and [RangeTuple] *)

Module Norm01Facts.

Import Zod.

Local Open Scope float_scope.

Lemma leb_one_hundred (r : float) : (r <=? 1) = true -> (r <=? 100) = true.
Proof.
  rewrite !leb_spec, FloatFacts.Prim2SF_one, FloatFacts.Prim2SF_hundred.
  destruct (Prim2SF r) as [s | s | | s m e]; try destruct s; try (intros; reflexivity);
    try discriminate.
  rewrite !FloatFacts.SFleb_finite_pos. unfold Number.m_one, Number.m_hundred. lia.
Qed.

Lemma parse_Ok (s : schema) (d v : jsval) :
  parse s d = Ok v <-> st (_parse s [] d) = valid /\ value (_parse s [] d) = v.
Proof.
  unfold parse. destruct (st (_parse s [] d)); split;
    try (intros [H _]; discriminate H); try discriminate.
  - intros [= <-]. auto.
  - intros [_ ->]. reflexivity.
Qed.

(** [norm01] at any path: the path only labels the issues. *)
Lemma _parse_norm01 (p : list key) (d : jsval) :
  _parse Rampensau.norm01 p d =
  match d with
  | JNum v =>
      if Number.isNaN v then INVALID [fail invalid_type p]
      else if (0 <=? v) && (v <=? 100)
           then OK (JNum (if 1 <? v then v / 100 else v))
           else INVALID [{| code := custom; path := p;
                            message := Some "must be between 0 and 100"%string |}]
  | _ => INVALID [fail invalid_type p]
  end.
Proof.
  destruct d as [| | | v | | | |]; try reflexivity.
  unfold Rampensau.norm01, transform, refine, z_number. cbn [_parse].
  destruct (Number.isNaN v); [reflexivity |].
  cbn [flagged flat_map st value issues on_number].
  destruct ((0 <=? v) && (v <=? 100)); reflexivity.
Qed.

Lemma norm01_valid (p : list key) (d : jsval) :
  st (_parse Rampensau.norm01 p d) = valid <-> between 0 100 d = true.
Proof.
  rewrite _parse_norm01.
  destruct d as [| | | v | | | |]; cbn [between on_number INVALID st];
    try (split; discriminate).
  destruct (Number.isNaN v) eqn:Hnan.
  - cbn [INVALID st]. split; [discriminate |]. intros H.
    apply andb_true_iff in H as [H _].
    apply FloatFacts.leb_not_nan in H as [_ H]. unfold Number.isNaN in Hnan. congruence.
  - destruct ((0 <=? v) && (v <=? 100)); cbn [INVALID OK st]; split; congruence.
Qed.

(** What [norm01] returns lies between 0 and 1. *)
Lemma norm01_unit (p : list key) (d : jsval) :
  st (_parse Rampensau.norm01 p d) = valid ->
  between 0 1 (value (_parse Rampensau.norm01 p d)) = true.
Proof.
  rewrite _parse_norm01.
  destruct d as [| | | v | | | |]; cbn [INVALID st]; try discriminate.
  destruct (Number.isNaN v) eqn:Hnan; cbn [INVALID st]; [discriminate |].
  destruct ((0 <=? v) && (v <=? 100)) eqn:Hrange; cbn [INVALID OK st value]; [| discriminate].
  intros _. apply andb_true_iff in Hrange as [H0 H100].
  cbn [between on_number]. apply andb_true_iff.
  destruct (1 <? v) eqn:H1.
  - apply FloatFacts.div_hundred_bounds; assumption.
  - split; [assumption |].
    apply FloatFacts.not_ltb_leb; [reflexivity | exact Hnan | exact H1].
Qed.

(** A value between 0 and 1 is accepted and returned as it is. *)
Lemma norm01_fixes_units (p : list key) (d : jsval) :
  between 0 1 d = true -> _parse Rampensau.norm01 p d = OK d.
Proof.
  destruct d as [| | | v | | | |]; cbn [between on_number]; try discriminate.
  intros H. apply andb_true_iff in H as [H0 H1].
  rewrite _parse_norm01.
  destruct (FloatFacts.leb_not_nan _ _ H0) as [_ Hnan].
  unfold Number.isNaN. rewrite Hnan, H0, (leb_one_hundred _ H1).
  cbn [andb]. rewrite (FloatFacts.leb_ltb_antisym _ _ H1). reflexivity.
Qed.

Lemma norm01_stable : stable Rampensau.norm01.
Proof.
  intros p d H. rewrite (norm01_fixes_units p _ (norm01_unit p d H)).
  split; reflexivity.
Qed.

Lemma norm01_path (p q : list key) (d : jsval) :
  st (_parse Rampensau.norm01 p d) = st (_parse Rampensau.norm01 q d) /\
  value (_parse Rampensau.norm01 p d) = value (_parse Rampensau.norm01 q d).
Proof.
  rewrite !_parse_norm01.
  destruct d as [| | | v | | | |]; try (split; reflexivity).
  destruct (Number.isNaN v); [split; reflexivity |].
  destruct ((0 <=? v) && (v <=? 100)); split; reflexivity.
Qed.

Lemma parse_tuple2 (s1 s2 : schema) (p : list key) (items : list jsval) :
  _parse (tuple [s1; s2]) p (JArr items) =
  match items with
  | a :: b :: rest =>
      mergeArray match rest with [] => [] | _ => [fail too_big p] end
        [_parse s1 (p ++ [Index 0])%list a; _parse s2 (p ++ [Index 1])%list b]
  | _ => INVALID [fail too_small p]
  end.
Proof.
  destruct items as [| a [| b [| c rest]]]; reflexivity.
Qed.

Lemma tuple2_valid (s1 s2 : schema) (p : list key) (d : jsval) :
  st (_parse (tuple [s1; s2]) p d) = valid <->
  exists a b, d = JArr [a; b] /\
    st (_parse s1 (p ++ [Index 0])%list a) = valid /\
    st (_parse s2 (p ++ [Index 1])%list b) = valid.
Proof.
  split.
  - destruct d as [| | | | | items | |]; try (cbn [_parse INVALID st]; discriminate).
    rewrite parse_tuple2.
    destruct items as [| a [| b rest]]; try (cbn [INVALID st]; discriminate).
    intros H. apply SchemaFacts.mergeArray_valid in H as (Hown & Hall & _).
    destruct rest; [| discriminate].
    inversion Hall as [| ? ? Ha Hall']; subst. inversion Hall' as [| ? ? Hb _]; subst.
    exists a, b. auto.
  - intros (a & b & -> & Ha & Hb). rewrite parse_tuple2.
    apply SchemaFacts.mergeArray_all_valid. repeat constructor; assumption.
Qed.

Lemma tuple2_value (s1 s2 : schema) (p : list key) (a b : jsval) :
  st (_parse (tuple [s1; s2]) p (JArr [a; b])) = valid ->
  value (_parse (tuple [s1; s2]) p (JArr [a; b])) =
  JArr [value (_parse s1 (p ++ [Index 0])%list a);
        value (_parse s2 (p ++ [Index 1])%list b)].
Proof.
  rewrite parse_tuple2. intros H.
  apply SchemaFacts.mergeArray_valid in H as (_ & _ & ->). reflexivity.
Qed.

End Norm01Facts.

(** X2.  [norm01] is idempotent: a value it returned is accepted again and is
    returned unchanged, so normalizing twice is normalizing once. *)
Theorem norm01_is_idempotent (v r : jsval) :
  Zod.parse Rampensau.norm01 v = Zod.Ok r -> Zod.parse Rampensau.norm01 r = Zod.Ok r.
Proof.
  intros H. apply Norm01Facts.parse_Ok in H as [Hst <-].
  apply Norm01Facts.parse_Ok. apply Norm01Facts.norm01_stable, Hst.
Qed.

(** The theorem at 50 per cent, which is normalized to one half. *)
Lemma norm01_is_idempotent_witness :
  Zod.parse Rampensau.norm01 (JNum 0.5) = Zod.Ok (JNum 0.5).
Proof.
  apply (norm01_is_idempotent (JNum 50) (JNum 0.5)). reflexivity.
Defined.

(** X3.  [RangeTuple] accepts exactly the arrays of two elements that [norm01]
    accepts, and returns the two normalized values: each bound is
    normalized on its own, whatever the other is. *)
Theorem RangeTuple_normalizes_each_bound (data parsed : jsval) :
  Zod.parse Rampensau.RangeTuple data = Zod.Ok parsed <->
  exists a b a' b' : jsval,
    data = JArr [a; b] /\ parsed = JArr [a'; b'] /\
    Zod.parse Rampensau.norm01 a = Zod.Ok a' /\
    Zod.parse Rampensau.norm01 b = Zod.Ok b'.
Proof.
  rewrite Norm01Facts.parse_Ok.
  unfold Rampensau.RangeTuple. rewrite SchemaFacts.parse_describe.
  split.
  - intros [Hst Hval].
    destruct (proj1 (Norm01Facts.tuple2_valid _ _ _ _) Hst) as (a & b & -> & Ha & Hb).
    rewrite Norm01Facts.tuple2_value in Hval by exact Hst. subst parsed.
    exists a, b. do 2 eexists. split; [reflexivity |]. split; [reflexivity |].
    rewrite !Norm01Facts.parse_Ok.
    destruct (Norm01Facts.norm01_path [] ([] ++ [Zod.Index 0]) a) as [-> ->].
    destruct (Norm01Facts.norm01_path [] ([] ++ [Zod.Index 1]) b) as [-> ->].
    auto.
  - intros (a & b & a' & b' & -> & -> & Ha & Hb).
    apply Norm01Facts.parse_Ok in Ha as [Ha <-]. apply Norm01Facts.parse_Ok in Hb as [Hb <-].
    destruct (Norm01Facts.norm01_path [] ([] ++ [Zod.Index 0]) a) as [Ea Ea'].
    destruct (Norm01Facts.norm01_path [] ([] ++ [Zod.Index 1]) b) as [Eb Eb'].
    assert (Zod.st (Zod._parse (Zod.tuple [Rampensau.norm01; Rampensau.norm01]) []
                      (JArr [a; b])) = Zod.valid) as Hst.
    { apply Norm01Facts.tuple2_valid. exists a, b. rewrite <- Ea, <- Eb. auto. }
    split; [exact Hst |].
    rewrite Norm01Facts.tuple2_value by exact Hst. rewrite <- Ea', <- Eb'. reflexivity.
Qed.

(** * The canonical arguments of [generate] *)

Module CanonicalFacts.

Import Zod.

Lemma optional_valid (s : schema) (p : list key) (d : jsval) :
  st (_parse (optional s) p d) = valid ->
  (d = JUndefined /\ value (_parse (optional s) p d) = JUndefined) \/
  (d <> JUndefined /\ st (_parse s p d) = valid /\
   value (_parse (optional s) p d) = value (_parse s p d)).
Proof.
  rewrite SchemaFacts.parse_optional.
  destruct d; auto; right; (split; [discriminate | auto]).
Qed.

Lemma optional_bounded (lo hi : float) (p : list key) (d : jsval) :
  PrimFloat.is_nan lo = false -> PrimFloat.is_nan hi = false ->
  st (_parse (optional (number [Min lo; Max hi])) p d) = valid ->
  value (_parse (optional (number [Min lo; Max hi])) p d) = d /\
  (d = JUndefined \/ between lo hi d = true).
Proof.
  intros Hlo Hhi H. apply optional_valid in H as [[-> ->] | (_ & H & ->)]; [auto |].
  destruct (SchemaFacts.bounded_valid lo hi p d Hlo Hhi H) as [Hb ->]. auto.
Qed.

Lemma number_passes (checks : list number_check) : passes_through (number checks).
Proof.
  intros p d H. destruct (SchemaFacts.number_valid _ _ _ H) as (x & _ & _ & _ & Hval).
  exact Hval.
Qed.

Lemma bounded_iff (lo hi : float) (p : list key) (d : jsval) :
  PrimFloat.is_nan lo = false -> PrimFloat.is_nan hi = false ->
  st (_parse (number [Min lo; Max hi]) p d) = valid <-> between lo hi d = true.
Proof.
  intros Hlo Hhi. split.
  - intros H. apply (SchemaFacts.bounded_valid lo hi p d Hlo Hhi H).
  - destruct d as [| | | x | | | |]; cbn [between on_number]; try discriminate.
    intros H. apply andb_true_iff in H as [H1 H2].
    rewrite SchemaFacts.number_accepts; [reflexivity | |].
    + apply (FloatFacts.leb_not_nan _ _ H1).
    + cbn [flat_map check_number].
      rewrite (FloatFacts.leb_ltb_antisym _ _ H1), (FloatFacts.leb_ltb_antisym _ _ H2).
      reflexivity.
Qed.

(** What [RangeTuple] returns is a pair of fractions. *)
Lemma RangeTuple_units (p : list key) (d : jsval) :
  st (_parse Rampensau.RangeTuple p d) = valid ->
  exists lo hi : jsval,
    value (_parse Rampensau.RangeTuple p d) = JArr [lo; hi] /\
    between 0 1 lo = true /\ between 0 1 hi = true.
Proof.
  unfold Rampensau.RangeTuple. rewrite SchemaFacts.parse_describe. intros H.
  destruct (proj1 (Norm01Facts.tuple2_valid _ _ _ _) H) as (a & b & -> & Ha & Hb).
  rewrite Norm01Facts.tuple2_value by exact H.
  do 2 eexists. split; [reflexivity |].
  split; apply Norm01Facts.norm01_unit; assumption.
Qed.

End CanonicalFacts.

(** X4.  [generate], the counts: the canonical [total] is always there, an
    integer from 3 upwards, the one given or else 10; a given [hCycles] is
    at least 1 and is handed on as it is. *)
Theorem generate_counts_are_bounded (raw parsed : jsval) :
  Zod.parse (Zod.z_object (parameters Rampensau.generate)) raw = Zod.Ok parsed ->
  (exists x : float,
     get parsed "total" = JNum x /\
     Number.isInteger x = true /\ (3 <=? x)%float = true /\
     match get raw "total" with
     | JUndefined => x = 10%float
     | given => given = JNum x
     end) /\
  (get parsed "hCycles" = get raw "hCycles" /\
   (get raw "hCycles" = JUndefined \/
    exists c : float, get raw "hCycles" = JNum c /\ (1 <=? c)%float = true)).
Proof.
  intros Hp. split.
  - destruct (ZodFacts.parse_object_field _ raw parsed "total" _
                NoDup_generate_parameters (or_introl eq_refl) Hp) as [Hst ->].
    rewrite ?SchemaFacts.parse_default, ?SchemaFacts.parse_describe in *.
    change (Zod.min 3 (Zod.int Zod.z_number)) with (Zod.number [Zod.Int; Zod.Min 3]) in *.
    destruct (get raw "total") eqn:E;
      try (destruct (SchemaFacts.integer_at_least_valid 3 _ _ eq_refl Hst)
             as (y & Hy & _); discriminate Hy).
    + exists 10%float. repeat split; reflexivity.
    + destruct (SchemaFacts.integer_at_least_valid 3 _ _ eq_refl Hst)
        as (y & Hy & Hint & Hmin & ->).
      injection Hy as <-. exists x. auto.
  - destruct (ZodFacts.parse_object_field _ raw parsed "hCycles" _
                NoDup_generate_parameters
                ltac:(cbn; do 3 right; left; reflexivity) Hp) as [Hst ->].
    apply CanonicalFacts.optional_valid in Hst as [[-> ->] | (Hdef & Hst & ->)]; [auto |].
    rewrite SchemaFacts.parse_default in *.
    destruct (get raw "hCycles") eqn:E; [contradiction | | | | | | |];
    rewrite ?SchemaFacts.parse_describe in *;
    change (Zod.min 1 Zod.z_number) with (Zod.number [Zod.Min 1]) in *;
    destruct (SchemaFacts.at_least_valid 1 _ _ eq_refl Hst) as (c & Hc & Hmin & ->);
    (split; [reflexivity | right; exists c; auto]).
Qed.

(** The theorem at the second of the tool's examples. *)
Lemma generate_counts_are_bounded_witness :
  exists x : float,
    get (JObj [("total", JNum 5); ("hCycles", JNum 2);
               ("curveMethod", JStr "sine"); ("format", JStr "css-hsl")]) "total" = JNum x /\
    Number.isInteger x = true /\ (3 <=? x)%float = true /\ JNum 5 = JNum x.
Proof.
  apply (proj1 (generate_counts_are_bounded
                  (JObj [("total", JNum 5); ("hCycles", JNum 2);
                         ("curveMethod", JStr "sine"); ("format", JStr "css-hsl")])
                  (JObj [("total", JNum 5); ("hCycles", JNum 2);
                         ("curveMethod", JStr "sine"); ("format", JStr "css-hsl")])
                  eq_refl)).
Defined.

(** X5.  [generate], the hues: a canonical [hStart] is the number given, between
    0 and 360, and a canonical [hueList] is the array given, of numbers
    between 0 and 360; either may be absent. *)
Theorem generate_hues_are_degrees (raw parsed : jsval) :
  Zod.parse (Zod.z_object (parameters Rampensau.generate)) raw = Zod.Ok parsed ->
  (get parsed "hStart" = get raw "hStart" /\
   (get raw "hStart" = JUndefined \/ between 0 360 (get raw "hStart") = true)) /\
  (get parsed "hueList" = get raw "hueList" /\
   (get raw "hueList" = JUndefined \/
    exists hues : list jsval,
      get raw "hueList" = JArr hues /\ forallb (between 0 360) hues = true)).
Proof.
  intros Hp. split.
  - destruct (ZodFacts.parse_object_field _ raw parsed "hStart" _
                NoDup_generate_parameters (or_intror (or_introl eq_refl)) Hp) as [Hst ->].
    change (Zod.describe "Starting hue (°)." (Zod.max 360 (Zod.min 0 Zod.z_number)))
      with (Zod.describe "Starting hue (°)." (Zod.number [Zod.Min 0; Zod.Max 360])) in *.
    apply CanonicalFacts.optional_valid in Hst as [[-> ->] | (_ & Hst & ->)]; [auto |].
    rewrite SchemaFacts.parse_describe in *.
    destruct (SchemaFacts.bounded_valid 0 360 _ _ eq_refl eq_refl Hst) as [Hb ->]. auto.
  - destruct (ZodFacts.parse_object_field _ raw parsed "hueList" _
                NoDup_generate_parameters
                ltac:(cbn; do 4 right; left; reflexivity) Hp) as [Hst ->].
    apply CanonicalFacts.optional_valid in Hst as [[-> ->] | (_ & Hst & ->)]; [auto |].
    rewrite SchemaFacts.parse_describe in *.
    change (Zod.z_array (Zod.max 360 (Zod.min 0 Zod.z_number)))
      with (Zod.array (Zod.number [Zod.Min 0; Zod.Max 360]) None) in *.
    split.
    + apply (SchemaFacts.array_passes _ (CanonicalFacts.number_passes _)), Hst.
    + right.
      apply (SchemaFacts.array_valid _ (between 0 360)
               (fun p d => CanonicalFacts.bounded_iff 0 360 p d eq_refl eq_refl)) in Hst.
      exact Hst.
Qed.

(** The theorem at the third of the tool's examples. *)
Lemma generate_hues_are_degrees_witness :
  exists hues : list jsval,
    JArr [JNum 120; JNum 140; JNum 160; JNum 180; JNum 200] = JArr hues /\
    forallb (between 0 360) hues = true.
Proof.
  destruct (generate_hues_are_degrees
              (JObj [("total", JNum 5);
                     ("hueList", JArr [JNum 120; JNum 140; JNum 160; JNum 180; JNum 200]);
                     ("format", JStr "css")])
              (JObj [("total", JNum 5);
                     ("hueList", JArr [JNum 120; JNum 140; JNum 160; JNum 180; JNum 200]);
                     ("format", JStr "css-hsl")])
              eq_refl) as [_ [_ [H | H]]].
  - discriminate H.
  - exact H.
Defined.

(** X6.  [generate], the fractions: a canonical [sRange] or [lRange] is a pair
    of numbers between 0 and 1, and a canonical [hStartCenter] is a number
    between 0 and 1, whichever of the two scales the caller used. *)
Theorem generate_ranges_are_fractions (raw parsed : jsval) :
  Zod.parse (Zod.z_object (parameters Rampensau.generate)) raw = Zod.Ok parsed ->
  (forall k : string,
     k = "sRange" \/ k = "lRange" ->
     (get raw k = JUndefined /\ get parsed k = JUndefined) \/
     exists lo hi : jsval,
       get parsed k = JArr [lo; hi] /\
       between 0 1 lo = true /\ between 0 1 hi = true) /\
  ((get raw "hStartCenter" = JUndefined /\ get parsed "hStartCenter" = JUndefined) \/
   between 0 1 (get parsed "hStartCenter") = true).
Proof.
  intros Hp. split.
  - intros k [-> | ->].
    + destruct (ZodFacts.parse_object_field _ raw parsed "sRange" _
                  NoDup_generate_parameters
                  ltac:(cbn; do 5 right; left; reflexivity) Hp) as [Hst ->].
      rewrite SchemaFacts.parse_describe in *.
      apply CanonicalFacts.optional_valid in Hst as [[-> ->] | (_ & Hst & ->)]; [auto |].
      right. apply CanonicalFacts.RangeTuple_units, Hst.
    + destruct (ZodFacts.parse_object_field _ raw parsed "lRange" _
                  NoDup_generate_parameters
                  ltac:(cbn; do 6 right; left; reflexivity) Hp) as [Hst ->].
      rewrite SchemaFacts.parse_describe in *.
      apply CanonicalFacts.optional_valid in Hst as [[-> ->] | (_ & Hst & ->)]; [auto |].
      right. apply CanonicalFacts.RangeTuple_units, Hst.
  - destruct (ZodFacts.parse_object_field _ raw parsed "hStartCenter" _
                NoDup_generate_parameters
                ltac:(cbn; do 2 right; left; reflexivity) Hp) as [Hst ->].
    apply CanonicalFacts.optional_valid in Hst as [[-> ->] | (_ & Hst & ->)]; [auto |].
    rewrite SchemaFacts.parse_describe in *.
    right. apply Norm01Facts.norm01_unit, Hst.
Qed.

(** The theorem on ranges given in per cent. *)
Lemma generate_ranges_are_fractions_witness :
  exists lo hi : jsval,
    JArr [JNum 0.5; JNum 1] = JArr [lo; hi] /\
    between 0 1 lo = true /\ between 0 1 hi = true.
Proof.
  destruct (proj1 (generate_ranges_are_fractions
                     (JObj [("total", JNum 8); ("hStart", JNum 220);
                            ("sRange", JArr [JNum 50; JNum 100]);
                            ("lRange", JArr [JNum 25; JNum 75])])
                     (JObj [("total", JNum 8); ("hStart", JNum 220);
                            ("sRange", JArr [JNum 0.5; JNum 1]);
                            ("lRange", JArr [JNum 0.25; JNum 0.75])])
                     eq_refl) "sRange" (or_introl eq_refl)) as [[H _] | H].
  - discriminate H.
  - exact H.
Defined.

(** * [generate]: what the engine is asked *)

Module GenerateFacts.

Import Zod.

(** The handler on arguments that validate. *)
Lemma generate_program (raw parsed : jsval) :
  parse (z_object Rampensau.generate_parameters) raw = Ok parsed ->
  execute Rampensau.generate raw =
  (ramp <- ask (ramp_call parsed) ;;
   out <- (if is_string "array" (Rampensau.format_of parsed)
           then Ret ramp
           else Array_map
                  (fun c =>
                     ask (colorToCSS c
                            (JStr (if is_string "css-hsl" (Rampensau.format_of parsed)
                                   then "hsl" else "oklch"))))
                  ramp) ;;
   Ret (Rampensau.asResult out)).
Proof.
  intros Hp. cbn [execute Rampensau.generate].
  unfold Rampensau.generate_execute, zparse. rewrite Hp. cbn [bind].
  unfold ramp_call. destruct (truthy (get parsed "curveMethod")); reflexivity.
Qed.

(** A field that fails its schema fails the object. *)
Lemma parse_object_field_invalid (shape : list (string * schema)) (raw : jsval)
    (k : string) (s : schema) :
  In (k, s) shape ->
  st (_parse s [Field k] (get raw k)) <> valid ->
  exists errs, parse (z_object shape) raw = Err errs.
Proof.
  intros Hin Hbad. unfold parse, z_object.
  destruct raw as [| | | | | | fields |]; try (eexists; reflexivity).
  rewrite ZodFacts.parse_object.
  destruct (st (mergeObject (read_fields shape [] fields))) eqn:E;
    try (eexists; reflexivity).
  exfalso. apply Hbad.
  apply ZodFacts.mergeObject_valid in E as [Hall _].
  rewrite Forall_forall in Hall.
  apply (Hall (k, Obj.has k fields, _parse s [Field k] (get (JObj fields) k))).
  unfold read_fields. apply in_map_iff. exists (k, s). auto.
Qed.

(** The generator is chosen by the presence of [curveMethod]. *)
Lemma ramp_call_generator (raw parsed : jsval) :
  parse (z_object Rampensau.generate_parameters) raw = Ok parsed ->
  ramp_call parsed =
  if is_undefined (get parsed "curveMethod")
  then generateColorRamp (options (ramp_call parsed))
  else generateColorRampWithCurve (options (ramp_call parsed)).
Proof.
  intros Hp. unfold ramp_call. rewrite (curveMethod_truthy raw parsed Hp).
  destruct (is_undefined (get parsed "curveMethod")); reflexivity.
Qed.

(** The generator's options are the canonical arguments without [format]. *)
Lemma ramp_call_options (raw parsed : jsval) :
  parse (z_object Rampensau.generate_parameters) raw = Ok parsed ->
  get (options (ramp_call parsed)) "format" = JUndefined /\
  forall k : string,
    k <> "format" -> get (options (ramp_call parsed)) k = get parsed k.
Proof.
  intros Hp.
  pose proof (curveMethod_truthy raw parsed Hp) as Htruthy.
  destruct (ZodFacts.parsed_is_object _ _ _ Hp) as (fs & out & _ & -> & _).
  unfold ramp_call. rewrite Htruthy.
  cbn [Rampensau.opts_of get] in *.
  destruct (Obj.lookup "curveMethod" out) as [cm |] eqn:Ecm.
  - destruct (is_undefined cm) eqn:Eundef; cbn [negb options get].
    + split.
      * rewrite ObjFacts.lookup_remove_other by discriminate.
        rewrite ObjFacts.lookup_remove_same. reflexivity.
      * intros k Hk. destruct (String.eqb_spec "curveMethod" k) as [<- | Hne].
        -- rewrite ObjFacts.lookup_remove_same, Ecm. destruct cm; try discriminate.
           reflexivity.
        -- rewrite !ObjFacts.lookup_remove_other by auto. reflexivity.
    + split.
      * rewrite ObjFacts.lookup_set_other by discriminate.
        rewrite ObjFacts.lookup_remove_other by discriminate.
        rewrite ObjFacts.lookup_remove_same. reflexivity.
      * intros k Hk. destruct (String.eqb_spec "curveMethod" k) as [<- | Hne].
        -- rewrite ObjFacts.lookup_set_same, Ecm. reflexivity.
        -- rewrite ObjFacts.lookup_set_other by auto.
           rewrite !ObjFacts.lookup_remove_other by auto. reflexivity.
  - cbn [is_undefined negb options get]. split.
    + rewrite ObjFacts.lookup_remove_other by discriminate.
      rewrite ObjFacts.lookup_remove_same. reflexivity.
    + intros k Hk. destruct (String.eqb_spec "curveMethod" k) as [<- | Hne].
      * rewrite ObjFacts.lookup_remove_same, Ecm. reflexivity.
      * rewrite !ObjFacts.lookup_remove_other by auto. reflexivity.
Qed.


End GenerateFacts.



(** X7.  [generate], the curve: when the canonical arguments have a
    [curveMethod] it is one of the four curve names, and the handler's
    first engine call is the curve-aware generator, whose options carry
    that name; without one the first engine call is the plain generator.
    An accepted [curveAccent] is a number between 0 and 5, and reaches the
    generator's options as given. *)
Theorem generate_curve_is_one_of_four (raw parsed : jsval) (eng : engine) :
  Zod.parse (Zod.z_object (parameters Rampensau.generate)) raw = Zod.Ok parsed ->
  (exists (opts : jsval) (rest : list call),
     get opts "curveMethod" = get parsed "curveMethod" /\
     get opts "curveAccent" = get raw "curveAccent" /\
     ((get parsed "curveMethod" = JUndefined /\
       calls eng (execute Rampensau.generate raw) = generateColorRamp opts :: rest) \/
      (exists m : string,
         In m [lame; "sine"; "power"; "linear"] /\
         get parsed "curveMethod" = JStr m /\
         calls eng (execute Rampensau.generate raw) =
         generateColorRampWithCurve opts :: rest))) /\
  (get raw "curveAccent" = JUndefined \/ between 0 5 (get raw "curveAccent") = true).
Proof.
  change (parameters Rampensau.generate) with Rampensau.generate_parameters.
  intros Hp.
  assert (get parsed "curveAccent" = get raw "curveAccent" /\
          (get raw "curveAccent" = JUndefined \/
           between 0 5 (get raw "curveAccent") = true)) as [Haccent Hbound].
  { destruct (ZodFacts.parse_object_field _ raw parsed "curveAccent" _
                NoDup_generate_parameters
                ltac:(cbn; do 8 right; left; reflexivity) Hp) as [Hst ->].
    apply CanonicalFacts.optional_valid in Hst as [[-> ->] | (_ & Hst & ->)]; [auto |].
    rewrite SchemaFacts.parse_describe in *.
    change (Zod.max 5 (Zod.min 0 Zod.z_number))
      with (Zod.number [Zod.Min 0; Zod.Max 5]) in *.
    destruct (SchemaFacts.bounded_valid 0 5 _ _ eq_refl eq_refl Hst) as [Hb ->]. auto. }
  split; [| exact Hbound].
  destruct (GenerateFacts.ramp_call_options raw parsed Hp) as [_ Hkeys].
  pose proof (GenerateFacts.ramp_call_generator raw parsed Hp) as Hgen.
  rewrite (GenerateFacts.generate_program raw parsed Hp).
  cbn [ask bind calls].
  exists (options (ramp_call parsed)). eexists.
  split; [apply Hkeys; discriminate |].
  split; [rewrite Hkeys by discriminate; exact Haccent |].
  destruct (ZodFacts.parse_object_field _ raw parsed "curveMethod" _
              NoDup_generate_parameters
              ltac:(cbn; do 7 right; left; reflexivity) Hp) as [Hst Hval].
  apply CanonicalFacts.optional_valid in Hst as [[_ E] | (_ & Hst & E)];
    rewrite E in Hval.
  - left. rewrite Hval in Hgen. cbn [is_undefined] in Hgen.
    split; [exact Hval |]. rewrite Hgen at 1. reflexivity.
  - right. rewrite SchemaFacts.parse_describe in *.
    destruct (SchemaFacts.enum_valid _ _ _ Hst) as (m & Eraw & Hin & Em).
    rewrite Em, Eraw in Hval. rewrite Hval in Hgen. cbn [is_undefined] in Hgen.
    exists m. split; [exact Hin |].
    split; [exact Hval | rewrite Hgen at 1; reflexivity].
Qed.

(** The theorem at the second of the tool's examples, against the engine
    double. *)
Lemma generate_curve_is_one_of_four_witness :
  exists (opts : jsval) (rest : list call),
    get opts "curveMethod" = JStr "sine" /\
    calls echo_engine
      (execute Rampensau.generate
         (JObj [("total", JNum 5); ("hCycles", JNum 2);
                ("curveMethod", JStr "sine"); ("format", JStr "css-hsl")])) =
    generateColorRampWithCurve opts :: rest.
Proof.
  destruct (proj1 (generate_curve_is_one_of_four
                     (JObj [("total", JNum 5); ("hCycles", JNum 2);
                            ("curveMethod", JStr "sine"); ("format", JStr "css-hsl")])
                     (JObj [("total", JNum 5); ("hCycles", JNum 2);
                            ("curveMethod", JStr "sine"); ("format", JStr "css-hsl")])
                     echo_engine eq_refl))
    as (opts & rest & Hm & _ & [[H _] | (m & _ & _ & Hcalls)]).
  - discriminate H.
  - exists opts, rest. split; [exact Hm | exact Hcalls].
Defined.

(** X8.  [generate] hands the canonical arguments on to the generator, all but
    [format]: the options of its first engine call have no [format], and
    every other property is the canonical argument of that name. *)
Theorem generate_options_are_the_canonical_arguments (raw parsed : jsval)
    (eng : engine) :
  Zod.parse (Zod.z_object (parameters Rampensau.generate)) raw = Zod.Ok parsed ->
  exists rest : list call,
    calls eng (execute Rampensau.generate raw) = ramp_call parsed :: rest /\
    get (options (ramp_call parsed)) "format" = JUndefined /\
    forall k : string,
      k <> "format" -> get (options (ramp_call parsed)) k = get parsed k.
Proof.
  change (parameters Rampensau.generate) with Rampensau.generate_parameters.
  intros Hp.
  rewrite (GenerateFacts.generate_program raw parsed Hp).
  cbn [ask bind calls]. eexists. split; [reflexivity |].
  apply (GenerateFacts.ramp_call_options raw parsed Hp).
Qed.

(** The theorem at the second of the tool's examples, against the engine
    double: the generator receives [total], [hCycles] and [curveMethod]. *)
Lemma generate_options_are_the_canonical_arguments_witness :
  exists rest : list call,
    calls echo_engine
      (execute Rampensau.generate
         (JObj [("total", JNum 5); ("hCycles", JNum 2);
                ("curveMethod", JStr "sine"); ("format", JStr "css-hsl")])) =
    generateColorRampWithCurve
      (JObj [("total", JNum 5); ("hCycles", JNum 2); ("curveMethod", JStr "sine")])
    :: rest.
Proof.
  destruct (generate_options_are_the_canonical_arguments
              (JObj [("total", JNum 5); ("hCycles", JNum 2);
                     ("curveMethod", JStr "sine"); ("format", JStr "css-hsl")])
              (JObj [("total", JNum 5); ("hCycles", JNum 2);
                     ("curveMethod", JStr "sine"); ("format", JStr "css-hsl")])
              echo_engine eq_refl) as (rest & H & _).
  exists rest. exact H.
Defined.

(** X9.  [generate] treats the format ["css"] as ["css-hsl"]: with either, on
    the same other arguments, the handler is the same program. *)
Theorem generate_css_is_css_hsl (fields : Obj.t) :
  execute Rampensau.generate (JObj (Obj.set "format" (JStr "css") fields)) =
  execute Rampensau.generate (JObj (Obj.set "format" (JStr "css-hsl") fields)).
Proof.
  cbn [execute Rampensau.generate]. unfold Rampensau.generate_execute, zparse.
  assert (Zod.parse (Zod.z_object Rampensau.generate_parameters)
            (JObj (Obj.set "format" (JStr "css") fields)) =
          Zod.parse (Zod.z_object Rampensau.generate_parameters)
            (JObj (Obj.set "format" (JStr "css-hsl") fields))) as ->; [| reflexivity].
  unfold Zod.parse, Zod.z_object. rewrite !ZodFacts.parse_object.
  assert (read_fields Rampensau.generate_parameters []
            (Obj.set "format" (JStr "css") fields) =
          read_fields Rampensau.generate_parameters []
            (Obj.set "format" (JStr "css-hsl") fields)) as ->; [| reflexivity].
  unfold read_fields. apply map_ext_in. intros [k s] Hin.
  cbn [fst snd]. unfold Obj.has, get.
  cbn in Hin.
  repeat (destruct Hin as [[= <- <-] | Hin];
          [rewrite !(ObjFacts.lookup_set_other "format") by discriminate; reflexivity |]).
  destruct Hin as [[= <- <-] | []].
  rewrite !ObjFacts.lookup_set_same. reflexivity.
Qed.

(** X10.  Without a [format], [generate] makes one engine call, the generator's,
    and its payload is the ramp as the engine returned it. *)
Theorem generate_without_format_returns_the_ramp (raw parsed : jsval)
    (eng : engine) :
  Zod.parse (Zod.z_object (parameters Rampensau.generate)) raw = Zod.Ok parsed ->
  get raw "format" = JUndefined ->
  run eng (execute Rampensau.generate raw) =
    Returned (Rampensau.asResult (eng (ramp_call parsed))) /\
  calls eng (execute Rampensau.generate raw) = [ramp_call parsed].
Proof.
  intros Hp Hraw.
  rewrite (GenerateFacts.generate_program raw parsed Hp).
  assert (Rampensau.format_of parsed = JStr "array") as ->.
  { unfold Rampensau.format_of.
    destruct (ZodFacts.parse_object_field _ raw parsed "format" _
                NoDup_generate_parameters
                ltac:(cbn; do 9 right; left; reflexivity) Hp) as [_ ->].
    rewrite Hraw. reflexivity. }
  split; reflexivity.
Qed.

(** The theorem at arguments that name a curve and no format, against the
    engine double. *)
Lemma generate_without_format_returns_the_ramp_witness :
  calls echo_engine
    (execute Rampensau.generate (JObj [("total", JNum 5); ("curveMethod", JStr "sine")])) =
  [generateColorRampWithCurve (JObj [("total", JNum 5); ("curveMethod", JStr "sine")])].
Proof.
  apply (generate_without_format_returns_the_ramp
           (JObj [("total", JNum 5); ("curveMethod", JStr "sine")])
           (JObj [("total", JNum 5); ("curveMethod", JStr "sine")])
           echo_engine eq_refl eq_refl).
Defined.

(** X11.  [generate] refuses a [total] below 3 and a [total] that is not an
    integer, whatever the other arguments are: it throws the validation
    error, and the engine is not called. *)
Theorem generate_refuses_a_small_total (fields : Obj.t) (x : float) (eng : engine) :
  Obj.lookup "total" fields = Some (JNum x) ->
  (x <? 3)%float = true \/ Number.isInteger x = false ->
  exists errs : list Zod.issue,
    run eng (execute Rampensau.generate (JObj fields)) = Thrown (ZodError errs) /\
    calls eng (execute Rampensau.generate (JObj fields)) = [].
Proof.
  intros Hx Hbad.
  destruct (GenerateFacts.parse_object_field_invalid Rampensau.generate_parameters
              (JObj fields) "total" _ (or_introl eq_refl)) as [errs Herr].
  - cbn [get]. rewrite Hx.
    rewrite SchemaFacts.parse_default, SchemaFacts.parse_describe.
    change (Zod.min 3 (Zod.int Zod.z_number)) with (Zod.number [Zod.Int; Zod.Min 3]).
    intros Hst.
    destruct (SchemaFacts.number_valid _ _ _ Hst) as (y & [= <-] & _ & Hchecks & _).
    cbn [flat_map Zod.check_number] in Hchecks.
    destruct Hbad as [Hlt | Hint].
    + rewrite Hlt in Hchecks. destruct (Number.isInteger x); discriminate Hchecks.
    + rewrite Hint in Hchecks. discriminate Hchecks.
  - exists errs. cbn [execute Rampensau.generate].
    unfold Rampensau.generate_execute, zparse. rewrite Herr. split; reflexivity.
Qed.

(** The theorem at a total of 2, against the engine double. *)
Lemma generate_refuses_a_small_total_witness :
  exists errs : list Zod.issue,
    run echo_engine (execute Rampensau.generate (JObj [("total", JNum 2)])) =
      Thrown (ZodError errs) /\
    calls echo_engine (execute Rampensau.generate (JObj [("total", JNum 2)])) = [].
Proof.
  apply (generate_refuses_a_small_total [("total", JNum 2)] 2 echo_engine eq_refl).
  left. reflexivity.
Defined.

(** X12.  When a CSS format is asked for and the engine's ramp is not an array
    (nor any other object), [generate] throws a [TypeError] after the
    generator call: there is nothing to convert. *)
Theorem generate_needs_an_array_to_convert (raw parsed : jsval) (eng : engine) :
  Zod.parse (Zod.z_object (parameters Rampensau.generate)) raw = Zod.Ok parsed ->
  Rampensau.format_of parsed <> JStr "array" ->
  primitive (eng (ramp_call parsed)) = true ->
  run eng (execute Rampensau.generate raw) = Thrown TypeError /\
  calls eng (execute Rampensau.generate raw) = [ramp_call parsed].
Proof.
  intros Hp Hformat Hprim.
  rewrite (GenerateFacts.generate_program raw parsed Hp).
  assert (is_string "array" (Rampensau.format_of parsed) = false) as ->.
  { destruct (format_resolved raw parsed Hp) as [E | [E | E]];
      [contradiction | rewrite E | rewrite E]; reflexivity. }
  cbn [ask bind run calls].
  destruct (eng (ramp_call parsed)); try discriminate Hprim; split; reflexivity.
Qed.

(** The theorem against an engine that answers every call with [undefined]. *)
Lemma generate_needs_an_array_to_convert_witness :
  run (fun _ => JUndefined)
    (execute Rampensau.generate (JObj [("total", JNum 5); ("format", JStr "css")])) =
  Thrown TypeError.
Proof.
  apply (generate_needs_an_array_to_convert
           (JObj [("total", JNum 5); ("format", JStr "css")])
           (JObj [("total", JNum 5); ("format", JStr "css-hsl")])
           (fun _ => JUndefined) eq_refl).
  - discriminate.
  - reflexivity.
Defined.

(** * Validating twice *)

Module StableFacts.

Import Zod.

Lemma passes_stable (s : schema) : passes_through s -> stable s.
Proof.
  intros Hs p d H. rewrite (Hs p d H). split; [exact H | exact (Hs p d H)].
Qed.

Lemma stable_describe (text : string) (s : schema) :
  stable s -> stable (describe text s).
Proof. intros Hs p d. exact (Hs p d). Qed.

Lemma stable_optional (s : schema) : stable s -> stable (optional s).
Proof.
  intros Hs p d. rewrite (SchemaFacts.parse_optional s p d).
  destruct d; try (split; reflexivity);
    (intros H; rewrite SchemaFacts.parse_optional;
     destruct (value (_parse s p _)) eqn:E;
     [split; reflexivity | rewrite <- E; apply Hs, H ..]).
Qed.

Lemma stable_default (dflt : jsval) (s : schema) :
  stable s -> defined s -> stable (default dflt s).
Proof.
  intros Hs Hd p d. rewrite (SchemaFacts.parse_default dflt s p d).
  destruct d; intros H; rewrite SchemaFacts.parse_default;
    (destruct (value (_parse s p _)) eqn:E;
     [exfalso; apply (Hd _ _ H E) | rewrite <- E; apply Hs, H ..]).
Qed.

Lemma number_defined (checks : list number_check) : defined (number checks).
Proof.
  intros p d H. destruct (SchemaFacts.number_valid _ _ _ H) as (x & -> & _ & _ & ->).
  discriminate.
Qed.

Lemma defined_describe (text : string) (s : schema) :
  defined s -> defined (describe text s).
Proof. intros Hs p d. exact (Hs p d). Qed.

Lemma enum_passes (values : list string) : passes_through (enum values).
Proof.
  intros p d H. destruct (SchemaFacts.enum_valid _ _ _ H) as (v & _ & _ & Hval).
  exact Hval.
Qed.

Lemma any_passes : passes_through any.
Proof. intros p d _. reflexivity. Qed.

Lemma parse_array_of (element : schema) (len : option nat) (p : list key)
    (items : list jsval) :
  _parse (array element len) p (JArr items) =
  mergeArray (length_issues len p items) (elements element p 0 items).
Proof. destruct len; reflexivity. Qed.

Lemma array_of_passes (element : schema) (len : option nat) :
  passes_through element -> passes_through (array element len).
Proof.
  intros He p d H.
  destruct d as [| | | | | items | |]; try (cbn [_parse INVALID st] in H; discriminate).
  rewrite parse_array_of in *.
  apply SchemaFacts.mergeArray_valid in H as (_ & Hall & ->).
  rewrite (SchemaFacts.elements_pass element He) by assumption. reflexivity.
Qed.

Lemma stable_tuple2 (s1 s2 : schema) :
  stable s1 -> stable s2 -> stable (tuple [s1; s2]).
Proof.
  intros H1 H2 p d H.
  destruct (proj1 (Norm01Facts.tuple2_valid _ _ _ _) H) as (a & b & -> & Ha & Hb).
  rewrite (Norm01Facts.tuple2_value _ _ _ _ _ H).
  destruct (H1 _ _ Ha) as [Ha1 Ha2]. destruct (H2 _ _ Hb) as [Hb1 Hb2].
  assert (st (_parse (tuple [s1; s2]) p
                (JArr [value (_parse s1 (p ++ [Index 0])%list a);
                       value (_parse s2 (p ++ [Index 1])%list b)])) = valid) as Hst.
  { apply Norm01Facts.tuple2_valid. do 2 eexists. split; [reflexivity | auto]. }
  split; [exact Hst |].
  rewrite (Norm01Facts.tuple2_value _ _ _ _ _ Hst), Ha2, Hb2. reflexivity.
Qed.

(** An enumeration with a default and a transform accepts the default for
    a missing input and the enumerated strings, and returns the
    transform's result. *)
Lemma transformed_enum_valid (fn : jsval -> jsval) (dflt : jsval)
    (values : list string) (p : list key) (d : jsval) :
  st (_parse (transform fn (default dflt (enum values))) p d) = valid ->
  exists v : string,
    In v values /\
    (d = JStr v \/ (d = JUndefined /\ dflt = JStr v)) /\
    value (_parse (transform fn (default dflt (enum values))) p d) = fn (JStr v).
Proof.
  unfold transform. cbn [_parse]. fold (default dflt (enum values)).
  rewrite SchemaFacts.parse_default.
  destruct d as [| | | | v | | |];
    try (cbn [_parse INVALID st]; discriminate).
  - destruct (st (_parse (enum values) p dflt)) eqn:E; cbn [st INVALID]; try discriminate.
    intros _. destruct (SchemaFacts.enum_valid _ _ _ E) as (v & -> & Hin & ->).
    exists v. cbn [value]. auto.
  - destruct (st (_parse (enum values) p (JStr v))) eqn:E; cbn [st INVALID]; try discriminate.
    intros _. destruct (SchemaFacts.enum_valid _ _ _ E) as (v' & [= <-] & Hin & ->).
    exists v. cbn [value]. auto.
Qed.

Lemma Format_stable : stable Rampensau.Format.
Proof.
  unfold Rampensau.Format. apply stable_describe. intros p d H.
  destruct (transformed_enum_valid _ _ _ _ _ H) as (v & Hin & _ & ->).
  cbn in Hin. repeat (destruct Hin as [<- | Hin]; [split; reflexivity |]). contradiction.
Qed.

Lemma toCSS_mode_stable : stable Rampensau.toCSS_mode.
Proof.
  unfold Rampensau.toCSS_mode. apply stable_optional, stable_describe. intros p d H.
  destruct (transformed_enum_valid _ _ _ _ _ H) as (v & Hin & _ & ->).
  cbn in Hin. repeat (destruct Hin as [<- | Hin]; [split; reflexivity |]). contradiction.
Qed.

Lemma RangeTuple_stable : stable Rampensau.RangeTuple.
Proof.
  unfold Rampensau.RangeTuple. apply stable_describe, stable_tuple2;
    apply Norm01Facts.norm01_stable.
Qed.

(** ** Objects *)

Lemma lookup_set_fields (k : string) (a : bool) (r : outcome)
    (pairs : list (string * bool * outcome)) :
  NoDup (map (fun x => fst (fst x)) pairs) -> In (k, a, r) pairs ->
  Obj.lookup k (set_fields pairs) =
  if negb (is_undefined (value r)) || a then Some (value r) else None.
Proof.
  induction pairs as [| [[k' a'] r'] rest IH]; intros Hnd Hin; [contradiction |].
  cbn in Hnd. inversion Hnd as [| ? ? Hnotin Hnd']; subst.
  cbn [set_fields flat_map]. fold (set_fields rest).
  destruct Hin as [Heq | Hin].
  - injection Heq as -> -> ->.
    destruct (negb (is_undefined (value r)) || a) eqn:E; cbn [app Obj.lookup].
    + rewrite String.eqb_refl. reflexivity.
    + apply (ZodFacts.lookup_set_fields_other k rest Hnotin).
  - assert (k' <> k) as Hne.
    { intros ->. apply Hnotin.
      apply in_map_iff. exists (k, a, r). split; [reflexivity | exact Hin]. }
    destruct (negb (is_undefined (value r')) || a'); cbn [app Obj.lookup];
      rewrite ?(proj2 (String.eqb_neq k' k) Hne); apply IH; assumption.
Qed.

Lemma mergeObject_all_valid (pairs : list (string * bool * outcome)) :
  Forall (fun x => st (snd x) = valid) pairs ->
  st (mergeObject pairs) = valid /\ value (mergeObject pairs) = JObj (set_fields pairs).
Proof.
  intros H. unfold mergeObject.
  rewrite SchemaFacts.fold_worst_all_valid; [split; reflexivity |].
  rewrite map_map, Forall_map. exact H.
Qed.

(** An object schema whose fields are stable accepts the object it
    returned, and returns it again. *)
Lemma object_idempotent (shape : list (string * schema)) (raw parsed : jsval) :
  NoDup (map fst shape) ->
  Forall (fun ks => stable (snd ks)) shape ->
  parse (z_object shape) raw = Ok parsed ->
  parse (z_object shape) parsed = Ok parsed.
Proof.
  intros Hnd Hstable Hp.
  destruct (ZodFacts.parsed_is_object _ _ _ Hp) as (fields & out & -> & -> & ->).
  assert (forall k s, In (k, s) shape ->
            let r := _parse s [Field k] (get (JObj fields) k) in
            st r = valid /\
            Obj.lookup k (set_fields (read_fields shape [] fields)) =
            if negb (is_undefined (value r)) || Obj.has k fields
            then Some (value r) else None) as Hfield.
  { intros k s Hin r. split.
    - apply (ZodFacts.parse_object_field shape _ _ k s Hnd Hin Hp).
    - apply lookup_set_fields.
      + unfold read_fields. rewrite map_map. cbn [fst]. exact Hnd.
      + unfold read_fields. apply in_map_iff. exists (k, s). auto. }
  rewrite Forall_forall in Hstable.
  apply Norm01Facts.parse_Ok. unfold z_object. rewrite ZodFacts.parse_object.
  set (out := set_fields (read_fields shape [] fields)) in *.
  assert (Forall (fun x => st (snd x) = valid) (read_fields shape [] out)) as Hall.
  { unfold read_fields. rewrite Forall_map. apply Forall_forall. intros [k s] Hin.
    cbn [fst snd]. destruct (Hfield k s Hin) as [Hst Hlook].
    unfold get. rewrite Hlook.
    destruct (negb (is_undefined (value _)) || Obj.has k fields) eqn:E.
    - apply (Hstable (k, s) Hin), Hst.
    - apply orb_false_iff in E as [E _]. apply negb_false_iff in E.
      destruct (value (_parse s [Field k] (get (JObj fields) k))) eqn:Ev;
        try discriminate E.
      rewrite <- Ev. apply (Hstable (k, s) Hin), Hst. }
  destruct (mergeObject_all_valid _ Hall) as [-> ->]. split; [reflexivity |].
  f_equal. unfold out at 2. unfold set_fields, read_fields.
  rewrite !flat_map_concat_map, !map_map. f_equal.
  apply map_ext_in. intros [k s] Hin. cbn [fst snd].
  destruct (Hfield k s Hin) as [Hst Hlook].
  assert (get (JObj out) k = value (_parse s [Field k] (get (JObj fields) k))) as Hget.
  { unfold get at 1. rewrite Hlook.
    destruct (negb (is_undefined (value _)) || Obj.has k fields) eqn:E; [reflexivity |].
    apply orb_false_iff in E as [E _]. apply negb_false_iff in E.
    destruct (value (_parse s [Field k] (get (JObj fields) k))); try discriminate E.
    reflexivity. }
  rewrite Hget. cbn [app].
  destruct (Hstable (k, s) Hin _ _ Hst) as [_ Hv]. cbn [snd] in Hv. rewrite Hv.
  unfold Obj.has at 1. rewrite Hlook.
  destruct (negb (is_undefined (value _))), (Obj.has k fields); reflexivity.
Qed.

Ltac stable_field :=
  cbn [snd];
  repeat lazymatch goal with
    | |- stable Rampensau.norm01 => exact Norm01Facts.norm01_stable
    | |- stable Rampensau.RangeTuple => exact RangeTuple_stable
    | |- stable Rampensau.Format => exact Format_stable
    | |- stable Rampensau.toCSS_mode => exact toCSS_mode_stable
    | |- stable (describe _ _) => apply stable_describe
    | |- stable (optional _) => apply stable_optional
    | |- stable (default _ _) => apply stable_default
    | |- stable _ => apply passes_stable
    | |- defined (describe _ _) => apply defined_describe
    | |- defined _ => apply number_defined
    | |- passes_through (enum _) => apply enum_passes
    | |- passes_through any => apply any_passes
    | |- passes_through _ =>
        first [apply CanonicalFacts.number_passes | apply array_of_passes]
    end.

Lemma tools_stable (t : Tool) :
  In t Rampensau.tools -> Forall (fun ks => stable (snd ks)) (parameters t).
Proof.
  intros Hin. cbn in Hin.
  destruct Hin as [<- | [<- | [<- | [<- | [<- | [<- | []]]]]]];
    repeat (constructor; [stable_field |]); constructor.
Qed.

Lemma tools_distinct_keys (t : Tool) :
  In t Rampensau.tools -> NoDup (map fst (parameters t)).
Proof.
  intros Hin. cbn in Hin.
  destruct Hin as [<- | [<- | [<- | [<- | [<- | [<- | []]]]]]]; distinct_keys.
Qed.

End StableFacts.

(** X13.  Validation is idempotent, for every tool of the registry: canonical
    arguments validate, and validate to themselves.  A handler that
    validates what a host has validated already sees the same arguments. *)
Theorem validation_is_idempotent (t : Tool) (raw parsed : jsval) :
  In t Rampensau.tools ->
  Zod.parse (Zod.z_object (parameters t)) raw = Zod.Ok parsed ->
  Zod.parse (Zod.z_object (parameters t)) parsed = Zod.Ok parsed.
Proof.
  intros Hin. apply StableFacts.object_idempotent.
  - apply StableFacts.tools_distinct_keys, Hin.
  - apply StableFacts.tools_stable, Hin.
Qed.

(** The theorem at [generate] and the third of its examples, with a range
    in per cent added. *)
Lemma validation_is_idempotent_witness :
  Zod.parse (Zod.z_object (parameters Rampensau.generate))
    (JObj [("total", JNum 5);
           ("hueList", JArr [JNum 120; JNum 140; JNum 160; JNum 180; JNum 200]);
           ("sRange", JArr [JNum 0.5; JNum 1]);
           ("format", JStr "css-hsl")]) =
  Zod.Ok
    (JObj [("total", JNum 5);
           ("hueList", JArr [JNum 120; JNum 140; JNum 160; JNum 180; JNum 200]);
           ("sRange", JArr [JNum 0.5; JNum 1]);
           ("format", JStr "css-hsl")]).
Proof.
  apply (validation_is_idempotent Rampensau.generate
           (JObj [("total", JNum 5); ("format", JStr "css");
                  ("sRange", JArr [JNum 50; JNum 100]);
                  ("hueList", JArr [JNum 120; JNum 140; JNum 160; JNum 180; JNum 200])])).
  - cbn. tauto.
  - reflexivity.
Defined.

(** X14.  [generate] and [uniqueRandomHues], which validate their argument
    themselves, are the same program on raw arguments and on the canonical
    arguments a host obtained from them. *)
Theorem validating_handlers_accept_canonical_arguments (t : Tool)
    (raw parsed : jsval) :
  t = Rampensau.generate \/ t = Rampensau.uniqueRandomHuesTool ->
  Zod.parse (Zod.z_object (parameters t)) raw = Zod.Ok parsed ->
  execute t parsed = execute t raw.
Proof.
  intros Ht Hp.
  assert (Zod.parse (Zod.z_object (parameters t)) parsed = Zod.Ok parsed) as Hpp.
  { apply (StableFacts.object_idempotent _ raw).
    - apply StableFacts.tools_distinct_keys. destruct Ht as [-> | ->]; cbn; tauto.
    - apply StableFacts.tools_stable. destruct Ht as [-> | ->]; cbn; tauto.
    - exact Hp. }
  destruct Ht as [-> | ->]; cbn [execute Rampensau.generate Rampensau.uniqueRandomHuesTool] in *;
    unfold Rampensau.generate_execute, Rampensau.uniqueRandomHues_execute, zparse;
    cbn [parameters Rampensau.generate Rampensau.uniqueRandomHuesTool] in Hp, Hpp;
    rewrite Hp, Hpp; reflexivity.
Qed.

(** The theorem at [generate], on arguments with the alias ["css"]. *)
Lemma validating_handlers_accept_canonical_arguments_witness :
  execute Rampensau.generate (JObj [("total", JNum 5); ("format", JStr "css-hsl")]) =
  execute Rampensau.generate (JObj [("total", JNum 5); ("format", JStr "css")]).
Proof.
  apply (validating_handlers_accept_canonical_arguments Rampensau.generate
           (JObj [("total", JNum 5); ("format", JStr "css")])
           (JObj [("total", JNum 5); ("format", JStr "css-hsl")])).
  - left. reflexivity.
  - reflexivity.
Defined.

(** * [uniqueRandomHues], [colorHarmony], [harveyHue] *)

(** X15.  [uniqueRandomHues] asks the engine once, for [uniqueRandomHues] of the
    canonical arguments, and returns its answer.  A [total] that was not
    given stays [undefined]: the declared default of 5 is not filled in. *)
Theorem uniqueRandomHues_asks_the_engine_once (raw parsed : jsval) (eng : engine) :
  Zod.parse (Zod.z_object (parameters Rampensau.uniqueRandomHuesTool)) raw =
    Zod.Ok parsed ->
  run eng (execute Rampensau.uniqueRandomHuesTool raw) =
    Returned (Rampensau.asResult (eng (uniqueRandomHues parsed))) /\
  calls eng (execute Rampensau.uniqueRandomHuesTool raw) = [uniqueRandomHues parsed] /\
  (get raw "total" = JUndefined -> get parsed "total" = JUndefined).
Proof.
  intros Hp. cbn [execute Rampensau.uniqueRandomHuesTool].
  unfold Rampensau.uniqueRandomHues_execute, zparse.
  cbn [parameters Rampensau.uniqueRandomHuesTool] in Hp. rewrite Hp.
  split; [reflexivity | split; [reflexivity |]].
  intros Hraw.
  destruct (ZodFacts.parse_object_field _ raw parsed "total" _
              (StableFacts.tools_distinct_keys Rampensau.uniqueRandomHuesTool
                 ltac:(cbn; tauto))
              (or_intror (or_introl eq_refl)) Hp) as [_ ->].
  rewrite Hraw. reflexivity.
Qed.

(** The theorem at the empty argument object, against the engine double:
    the engine receives no [total]. *)
Lemma uniqueRandomHues_asks_the_engine_once_witness :
  calls echo_engine (execute Rampensau.uniqueRandomHuesTool (JObj [])) =
  [uniqueRandomHues (JObj [])].
Proof.
  apply (uniqueRandomHues_asks_the_engine_once (JObj []) (JObj []) echo_engine eq_refl).
Defined.

(** X16.  [uniqueRandomHues]: the canonical [startHue] and [minHueDiffAngle] are
    the numbers given, between 0 and 360, and the canonical [total] is the
    integer given, at least 1; each may be absent. *)
Theorem uniqueRandomHues_arguments_are_bounded (raw parsed : jsval) :
  Zod.parse (Zod.z_object (parameters Rampensau.uniqueRandomHuesTool)) raw =
    Zod.Ok parsed ->
  (forall k : string,
     k = "startHue" \/ k = "minHueDiffAngle" ->
     get parsed k = get raw k /\
     (get raw k = JUndefined \/ between 0 360 (get raw k) = true)) /\
  (get parsed "total" = get raw "total" /\
   (get raw "total" = JUndefined \/
    exists n : float,
      get raw "total" = JNum n /\
      Number.isInteger n = true /\ (1 <=? n)%float = true)).
Proof.
  intros Hp.
  pose proof (StableFacts.tools_distinct_keys Rampensau.uniqueRandomHuesTool
                ltac:(cbn; tauto)) as Hnd.
  split.
  - intros k [-> | ->].
    + destruct (ZodFacts.parse_object_field _ raw parsed "startHue" _ Hnd
                  (or_introl eq_refl) Hp) as [Hst ->].
      apply CanonicalFacts.optional_valid in Hst as [[-> ->] | (_ & Hst & ->)]; [auto |].
      rewrite SchemaFacts.parse_describe in *.
      change (Zod.max 360 (Zod.min 0 Zod.z_number))
        with (Zod.number [Zod.Min 0; Zod.Max 360]) in *.
      destruct (SchemaFacts.bounded_valid 0 360 _ _ eq_refl eq_refl Hst) as [Hb ->]. auto.
    + destruct (ZodFacts.parse_object_field _ raw parsed "minHueDiffAngle" _ Hnd
                  (or_intror (or_intror (or_introl eq_refl))) Hp) as [Hst ->].
      apply CanonicalFacts.optional_valid in Hst as [[-> ->] | (_ & Hst & ->)]; [auto |].
      rewrite SchemaFacts.parse_describe in *.
      change (Zod.max 360 (Zod.min 0 Zod.z_number))
        with (Zod.number [Zod.Min 0; Zod.Max 360]) in *.
      destruct (SchemaFacts.bounded_valid 0 360 _ _ eq_refl eq_refl Hst) as [Hb ->]. auto.
  - destruct (ZodFacts.parse_object_field _ raw parsed "total" _ Hnd
                (or_intror (or_introl eq_refl)) Hp) as [Hst ->].
    apply CanonicalFacts.optional_valid in Hst as [[-> ->] | (Hdef & Hst & ->)]; [auto |].
    rewrite SchemaFacts.parse_default in *.
    destruct (get raw "total") eqn:E; [contradiction | | | | | | |];
    rewrite ?SchemaFacts.parse_describe in *;
    change (Zod.min 1 (Zod.int Zod.z_number)) with (Zod.number [Zod.Int; Zod.Min 1]) in *;
    destruct (SchemaFacts.integer_at_least_valid 1 _ _ eq_refl Hst)
      as (n & Hn & Hint & Hmin & ->);
    (split; [reflexivity | right; exists n; auto]).
Qed.

(** The theorem at a request for seven hues around 180 degrees. *)
Lemma uniqueRandomHues_arguments_are_bounded_witness :
  get (JObj [("startHue", JNum 180); ("total", JNum 7)]) "total" = JUndefined \/
  exists n : float,
    get (JObj [("startHue", JNum 180); ("total", JNum 7)]) "total" = JNum n /\
    Number.isInteger n = true /\ (1 <=? n)%float = true.
Proof.
  apply (uniqueRandomHues_arguments_are_bounded
           (JObj [("startHue", JNum 180); ("total", JNum 7)])
           (JObj [("startHue", JNum 180); ("total", JNum 7)]) eq_refl).
Defined.

(** X17.  [colorHarmony] reads the member of the engine's table that [method]
    names and calls it on [baseHue] alone.  When the member is not a
    function, a [TypeError] is thrown and nothing is called. *)
Theorem colorHarmony_calls_the_named_member (fields : Obj.t) (eng : engine) :
  let method := get (JObj fields) "method" in
  let baseHue := get (JObj fields) "baseHue" in
  let member := eng (colorHarmonies method) in
  (is_function member = true ->
   run eng (execute Rampensau.colorHarmony (JObj fields)) =
     Returned (Rampensau.asResult (eng (apply member [baseHue]))) /\
   calls eng (execute Rampensau.colorHarmony (JObj fields)) =
     [colorHarmonies method; apply member [baseHue]]) /\
  (is_function member = false ->
   run eng (execute Rampensau.colorHarmony (JObj fields)) = Thrown TypeError /\
   calls eng (execute Rampensau.colorHarmony (JObj fields)) = [colorHarmonies method]).
Proof.
  intros method baseHue member.
  cbn [execute Rampensau.colorHarmony Rampensau.colorHarmony_execute destructure].
  fold method baseHue. cbn [ask bind run calls]. fold member.
  split; intros H; destruct member; try discriminate H; split; reflexivity.
Qed.

(** X18.  [colorHarmony]: an accepted [method] is one of the eight harmonies and
    an accepted [baseHue] a number between 0 and 360, both handed on as
    given; the handler reads that harmony from the engine's table and
    calls it on the hue. *)
Theorem colorHarmony_accepts_a_harmony_and_a_hue (raw parsed : jsval) :
  Zod.parse (Zod.z_object (parameters Rampensau.colorHarmony)) raw = Zod.Ok parsed ->
  exists method : string,
    In method Rampensau.harmony_methods /\
    get raw "method" = JStr method /\
    between 0 360 (get raw "baseHue") = true /\
    execute Rampensau.colorHarmony parsed =
      (harmony <- ask (colorHarmonies (JStr method)) ;;
       hues <- invoke harmony [get raw "baseHue"] ;;
       Ret (Rampensau.asResult hues)).
Proof.
  intros Hp.
  pose proof (StableFacts.tools_distinct_keys Rampensau.colorHarmony
                ltac:(cbn; tauto)) as Hnd.
  destruct (ZodFacts.parse_object_field _ raw parsed "method" _ Hnd
              (or_introl eq_refl) Hp) as [Hm Hmv].
  destruct (ZodFacts.parse_object_field _ raw parsed "baseHue" _ Hnd
              (or_intror (or_introl eq_refl)) Hp) as [Hb Hbv].
  rewrite SchemaFacts.parse_describe in *.
  change (Zod.max 360 (Zod.min 0 Zod.z_number))
    with (Zod.number [Zod.Min 0; Zod.Max 360]) in *.
  destruct (SchemaFacts.enum_valid _ _ _ Hm) as (method & Eraw & Hin & Em).
  destruct (SchemaFacts.bounded_valid 0 360 _ _ eq_refl eq_refl Hb) as [Hhue Eb].
  rewrite Em, Eraw in Hmv. rewrite Eb in Hbv.
  destruct (ZodFacts.parsed_is_object _ _ _ Hp) as (fs & out & _ & -> & _).
  exists method. repeat split; auto.
  cbn [execute Rampensau.colorHarmony Rampensau.colorHarmony_execute destructure].
  rewrite Hmv, Hbv. reflexivity.
Qed.

(** The theorem at the triadic harmony of 200 degrees. *)
Lemma colorHarmony_accepts_a_harmony_and_a_hue_witness :
  exists method : string,
    In method Rampensau.harmony_methods /\
    JStr "triadic" = JStr method /\
    between 0 360 (JNum 200) = true /\
    execute Rampensau.colorHarmony
      (JObj [("method", JStr "triadic"); ("baseHue", JNum 200)]) =
      (harmony <- ask (colorHarmonies (JStr method)) ;;
       hues <- invoke harmony [JNum 200] ;;
       Ret (Rampensau.asResult hues)).
Proof.
  apply (colorHarmony_accepts_a_harmony_and_a_hue
           (JObj [("method", JStr "triadic"); ("baseHue", JNum 200)])
           (JObj [("method", JStr "triadic"); ("baseHue", JNum 200)]) eq_refl).
Defined.

(** X19.  [harveyHue]: an accepted [h] is a number between 0 and 360, the one
    given, and the handler asks the engine once, for [harveyHue(h)]. *)
Theorem harveyHue_forwards_the_hue (raw parsed : jsval) (eng : engine) :
  Zod.parse (Zod.z_object (parameters Rampensau.harveyHueTool)) raw = Zod.Ok parsed ->
  get parsed "h" = get raw "h" /\
  between 0 360 (get raw "h") = true /\
  run eng (execute Rampensau.harveyHueTool parsed) =
    Returned (Rampensau.asResult (eng (harveyHue (get raw "h")))) /\
  calls eng (execute Rampensau.harveyHueTool parsed) = [harveyHue (get raw "h")].
Proof.
  intros Hp.
  destruct (ZodFacts.parse_object_field _ raw parsed "h" _
              (StableFacts.tools_distinct_keys Rampensau.harveyHueTool ltac:(cbn; tauto))
              (or_introl eq_refl) Hp) as [Hst Hval].
  rewrite SchemaFacts.parse_describe in *.
  change (Zod.max 360 (Zod.min 0 Zod.z_number))
    with (Zod.number [Zod.Min 0; Zod.Max 360]) in *.
  destruct (SchemaFacts.bounded_valid 0 360 _ _ eq_refl eq_refl Hst) as [Hb Hsame].
  rewrite Hsame in Hval.
  destruct (ZodFacts.parsed_is_object _ _ _ Hp) as (fs & out & _ & -> & _).
  cbn [execute Rampensau.harveyHueTool Rampensau.harveyHue_execute destructure].
  rewrite Hval. repeat split; auto.
Qed.

(** The theorem at a hue of 120, against the engine double. *)
Lemma harveyHue_forwards_the_hue_witness :
  calls echo_engine (execute Rampensau.harveyHueTool (JObj [("h", JNum 120)])) =
  [harveyHue (JNum 120)].
Proof.
  apply (harveyHue_forwards_the_hue (JObj [("h", JNum 120)]) (JObj [("h", JNum 120)])
           echo_engine eq_refl).
Defined.

(** * [toCSS]: what is accepted *)

Module ColourFacts.

Import Zod.

(** [z.number()] accepts the numbers other than NaN, at any path. *)
Lemma z_number_valid (p : list key) (d : jsval) :
  st (_parse z_number p d) = valid <-> is_number d = true.
Proof.
  destruct d as [| | | x | | | |]; cbn [_parse z_number is_number on_number INVALID st];
    try (split; discriminate).
  destruct (Number.isNaN x); cbn; split; congruence.
Qed.

Lemma Color3_valid (p : list key) (d : jsval) :
  st (_parse PaletteVariant.Color3 p d) = valid <-> is_colour d = true.
Proof.
  unfold PaletteVariant.Color3.
  change (z_array z_number |> length 3) with (array z_number (Some 3)).
  split.
  - destruct d as [| | | | | items | |]; try (cbn [_parse INVALID st]; discriminate).
    rewrite StableFacts.parse_array_of. intros H.
    apply SchemaFacts.mergeArray_valid in H as (Hown & Hall & _).
    destruct items as [| h [| s [| l [| extra rest]]]]; try discriminate Hown.
    rewrite !SchemaFacts.elements_cons in Hall.
    inversion Hall as [| ? ? Hh Hall1]; subst.
    inversion Hall1 as [| ? ? Hs Hall2]; subst.
    inversion Hall2 as [| ? ? Hl _]; subst.
    apply z_number_valid in Hh, Hs, Hl.
    cbn [is_colour]. rewrite Hh, Hs, Hl. reflexivity.
  - destruct d as [| | | | | [| h [| s [| l [| extra rest]]]] | |];
      cbn [is_colour]; try discriminate.
    intros H. apply andb_true_iff in H as [H Hl]. apply andb_true_iff in H as [Hh Hs].
    rewrite StableFacts.parse_array_of.
    apply SchemaFacts.mergeArray_all_valid.
    rewrite !SchemaFacts.elements_cons.
    repeat constructor; apply z_number_valid; assumption.
Qed.

Lemma Color3_passes : passes_through PaletteVariant.Color3.
Proof.
  unfold PaletteVariant.Color3.
  change (z_array z_number |> length 3) with (array z_number (Some 3)).
  apply StableFacts.array_of_passes, CanonicalFacts.number_passes.
Qed.

(** A union of two schemas accepts what either accepts. *)
Lemma union2_valid (a b : schema) (p : list key) (d : jsval) :
  st (_parse (union [a; b]) p d) = valid <->
  st (_parse a p d) = valid \/ st (_parse b p d) = valid.
Proof.
  cbn [_parse].
  destruct (st (_parse a p d)) eqn:Ea; [rewrite Ea; tauto | |];
    destruct (st (_parse b p d)) eqn:Eb; rewrite ?Ea, ?Eb; cbn [st INVALID];
    split; intros H; try discriminate; auto; destruct H; discriminate.
Qed.

Lemma union2_passes (a b : schema) :
  passes_through a -> passes_through b -> passes_through (union [a; b]).
Proof.
  intros Ha Hb p d. cbn [_parse].
  destruct (st (_parse a p d)) eqn:Ea; [intros _; apply Ha, Ea | |];
    destruct (st (_parse b p d)) eqn:Eb; rewrite ?Ea, ?Eb; cbn [st INVALID];
    intros H; try discriminate; apply Hb, Eb.
Qed.

Lemma Palette_valid (p : list key) (d : jsval) :
  st (_parse PaletteVariant.Palette p d) = valid <->
  is_colour d = true \/
  exists colours, d = JArr colours /\ forallb is_colour colours = true.
Proof.
  unfold PaletteVariant.Palette. rewrite union2_valid, Color3_valid.
  unfold z_array. rewrite (SchemaFacts.array_valid _ is_colour Color3_valid).
  reflexivity.
Qed.

Lemma Palette_passes : passes_through PaletteVariant.Palette.
Proof.
  unfold PaletteVariant.Palette. apply union2_passes.
  - apply Color3_passes.
  - apply StableFacts.array_of_passes, Color3_passes.
Qed.

End ColourFacts.

(** X20.  The [mode] of [toCSS] resolves to one of the four colour spaces, which
    resolve to themselves; a missing [mode] stays [undefined]. *)
Theorem toCSS_mode_resolves_to_a_colour_space (data resolved : jsval) :
  Zod.parse Rampensau.toCSS_mode data = Zod.Ok resolved ->
  (data = JUndefined /\ resolved = JUndefined) \/
  (In resolved colour_spaces /\
   Zod.parse Rampensau.toCSS_mode resolved = Zod.Ok resolved).
Proof.
  intros H. apply Norm01Facts.parse_Ok in H as [Hst <-].
  unfold Rampensau.toCSS_mode in *.
  apply CanonicalFacts.optional_valid in Hst as [[-> ->] | (_ & Hst & ->)]; [auto |].
  right. rewrite SchemaFacts.parse_describe in *.
  destruct (StableFacts.transformed_enum_valid _ _ _ _ _ Hst) as (v & Hin & _ & ->).
  cbn in Hin.
  repeat (destruct Hin as [<- | Hin]; [split; [cbn; tauto | reflexivity] |]).
  contradiction.
Qed.

(** The theorem at the alias ["css-lch"]. *)
Lemma toCSS_mode_resolves_to_a_colour_space_witness :
  In (JStr "lch") colour_spaces /\
  Zod.parse Rampensau.toCSS_mode (JStr "lch") = Zod.Ok (JStr "lch").
Proof.
  destruct (toCSS_mode_resolves_to_a_colour_space (JStr "css-lch") (JStr "lch") eq_refl)
    as [[H _] | H].
  - discriminate H.
  - exact H.
Defined.

(** X21.  [toCSS] accepts as [color] three numbers and nothing else, and hands
    them on as they are: the engine is asked once, for [colorToCSS] of the
    colour given and the resolved mode. *)
Theorem toCSS_takes_three_numbers (raw parsed : jsval) (eng : engine) :
  Zod.parse (Zod.z_object (parameters Rampensau.toCSS)) raw = Zod.Ok parsed ->
  is_colour (get raw "color") = true /\
  get parsed "color" = get raw "color" /\
  run eng (execute Rampensau.toCSS parsed) =
    Returned (Rampensau.asResult (eng (colorToCSS (get raw "color") (get parsed "mode")))) /\
  calls eng (execute Rampensau.toCSS parsed) =
    [colorToCSS (get raw "color") (get parsed "mode")].
Proof.
  intros Hp.
  destruct (ZodFacts.parse_object_field _ raw parsed "color" _
              NoDup_toCSS_parameters (or_introl eq_refl) Hp) as [Hst Hval].
  rewrite SchemaFacts.parse_describe in *.
  change (Zod.length 3 (Zod.z_array Zod.z_number)) with PaletteVariant.Color3 in *.
  rewrite (ColourFacts.Color3_passes _ _ Hst) in Hval.
  apply ColourFacts.Color3_valid in Hst.
  destruct (ZodFacts.parsed_is_object _ _ _ Hp) as (fs & out & _ & -> & _).
  cbn [execute Rampensau.toCSS Rampensau.toCSS_execute destructure].
  rewrite Hval. repeat split; auto.
Qed.

(** The theorem at the specification's colour, against the engine double. *)
Lemma toCSS_takes_three_numbers_witness :
  calls echo_engine
    (execute Rampensau.toCSS
       (JObj [("color", JArr [JNum 200; JNum 50; JNum 50]); ("mode", JStr "hsl")])) =
  [colorToCSS (JArr [JNum 200; JNum 50; JNum 50]) (JStr "hsl")].
Proof.
  apply (toCSS_takes_three_numbers
           (JObj [("color", JArr [JNum 200; JNum 50; JNum 50]); ("mode", JStr "css")])
           (JObj [("color", JArr [JNum 200; JNum 50; JNum 50]); ("mode", JStr "hsl")])
           echo_engine eq_refl).
Defined.

(** * [utils]: after validation, and without it *)

(** X22.  On arguments its schema accepts, [utils] never reaches the guard: [fn]
    is one of the five names, the thunk of that name is an own member of
    the table, and the handler runs it on the given [args], or on no
    arguments when [args] was left out. *)
Theorem utils_finds_every_accepted_name (raw parsed : jsval) :
  Zod.parse (Zod.z_object (parameters Rampensau.utils)) raw = Zod.Ok parsed ->
  exists (fn : string) (args : list jsval) (thunk : prog jsval),
    get parsed "fn" = JStr fn /\ In fn Rampensau.utils_names /\
    (get parsed "args" = JArr args \/ (get parsed "args" = JUndefined /\ args = [])) /\
    Rampensau.own fn (Rampensau.utils_map (JArr args)) = Some thunk /\
    execute Rampensau.utils parsed = (r <- thunk ;; Ret (Rampensau.asResult r)).
Proof.
  intros Hp.
  pose proof (StableFacts.tools_distinct_keys Rampensau.utils ltac:(cbn; tauto)) as Hnd.
  destruct (ZodFacts.parse_object_field _ raw parsed "fn" _ Hnd
              (or_introl eq_refl) Hp) as [Hfn Hfnv].
  destruct (ZodFacts.parse_object_field _ raw parsed "args" _ Hnd
              (or_intror (or_introl eq_refl)) Hp) as [Hargs Hargsv].
  rewrite SchemaFacts.parse_describe in *.
  destruct (SchemaFacts.enum_valid _ _ _ Hfn) as (fn & Eraw & Hin & Efn).
  rewrite Efn, Eraw in Hfnv.
  assert (exists args : list jsval,
            (get parsed "args" = JArr args \/ (get parsed "args" = JUndefined /\ args = [])) /\
            match get parsed "args" with
            | JUndefined => JArr []
            | given => given
            end = JArr args) as (args & Hshape & Hdefault).
  { unfold Zod.z_array in *.
    apply CanonicalFacts.optional_valid in Hargs as [[_ E] | (_ & Hst & E)];
      rewrite E in Hargsv.
    - exists []. rewrite Hargsv. auto.
    - rewrite (StableFacts.array_of_passes _ _ StableFacts.any_passes _ _ Hst) in Hargsv.
      destruct (get raw "args") as [| | | | | items | |];
        try (cbn [Zod._parse Zod.INVALID Zod.st] in Hst; discriminate).
      exists items. rewrite Hargsv. auto. }
  destruct (ZodFacts.parsed_is_object _ _ _ Hp) as (fs & out & _ & -> & _).
  cbn [execute Rampensau.utils Rampensau.utils_execute destructure].
  rewrite Hfnv, Hdefault. cbn [ToString].
  cbn in Hin.
  destruct Hin as [<- | [<- | [<- | [<- | [<- | []]]]]];
    (eexists _, args, _; split; [reflexivity |]; split; [cbn; tauto |];
     split; [exact Hshape |]; split; reflexivity).
Qed.

(** The theorem at [lerp] without arguments: the utility is called on the
    empty list. *)
Lemma utils_finds_every_accepted_name_witness :
  exists (fn : string) (args : list jsval) (thunk : prog jsval),
    get (JObj [("fn", JStr "lerp")]) "fn" = JStr fn /\ In fn Rampensau.utils_names /\
    (get (JObj [("fn", JStr "lerp")]) "args" = JArr args \/
     (get (JObj [("fn", JStr "lerp")]) "args" = JUndefined /\ args = [])) /\
    Rampensau.own fn (Rampensau.utils_map (JArr args)) = Some thunk /\
    execute Rampensau.utils (JObj [("fn", JStr "lerp")]) =
      (r <- thunk ;; Ret (Rampensau.asResult r)).
Proof.
  apply (utils_finds_every_accepted_name
           (JObj [("fn", JStr "lerp")]) (JObj [("fn", JStr "lerp")]) eq_refl).
Defined.

(** X23.  Called without validation, [utils] refuses every [fn] whose name is
    neither one of the five nor a member every object inherits: it throws
    the error that quotes the name, and the engine is not called. *)
Theorem utils_refuses_other_names (fields : Obj.t) (eng : engine) :
  let fn := get (JObj fields) "fn" in
  ~ In (ToString fn) Rampensau.utils_names ->
  ObjectPrototype.has (ToString fn) = false ->
  run eng (execute Rampensau.utils (JObj fields)) =
    Thrown (Error ("utils: unknown fn " ++ String JSON.dquote (ToString fn)
                     ++ String JSON.dquote "")) /\
  calls eng (execute Rampensau.utils (JObj fields)) = [].
Proof.
  intros fn Hfive Hproto.
  cbn [execute Rampensau.utils Rampensau.utils_execute destructure].
  fold fn. rewrite own_utils_map_None by assumption. rewrite Hproto.
  split; reflexivity.
Qed.

(** The theorem at the name [blend] and at a missing [fn], against the
    engine double. *)
Lemma utils_refuses_other_names_witness :
  run echo_engine (execute Rampensau.utils (JObj [("fn", JStr "blend")])) =
    Thrown (Error ("utils: unknown fn " ++ String JSON.dquote "blend"
                     ++ String JSON.dquote "")) /\
  calls echo_engine (execute Rampensau.utils (JObj [])) = [].
Proof.
  split.
  - apply (utils_refuses_other_names [("fn", JStr "blend")] echo_engine).
    + cbn. intuition discriminate.
    + reflexivity.
  - apply (utils_refuses_other_names [] echo_engine).
    + cbn. intuition discriminate.
    + reflexivity.
Defined.

(** X24.  [curvePoint] calls what [pointOnCurve] returned: when that is not a
    function, a [TypeError] is thrown after the one engine call. *)
Theorem curvePoint_needs_a_function (args : list jsval) (eng : engine) :
  is_function (eng (pointOnCurve args)) = false ->
  run eng (execute Rampensau.utils (utils_arguments "curvePoint" args)) =
    Thrown TypeError /\
  calls eng (execute Rampensau.utils (utils_arguments "curvePoint" args)) =
    [pointOnCurve args].
Proof.
  intros H.
  destruct (utils_known_names args) as (_ & _ & _ & -> & _).
  cbn [ask bind run calls].
  destruct (eng (pointOnCurve args)); try discriminate H; split; reflexivity.
Qed.

(** The theorem against an engine that answers every call with a number. *)
Lemma curvePoint_needs_a_function_witness :
  run (fun _ => JNum 1)
    (execute Rampensau.utils (utils_arguments "curvePoint" [JStr "sine"; JNum 1; JNum 0.5])) =
  Thrown TypeError.
Proof.
  apply (curvePoint_needs_a_function [JStr "sine"; JNum 1; JNum 0.5] (fun _ => JNum 1)).
  reflexivity.
Defined.

(** * The palette-aware file *)

Lemma NoDup_variant_toCSS_parameters :
  NoDup (map fst (parameters PaletteVariant.toCSS)).
Proof. distinct_keys. Qed.

(** X25.  The palette-aware [generate] resolves the curve accent through
    [ACCENT_ALIASES] before the engine sees it: the first engine call is
    the curve-aware generator, whose options carry [lamé] for the aliases
    [lamé] and [lame], [arc] for [arc], [linear], [sine] and [easeInOut],
    [pow] for [pow] and [power], [powX] for [powx] and [powX], and [powY]
    for [powy] and [powY]; no other alias is accepted.  Each of the five
    accents resolves to itself.  Without a [curveAccent] the first engine
    call is the plain generator, whose options carry none. *)
Theorem variant_generate_resolves_the_accent (raw parsed : jsval) (eng : engine) :
  Zod.parse (Zod.z_object (parameters PaletteVariant.generate)) raw = Zod.Ok parsed ->
  ((get raw "curveAccent" = JUndefined /\
    exists (opts : jsval) (rest : list call),
      calls eng (execute PaletteVariant.generate raw) = generateColorRamp opts :: rest /\
      get opts "curveAccent" = JUndefined) \/
   (exists (alias accent : string) (opts : jsval) (rest : list call),
      get raw "curveAccent" = JStr alias /\
      ((In alias [lame; "lame"] /\ accent = lame) \/
       (In alias ["arc"; "linear"; "sine"; "easeInOut"] /\ accent = "arc") \/
       (In alias ["pow"; "power"] /\ accent = "pow") \/
       (In alias ["powx"; "powX"] /\ accent = "powX") \/
       (In alias ["powy"; "powY"] /\ accent = "powY")) /\
      calls eng (execute PaletteVariant.generate raw) =
      generateColorRampWithCurve opts :: rest /\
      get opts "curveAccent" = JStr accent)) /\
  (forall accent : jsval,
     In accent accents -> PaletteVariant.alias_of accent = accent).
Proof.
  intros Hp. split.
  - rewrite (generate_variant_delegates raw parsed eng Hp).
    cbn [ask bind calls].
    destruct (ZodFacts.parse_object_field _ raw parsed "curveAccent" _
                NoDup_variant_generate_parameters
                ltac:(cbn; do 7 right; left; reflexivity) Hp) as [Hst Hval].
    rewrite Hval.
    destruct (ZodFacts.parsed_is_object _ _ _ Hp) as (fs & out & _ & -> & _).
    apply CanonicalFacts.optional_valid in Hst as [[Hraw ->] | (_ & Hst & ->)].
    + left. split; [exact Hraw |]. do 2 eexists. split; [reflexivity |].
      cbn [PaletteVariant.opts_of get]. rewrite ObjFacts.lookup_remove_same. reflexivity.
    + right. rewrite SchemaFacts.parse_describe in *.
      destruct (SchemaFacts.enum_valid _ _ _ Hst) as (v & Hraw & Hin & ->).
      rewrite Hraw. exists v.
      cbn in Hin.
      repeat (destruct Hin as [<- | Hin];
              [eexists _, _, _; split; [reflexivity |];
               split; [| split; [reflexivity |
                                 cbn [get]; rewrite ObjFacts.lookup_set_same; reflexivity]];
               cbn; tauto |]).
      contradiction.
  - intros accent Hin. cbn in Hin.
    repeat (destruct Hin as [<- | Hin]; [reflexivity |]). contradiction.
Qed.

(** The theorem at the alias [easeInOut], against the engine double: the
    engine receives the accent [arc]. *)
Lemma variant_generate_resolves_the_accent_witness :
  exists (opts : jsval) (rest : list call),
    calls echo_engine
      (execute PaletteVariant.generate
         (JObj [("total", JNum 5); ("curveAccent", JStr "easeInOut")])) =
    generateColorRampWithCurve opts :: rest /\
    get opts "curveAccent" = JStr "arc".
Proof.
  destruct (proj1 (variant_generate_resolves_the_accent
                     (JObj [("total", JNum 5); ("curveAccent", JStr "easeInOut")])
                     (JObj [("total", JNum 5); ("curveAccent", JStr "easeInOut")])
                     echo_engine eq_refl))
    as [[H _] | (alias & accent & opts & rest & Hraw & Htable & Hcalls & Hopts)].
  - discriminate H.
  - injection Hraw as <-. exists opts, rest. split; [exact Hcalls |].
    rewrite Hopts.
    destruct Htable as [[Hin ->] | [[_ ->] | [[Hin ->] | [[Hin ->] | [Hin ->]]]]];
      try reflexivity; cbn in Hin; exfalso; intuition discriminate.
Defined.

(** X26.  In the palette-aware file the canonical [mode] of [toCSS] is always
    one of the four colour spaces, and it is ["oklch"] when no [mode] was
    given: there the default applies. *)
Theorem variant_toCSS_mode_is_never_missing (raw parsed : jsval) :
  Zod.parse (Zod.z_object (parameters PaletteVariant.toCSS)) raw = Zod.Ok parsed ->
  In (get parsed "mode") colour_spaces /\
  (get raw "mode" = JUndefined -> get parsed "mode" = JStr "oklch").
Proof.
  intros Hp.
  destruct (ZodFacts.parse_object_field _ raw parsed "mode" _
              NoDup_variant_toCSS_parameters (or_intror (or_introl eq_refl)) Hp)
    as [Hst ->].
  rewrite SchemaFacts.parse_describe in *.
  destruct (StableFacts.transformed_enum_valid _ _ _ _ _ Hst) as (v & Hin & Hd & ->).
  split.
  - cbn in Hin. repeat (destruct Hin as [<- | Hin]; [cbn; tauto |]). contradiction.
  - intros Hraw. destruct Hd as [Hd | [_ [= <-]]]; [congruence | reflexivity].
Qed.

(** The theorem at arguments without a [mode]. *)
Lemma variant_toCSS_mode_is_never_missing_witness :
  get (JObj [("color", JArr [JNum 200; JNum 50; JNum 50]); ("mode", JStr "oklch")]) "mode" =
  JStr "oklch".
Proof.
  apply (variant_toCSS_mode_is_never_missing
           (JObj [("color", JArr [JNum 200; JNum 50; JNum 50])])
           (JObj [("color", JArr [JNum 200; JNum 50; JNum 50]); ("mode", JStr "oklch")])
           eq_refl).
  reflexivity.
Defined.

(** X27.  [Palette] accepts one colour of three numbers, or an array of such
    colours (the empty array too), and nothing else; what it accepts it
    returns unchanged. *)
Theorem Palette_accepts_a_colour_or_colours (data parsed : jsval) :
  Zod.parse PaletteVariant.Palette data = Zod.Ok parsed <->
  parsed = data /\
  (is_colour data = true \/
   exists colours : list jsval,
     data = JArr colours /\ forallb is_colour colours = true).
Proof.
  rewrite Norm01Facts.parse_Ok, <- (ColourFacts.Palette_valid [] data).
  split.
  - intros [Hst <-]. split; [apply ColourFacts.Palette_passes, Hst | exact Hst].
  - intros [-> Hst]. split; [exact Hst | apply ColourFacts.Palette_passes, Hst].
Qed.

(** X28.  On arguments its schema accepts, the palette-aware [toCSS] always
    returns: the payload is the engine's conversion of [color], or the
    array of the conversions of its elements. *)
Theorem variant_toCSS_returns_on_accepted_arguments (raw parsed : jsval)
    (eng : engine) :
  Zod.parse (Zod.z_object (parameters PaletteVariant.toCSS)) raw = Zod.Ok parsed ->
  let color := get parsed "color" in
  let mode := get parsed "mode" in
  run eng (execute PaletteVariant.toCSS parsed) =
    Returned (Rampensau.asResult (eng (colorToCSS color mode))) \/
  exists colours : list jsval,
    color = JArr colours /\
    run eng (execute PaletteVariant.toCSS parsed) =
      Returned (Rampensau.asResult
                  (JArr (map (fun c => eng (colorToCSS c mode)) colours))).
Proof.
  intros Hp color mode.
  destruct (ZodFacts.parse_object_field _ raw parsed "color" _
              NoDup_variant_toCSS_parameters (or_introl eq_refl) Hp) as [Hst Hval].
  rewrite SchemaFacts.parse_describe in *.
  rewrite (ColourFacts.Palette_passes _ _ Hst) in Hval.
  apply ColourFacts.Palette_valid in Hst.
  destruct (ZodFacts.parsed_is_object _ _ _ Hp) as (fs & out & _ & -> & _).
  cbn [execute PaletteVariant.toCSS PaletteVariant.toCSS_execute destructure].
  fold color mode. fold color in Hval.
  assert (exists items, color = JArr items) as [items Hitems].
  { rewrite Hval. destruct Hst as [H | (colours & -> & _)]; [| eauto].
    destruct (get raw "color"); try discriminate H. eauto. }
  rewrite Hitems. cbn [index0].
  destruct (isArray (nth 0 items JUndefined)).
  - right. exists items. split; [reflexivity |].
    unfold Array_map, PaletteVariant.asResult.
    rewrite !run_bind, run_mapM_ask. reflexivity.
  - left. reflexivity.
Qed.

(** The theorem at the empty palette, against the engine double: the
    handler converts it as one colour. *)
Lemma variant_toCSS_returns_on_accepted_arguments_witness :
  run echo_engine
    (execute PaletteVariant.toCSS (JObj [("color", JArr []); ("mode", JStr "oklch")])) =
    Returned (Rampensau.asResult (echo_engine (colorToCSS (JArr []) (JStr "oklch")))) \/
  exists colours : list jsval,
    JArr [] = JArr colours /\
    run echo_engine
      (execute PaletteVariant.toCSS (JObj [("color", JArr []); ("mode", JStr "oklch")])) =
      Returned (Rampensau.asResult
                  (JArr (map (fun c => echo_engine (colorToCSS c (JStr "oklch"))) colours))).
Proof.
  apply (variant_toCSS_returns_on_accepted_arguments
           (JObj [("color", JArr [])])
           (JObj [("color", JArr []); ("mode", JStr "oklch")])
           echo_engine eq_refl).
Defined.

(** * The examples of the descriptors *)

(** X29.  Every example a tool lists is accepted by the tool's own schema, in
    [rampensau-mcp-spec.js] and in the palette-aware file. *)
Theorem examples_are_accepted (t : Tool) (example : jsval) :
  In t (Rampensau.tools ++ [PaletteVariant.generate; PaletteVariant.toCSS]) ->
  In example (examples t) ->
  exists parsed : jsval,
    Zod.parse (Zod.z_object (parameters t)) example = Zod.Ok parsed.
Proof.
  intros Ht Hex. cbn [Rampensau.tools app In] in Ht.
  repeat (destruct Ht as [<- | Ht];
          [cbn [examples Rampensau.generate Rampensau.uniqueRandomHuesTool
                Rampensau.colorHarmony Rampensau.toCSS Rampensau.harveyHueTool
                Rampensau.utils PaletteVariant.generate PaletteVariant.toCSS In] in Hex;
           repeat (destruct Hex as [<- | Hex]; [eexists; vm_compute; reflexivity |]);
           contradiction |]).
  contradiction.
Qed.

(** The theorem at the first example of [generate], whose ranges are given
    in per cent. *)
Lemma examples_are_accepted_witness :
  exists parsed : jsval,
    Zod.parse (Zod.z_object (parameters Rampensau.generate))
      (JObj [("total", JNum 8); ("hStart", JNum 220);
             ("sRange", JArr [JNum 70; JNum 100]);
             ("lRange", JArr [JNum 20; JNum 40])]) = Zod.Ok parsed.
Proof.
  apply (examples_are_accepted Rampensau.generate).
  - cbn. tauto.
  - cbn. tauto.
Defined.
